(** * Status page backend: uptime calculator and membership authorization

    A shallow embedding of the FastAPI endpoints of
    [backend/app/api/v1/endpoints] ([public.py], [organizations.py],
    [teams.py], [services.py]).  Documents of the Mongo collections are
    records, a collection is a list of documents in insertion order, an
    endpoint is a function from the database to a result and a new database.
    Instants ([datetime]) and durations ([timedelta]) are integer numbers of
    microseconds, calendar dates are day numbers.  A Python float is the
    rational number it stands for, and an operation on floats rounds its exact
    result to the next binary64 number ([Float.fl]). *)

From Stdlib Require Import ZArith QArith Qround Qpower Lia Lqa.
From Stdlib Require Import Ascii.
From stdpp Require Import base option list list_numbers gmap sorting strings pretty.

Local Open Scope string_scope.
Local Open Scope list_scope.
Local Open Scope Z_scope.

(** ** Data model ([app.domain]) *)

Module Domain.

Definition PyObjectId := Z.
Definition datetime := Z.
Definition timedelta := Z.
Definition date := Z.

Definition usec_per_day : Z := 86400000000.

(** [timedelta(days=n)] *)
Definition days (n : Z) : timedelta := n * usec_per_day.

(** [dt.date()] *)
Definition date_of (dt : datetime) : date := dt `div` usec_per_day.

(** Modelled from the spec: [app.domain.ServiceStatusEnum] is not in the
    sources; its six members are the keys of [severity_map] in [public.py]. *)
Inductive ServiceStatusEnum :=
  | OPERATIONAL
  | DEGRADED_PERFORMANCE
  | PARTIAL_OUTAGE
  | MAJOR_OUTAGE
  | MAINTENANCE
  | MINOR_OUTAGE.

Global Instance ServiceStatusEnum_eq_dec : EqDecision ServiceStatusEnum.
Proof. solve_decision. Defined.

(** Modelled from the spec: [app.domain.UserRoleEnum], role ∈ {OWNER, ADMIN,
    MEMBER, VIEWER}. *)
Inductive UserRoleEnum := OWNER | ADMIN | MEMBER | VIEWER.

Global Instance UserRoleEnum_eq_dec : EqDecision UserRoleEnum.
Proof. solve_decision. Defined.

(** A field of a raw Mongo document that the code converts itself:
    the key may be missing, or hold a value the enum constructor refuses. *)
Inductive field (A : Type) :=
  | Absent
  | Malformed
  | Value (a : A).
Global Arguments Absent {A}.
Global Arguments Malformed {A}.
Global Arguments Value {A} a.

Global Instance field_eq_dec `{EqDecision A} : EqDecision (field A).
Proof. solve_decision. Defined.

Record User := {
  user_id_ : PyObjectId;
  auth0_id : string;
  email : string;
  user_name : option string;
  picture : option string;
  user_created_at : datetime;
  user_updated_at : datetime
}.

(** [OrganizationMember] and [TeamMember] have the same two fields. *)
Record Member := {
  user_id : PyObjectId;
  role : UserRoleEnum
}.

Global Instance Member_eq_dec : EqDecision Member.
Proof. solve_decision. Defined.

Record Organization := {
  org_id : PyObjectId;
  org_name : string;
  logo_url : option string;
  slug : string;
  owner_id : PyObjectId;
  members : list Member;
  org_created_at : datetime;
  org_updated_at : datetime
}.

Global Instance Organization_eq_dec : EqDecision Organization.
Proof. solve_decision. Defined.

Record Team := {
  team_id : PyObjectId;
  organization_id : PyObjectId;
  team_name : string;
  team_description : option string;
  team_members : list Member;
  team_created_at : datetime;
  team_updated_at : datetime
}.

Global Instance Team_eq_dec : EqDecision Team.
Proof. solve_decision. Defined.

(** [ServiceStatusHistory], the entries of a service's [status_history]. *)
Record ServiceStatusHistory := {
  old_status : option ServiceStatusEnum;
  new_status : ServiceStatusEnum;
  timestamp : datetime
}.

Global Instance ServiceStatusHistory_eq_dec : EqDecision ServiceStatusHistory.
Proof. solve_decision. Defined.

Record Service := {
  service_id_ : PyObjectId;
  service_org_id : PyObjectId;
  service_name : string;
  status : ServiceStatusEnum;
  status_history : list ServiceStatusHistory;
  service_created_at : datetime;
  service_updated_at : datetime
}.

Global Instance Service_eq_dec : EqDecision Service.
Proof. solve_decision. Defined.

Record Subscriber := {
  sub_email : string;
  sub_org_id : PyObjectId
}.

(** A document of the collection [service_status_history] as
    [get_service_uptime] reads it: keys [service_id], [status], [timestamp]. *)
Record StatusEvent := {
  ev_service_id : PyObjectId;
  ev_status : field ServiceStatusEnum;
  ev_timestamp : datetime
}.

Global Instance StatusEvent_eq_dec : EqDecision StatusEvent.
Proof. solve_decision. Defined.

Record Database := {
  users : list User;
  organizations : list Organization;
  teams : list Team;
  services : list Service;
  subscribers : list Subscriber;
  service_status_history : list StatusEvent
}.

End Domain.
Export Domain.

(** ** Exceptions and results *)

Module Exc.

(** The exceptions the endpoints raise or catch.  The detail of an
    [HTTPException] that embeds an identifier or the message of a caught
    exception is kept without it. *)
Inductive exception :=
  | HTTPException (status_code : Z) (detail : string)
  | KeyError
  | ValueError
  | IndexError.

Inductive result (A : Type) :=
  | Ok (a : A)
  | Raise (e : exception).
Global Arguments Ok {A} a.
Global Arguments Raise {A} e.

Global Instance result_ret : MRet result := fun A a => Ok a.
Global Instance result_bind : MBind result := fun A B f c =>
  match c with
  | Ok a => f a
  | Raise e => Raise e
  end.

Definition is_Ok {A} (r : result A) : bool :=
  match r with Ok _ => true | Raise _ => false end.

(** [try: c except (ValueError, TypeError): d] *)
Definition except_ValueError {A} (c : result A) (d : A) : result A :=
  match c with
  | Raise ValueError => Ok d
  | r => r
  end.

(** [try: c except Exception: raise HTTPException(500, detail)] *)
Definition except_Exception {A} (c : result A) (detail : string) : result A :=
  match c with
  | Ok a => Ok a
  | Raise _ => Raise (HTTPException 500 detail)
  end.

(** [l[i]] on a Python list *)
Definition getitem {A} (l : list A) (i : nat) : result A :=
  match l !! i with
  | Some a => Ok a
  | None => Raise IndexError
  end.

End Exc.
Export Exc.

(** ** Collections *)

Module Store.

(** [collection.find_one(filter)]: the first document that matches. *)
Fixpoint find_one {A} (p : A → bool) (c : list A) : option A :=
  match c with
  | [] => None
  | d :: c => if p d then Some d else find_one p c
  end.

(** [collection.find(filter)] *)
Definition find {A} (p : A → bool) (c : list A) : list A := filter (λ d, p d) c.

(** Stable insertion sort by an integer key, ascending: the model of both
    [cursor.sort(key, 1)] and Python's [sorted(l, key=...)]. *)
Fixpoint insert_by {A} (key : A → Z) (x : A) (l : list A) : list A :=
  match l with
  | [] => [x]
  | y :: l' => if key x <? key y then x :: l else y :: insert_by key x l'
  end.

Definition sort_by {A} (key : A → Z) (l : list A) : list A :=
  foldl (λ acc x, insert_by key x acc) [] l.

(** A [for] loop whose body may raise. *)
Fixpoint foldM {A B} (f : B → A → result B) (b : B) (l : list A) : result B :=
  match l with
  | [] => Ok b
  | x :: l => b' ← f b x; foldM f b' l
  end.

(** *** Endpoints that write: state and exceptions

    An exception leaves the database as it is at the point of the [raise]:
    what was written before stays written. *)

Definition M (A : Type) : Type := Database → result A * Database.

Global Instance M_ret : MRet M := λ A a db, (Ok a, db).
Global Instance M_bind : MBind M := λ A B f c db,
  match c db with
  | (Ok a, db') => f a db'
  | (Raise e, db') => (Raise e, db')
  end.

Definition raise {A} (e : exception) : M A := λ db, (Raise e, db).
Definition get_db : M Database := λ db, (Ok db, db).
Definition put_db (db' : Database) : M unit := λ _, (Ok (), db').

(** [try: c except HTTPException: raise; except Exception: raise
    HTTPException(500, detail)] *)
Definition except_reraise {A} (c : M A) (detail : string) : M A := λ db,
  match c db with
  | (Raise (HTTPException code d), db') => (Raise (HTTPException code d), db')
  | (Raise _, db') => (Raise (HTTPException 500 detail), db')
  | r => r
  end.

Definition set_users (us : list User) (db : Database) : Database :=
  {| users := us; organizations := organizations db; teams := teams db;
     services := services db; subscribers := subscribers db;
     service_status_history := service_status_history db |}.

Definition set_organizations (os : list Organization) (db : Database) : Database :=
  {| users := users db; organizations := os; teams := teams db;
     services := services db; subscribers := subscribers db;
     service_status_history := service_status_history db |}.

Definition set_teams (ts : list Team) (db : Database) : Database :=
  {| users := users db; organizations := organizations db; teams := ts;
     services := services db; subscribers := subscribers db;
     service_status_history := service_status_history db |}.

Definition set_services (ss : list Service) (db : Database) : Database :=
  {| users := users db; organizations := organizations db; teams := teams db;
     services := ss; subscribers := subscribers db;
     service_status_history := service_status_history db |}.

Definition set_subscribers (ss : list Subscriber) (db : Database) : Database :=
  {| users := users db; organizations := organizations db; teams := teams db;
     services := services db; subscribers := ss;
     service_status_history := service_status_history db |}.

(** [collection.update_one(filter, update)]: the first document that matches
    is replaced by its update. *)
Record UpdateResult := {
  matched_count : nat;
  modified_count : nat
}.

Fixpoint update_first {A} (p : A → bool) (f : A → A) (c : list A) : list A :=
  match c with
  | [] => []
  | d :: c => if p d then f d :: c else d :: update_first p f c
  end.

Definition update_result `{EqDecision A} (p : A → bool) (f : A → A) (c : list A)
    : UpdateResult :=
  match find_one p c with
  | Some d => {| matched_count := 1; modified_count := if decide (f d = d) then 0 else 1 |}
  | None => {| matched_count := 0; modified_count := 0 |}
  end.

(** [collection.delete_many(filter)] *)
Definition delete_many {A} (p : A → bool) (c : list A) : list A :=
  filter (λ d, ¬ p d) c.

(** A fresh [ObjectId], as [insert_one] generates it. *)
Definition fresh_id (ids : list PyObjectId) : PyObjectId := 1 + foldr Z.max 0 ids.

End Store.
Export Store.

(** ** [public.py] *)

(** ** Python floats

    A binary64 number has a significand of 53 bits; the result of a division,
    of a multiplication or of the conversion of a decimal is the number of
    this form next to the exact result, with ties going to the even
    significand.  The exponent is not bounded: the numbers of the uptime
    computation, quotients of durations and percentages, are far from the
    ends of the exponent range. *)

Module Float.

(** Round half to even, to an integer. *)
Definition round_half_even (q : Q) : Z :=
  let f := Qfloor q in
  match ((q - inject_Z f) ?= (1 # 2))%Q with
  | Lt => f
  | Gt => f + 1
  | Eq => if Z.even f then f else f + 1
  end.

Definition pow2 (e : Z) : Q := (2 ^ e)%Q.

(** For [0 < q], the integer [l] with [2^l <= q < 2^(l+1)]. *)
Definition ilog2 (q : Q) : Z :=
  let l := Z.log2 (Qnum q) - Z.log2 (Zpos (Qden q)) in
  match (q ?= pow2 l)%Q with
  | Lt => l - 1
  | _ => l
  end.

(** The float next to [q > 0]: the significand [q / 2^e], which lies between
    [2^52] and [2^53], is rounded to an integer. *)
Definition fl_pos (q : Q) : Q :=
  let e := ilog2 q - 52 in
  (inject_Z (round_half_even (q / pow2 e)) * pow2 e)%Q.

(** The float next to [q]. *)
Definition fl (q : Q) : Q :=
  match (q ?= 0)%Q with
  | Eq => 0%Q
  | Gt => fl_pos q
  | Lt => (- fl_pos (- q))%Q
  end.

(** [x < y] *)
Definition ltb (x y : Q) : bool :=
  match (x ?= y)%Q with
  | Lt => true
  | _ => false
  end.

(** The unit roundoff, [2^-53]. *)
Definition u : Q := (1 # 9007199254740992)%Q.

End Float.

Module Public.

Record DailyUptimeStatus := {
  du_date : date;
  du_status : ServiceStatusEnum
}.

Record ServiceUptime := {
  overall_uptime_percentage : Q;
  daily_statuses : list DailyUptimeStatus
}.

(** [ServiceStatusEnum(x)] *)
Definition ServiceStatusEnum_of (x : field ServiceStatusEnum) : result ServiceStatusEnum :=
  match x with
  | Value s => Ok s
  | _ => Raise ValueError
  end.

(** [event['status']] *)
Definition getitem_status (e : StatusEvent) : result (field ServiceStatusEnum) :=
  match ev_status e with
  | Absent => Raise KeyError
  | x => Ok x
  end.

(** [event.get('status')]: [None] for a missing key, which the enum
    constructor refuses like any other bad value. *)
Definition get_status (e : StatusEvent) : field ServiceStatusEnum :=
  match ev_status e with
  | Absent => Malformed
  | x => x
  end.

Definition up_states (s : ServiceStatusEnum) : bool :=
  match s with
  | OPERATIONAL | DEGRADED_PERFORMANCE => true
  | _ => false
  end.

Definition excluded_states (s : ServiceStatusEnum) : bool :=
  match s with
  | MAINTENANCE => true
  | _ => false
  end.

Definition severity_map (s : ServiceStatusEnum) : Z :=
  match s with
  | MAJOR_OUTAGE => 5
  | PARTIAL_OUTAGE => 4
  | MINOR_OUTAGE => 3
  | DEGRADED_PERFORMANCE => 2
  | MAINTENANCE => 1
  | OPERATIONAL => 0
  end.

(** [td.total_seconds()]: the number of microseconds divided by [10**6]. *)
Definition total_seconds (td : timedelta) : Q :=
  Float.fl (inject_Z td / 1000000)%Q.

(** [round(x, 4)]: the decimal with four places next to the float [x], ties
    going to the even last digit, and then the float next to this decimal. *)
Definition round4 (x : Q) : Q :=
  Float.fl (Qmake (Float.round_half_even (x * 10000)%Q) 10000).

(** Lines 168-180: the event timeline. *)
Definition build_events (service_obj_id : PyObjectId) (service_doc : Service)
    (start_date end_date : datetime)
    (initial_status_doc history : list StatusEvent) : result (list StatusEvent) :=
  let events : list StatusEvent := [] in
  let events :=
    match initial_status_doc with
    | d :: _ => events ++ [d]
    | [] => events
    end in
  let events := events ++ history in
  let events :=
    match events with
    | [] =>
        let current_service_status := Value (status service_doc) in
        events ++ [ {| ev_service_id := service_obj_id;
                       ev_status := current_service_status;
                       ev_timestamp := start_date |} ]
    | _ => events
    end in
  last_event ← getitem events (length events - 1);
  last_event_status ← getitem_status last_event;
  Ok (events ++ [ {| ev_service_id := service_obj_id;
                     ev_status := last_event_status;
                     ev_timestamp := end_date |} ]).

(** Lines 188-201: the body of the accumulation loop; the state is
    [(up_duration, total_duration)]. *)
Definition uptime_step (events : list StatusEvent)
    (acc : timedelta * timedelta) (i : nat) : result (timedelta * timedelta) :=
  let '(up_duration, total_duration) := acc in
  start_event ← getitem events i;
  end_event ← getitem events (i + 1);
  let duration := ev_timestamp end_event - ev_timestamp start_event in
  status ← except_ValueError (ServiceStatusEnum_of (get_status start_event)) OPERATIONAL;
  if negb (excluded_states status) then
    let total_duration := total_duration + duration in
    if up_states status
    then Ok (up_duration + duration, total_duration)
    else Ok (up_duration, total_duration)
  else Ok (up_duration, total_duration).

Definition uptime_loop (events : list StatusEvent) : result (timedelta * timedelta) :=
  foldM (uptime_step events) (0, 0) (seq 0 (length events - 1)).

(** Lines 203-207. *)
Definition overall_percentage (service_doc : Service)
    (up_duration total_duration : timedelta) : Q :=
  if Float.ltb 0 (total_seconds total_duration)
  then Float.fl (Float.fl (total_seconds up_duration / total_seconds total_duration)
                 * 100)%Q
  else if up_states (status service_doc) then 100%Q else 0%Q.

Record day_entry := {
  entry_severity : option Z;
  entry_status : ServiceStatusEnum
}.

(** Lines 230-243: the scan of one day. *)
Definition day_scan_step (day_end : datetime)
    (acc : ServiceStatusEnum * Z) (event : StatusEvent) : result (ServiceStatusEnum * Z) :=
  let '(day_worst_status, day_worst_severity) := acc in
  if ev_timestamp event <? day_end then
    event_status ←
      except_ValueError (raw ← getitem_status event; ServiceStatusEnum_of raw) OPERATIONAL;
    let event_severity := severity_map event_status in
    if day_worst_severity <? event_severity
    then Ok (event_status, event_severity)
    else Ok (day_worst_status, day_worst_severity)
  else Ok (day_worst_status, day_worst_severity).

Definition day_scan (sorted_events : list StatusEvent) (day_end : datetime)
    : result (ServiceStatusEnum * Z) :=
  foldM (day_scan_step day_end) (OPERATIONAL, 0) sorted_events.

(** Lines 219-248: the daily status summary. *)
Definition daily_summary (start_date end_date : datetime)
    (events : list StatusEvent) : result (list DailyUptimeStatus) :=
  let day_map : gmap date day_entry := ∅ in
  initial_status_for_daily ←
    match events with
    | [] => Ok OPERATIONAL
    | _ :: _ =>
        first_event ← getitem events 0;
        raw ← getitem_status first_event;
        ServiceStatusEnum_of raw
    end;
  let day_map :=
    foldl (λ (day_map : gmap date day_entry) (i : nat),
             let current_date := date_of (end_date - days (Z.of_nat i)) in
             <[current_date :=
                 {| entry_severity := Some (severity_map initial_status_for_daily);
                    entry_status := initial_status_for_daily |}]> day_map)
          day_map (seq 0 90) in
  let sorted_events := sort_by ev_timestamp events in
  day_map ←
    foldM (λ (day_map : gmap date day_entry) (day_start : datetime),
             let day_end := day_start + days 1 in
             worst ← day_scan sorted_events day_end;
             Ok (<[date_of day_start :=
                     {| entry_severity := None; entry_status := worst.1 |}]> day_map))
          day_map ((λ n : nat, start_date + days (Z.of_nat n)) <$> seq 0 90);
  Ok (sort_by du_date
        ((λ ds : date * day_entry,
            {| du_date := ds.1; du_status := entry_status ds.2 |})
           <$> map_to_list day_map)).

(** The endpoint.  [utcnow] is the value of [datetime.utcnow()]; the service
    id is taken after its conversion by [PyObjectId].  Every exception raised
    inside the [try], the two 404 included, leaves as a 500. *)
Definition get_service_uptime (utcnow : datetime) (slug_ : string)
    (service_obj_id : PyObjectId) (db : Database) : result ServiceUptime :=
  except_Exception
    (org_doc ←
       match find_one (λ o, bool_decide (slug o = slug_)) (organizations db) with
       | Some o => Ok o
       | None => Raise (HTTPException 404 "Organization not found")
       end;
     service_doc ←
       match find_one (λ s, bool_decide (service_id_ s = service_obj_id)
                            && bool_decide (service_org_id s = org_id org_doc))
                      (services db) with
       | Some s => Ok s
       | None => Raise (HTTPException 404 "Service not found in this organization")
       end;
     let end_date := utcnow in
     let start_date := end_date - days 90 in
     let history :=
       sort_by ev_timestamp
         (find (λ e, bool_decide (ev_service_id e = service_obj_id)
                     && (start_date <=? ev_timestamp e)
                     && (ev_timestamp e <=? end_date))
               (service_status_history db)) in
     let initial_status_doc :=
       take 1 (sort_by (λ e, - ev_timestamp e)
                 (find (λ e, bool_decide (ev_service_id e = service_obj_id)
                             && (ev_timestamp e <? start_date))
                       (service_status_history db))) in
     events ← build_events service_obj_id service_doc start_date end_date
                initial_status_doc history;
     durations ← uptime_loop events;
     let '(up_duration, total_duration) := durations in
     let overall_uptime_percentage_ :=
       overall_percentage service_doc up_duration total_duration in
     daily_statuses_list ← daily_summary start_date end_date events;
     Ok {| overall_uptime_percentage := round4 overall_uptime_percentage_;
           daily_statuses := daily_statuses_list |})
    "Internal Server Error".

(** The body of the response of [unsubscribe_from_updates]. *)
Record Response := {
  status_code : Z;
  message : string
}.

Definition unsubscribe_from_updates (slug_ : string) (email_ : string) : M Response :=
  db ← get_db;
  match find_one (λ o, bool_decide (slug o = slug_)) (organizations db) with
  | None =>
      mret {| status_code := 200; message := "Your request has been processed." |}
  | Some organization =>
      put_db (set_subscribers
                (delete_many (λ s, bool_decide (sub_email s = email_)
                                   && bool_decide (sub_org_id s = org_id organization))
                   (subscribers db)) db);;
      mret {| status_code := 200; message := "Your request has been processed." |}
  end.

End Public.

(** ** [organizations.py] *)

Module Organizations.

(** [TokenPayload]: the claims of the verified token. *)
Record TokenPayload := {
  sub : option string;
  tp_email : option string;
  tp_name : option string;
  tp_picture : option string
}.

(** Truth value of an optional string: [None] and the empty string are false. *)
Definition truthy (o : option string) : bool :=
  match o with
  | Some s => negb (bool_decide (s = ""))
  | None => false
  end.

(** Modelled from the spec: the request models [OrganizationCreate],
    [OrganizationUpdate], [OrganizationMemberAdd] of [app.domain] are not in
    the sources; their fields are those of the entity that a client provides. *)
Record OrganizationCreate := {
  oc_name : string;
  oc_logo_url : option string
}.

Record OrganizationUpdate := {
  ou_name : option string;
  ou_logo_url : option string
}.

Record OrganizationMemberAdd := {
  ma_email : string;
  ma_role : UserRoleEnum
}.

(** *** Slugs *)

Definition lower (c : ascii) : ascii :=
  let n := nat_of_ascii c in
  if (65 <=? n)%nat && (n <=? 90)%nat then ascii_of_nat (n + 32) else c.

Definition is_slug_char (c : ascii) : bool :=
  let n := nat_of_ascii c in
  ((97 <=? n)%nat && (n <=? 122)%nat) || ((48 <=? n)%nat && (n <=? 57)%nat).

(** [s.lower()] *)
Fixpoint str_lower (s : string) : string :=
  match s with
  | EmptyString => EmptyString
  | String c s => String (lower c) (str_lower s)
  end.

(** [re.sub(r'[^a-z0-9]+', '-', s)]; [in_run] tells that the previous
    character was already replaced. *)
Fixpoint sub_runs (in_run : bool) (s : string) : string :=
  match s with
  | EmptyString => EmptyString
  | String c s =>
      if is_slug_char c then String c (sub_runs false s)
      else if in_run then sub_runs true s
      else String "-" (sub_runs true s)
  end.

Fixpoint lstrip_dash (s : string) : string :=
  match s with
  | String "-" s' => lstrip_dash s'
  | _ => s
  end.

Fixpoint rstrip_dash (s : string) : string :=
  match s with
  | EmptyString => EmptyString
  | String c s' =>
      let r := rstrip_dash s' in
      if bool_decide (c = "-"%char) && bool_decide (r = EmptyString)
      then EmptyString else String c r
  end.

(** [re.sub(r'[^a-z0-9]+', '-', name.lower()).strip('-')] *)
Definition slugify (name : string) : string :=
  rstrip_dash (lstrip_dash (sub_runs false (str_lower name))).

Definition slug_taken (s : string) (orgs : list Organization) : bool :=
  bool_decide (is_Some (find_one (λ o, bool_decide (slug o = s)) orgs)).

(** The [while] loop of [create_organization]; [fuel] bounds the number of
    iterations that are left. *)
Fixpoint slug_loop (fuel : nat) (base_slug slug_ : string) (counter : nat)
    (orgs : list Organization) : option string :=
  if slug_taken slug_ orgs then
    match fuel with
    | O => None
    | S fuel =>
        slug_loop fuel base_slug (base_slug +:+ "-" +:+ pretty counter) (S counter) orgs
    end
  else Some slug_.

(** The slugs the loop tries: the base slug, then the base slug with the
    suffixes [-1], [-2], ... *)
Definition slug_candidate (base_slug : string) (k : nat) : string :=
  match k with
  | O => base_slug
  | S _ => base_slug +:+ "-" +:+ pretty k
  end.

(** As many iterations as there are organizations are always enough
    (see [slug_loop_fuel]). *)
Definition unique_slug (base_slug : string) (orgs : list Organization) : string :=
  default base_slug (slug_loop (length orgs) base_slug base_slug 1 orgs).

(** *** Requests on the collections *)

Definition user_by_auth0_id (sub_ : option string) (db : Database) : option User :=
  find_one (λ u, bool_decide (Some (auth0_id u) = sub_)) (users db).

Definition user_by_email (email_ : string) (db : Database) : option User :=
  find_one (λ u, bool_decide (email u = email_)) (users db).

Definition organization_by_id (id : PyObjectId) (db : Database) : option Organization :=
  find_one (λ o, bool_decide (org_id o = id)) (organizations db).

(** [any(m.user_id == uid and m.role in roles for m in ms)] *)
Definition any_member (uid : PyObjectId) (roles : list UserRoleEnum) (ms : list Member)
    : bool :=
  existsb (λ m, bool_decide (user_id m = uid) && bool_decide (role m ∈ roles)) ms.

(** The member list holds the user with role ADMIN or OWNER. *)
Definition listed_admin_or_owner (uid : PyObjectId) (ms : list Member) : Prop :=
  ∃ m, m ∈ ms ∧ user_id m = uid ∧ (role m = ADMIN ∨ role m = OWNER).

(** [any(m.user_id == uid for m in ms)] *)
Definition is_member (uid : PyObjectId) (ms : list Member) : bool :=
  existsb (λ m, bool_decide (user_id m = uid)) ms.

Definition set_members (ms : list Member) (o : Organization) : Organization :=
  {| org_id := org_id o; org_name := org_name o; logo_url := logo_url o;
     slug := slug o; owner_id := owner_id o; members := ms;
     org_created_at := org_created_at o; org_updated_at := org_updated_at o |}.

Definition set_org_updated_at (t : datetime) (o : Organization) : Organization :=
  {| org_id := org_id o; org_name := org_name o; logo_url := logo_url o;
     slug := slug o; owner_id := owner_id o; members := members o;
     org_created_at := org_created_at o; org_updated_at := t |}.

(** [{"$set": update_data}] for the fields of [OrganizationUpdate] that are set. *)
Definition set_org_fields (u : OrganizationUpdate) (o : Organization) : Organization :=
  {| org_id := org_id o;
     org_name := default (org_name o) (ou_name u);
     logo_url := match ou_logo_url u with Some l => Some l | None => logo_url o end;
     slug := slug o; owner_id := owner_id o; members := members o;
     org_created_at := org_created_at o; org_updated_at := org_updated_at o |}.

(** [{"$pull": {"members": {"user_id": uid}}}] *)
Definition pull_member (uid : PyObjectId) (ms : list Member) : list Member :=
  filter (λ m, user_id m ≠ uid) ms.

(** [{"$set": {"members.$.role": r}}]: the first member with this id. *)
Definition set_member_role (uid : PyObjectId) (r : UserRoleEnum) (ms : list Member)
    : list Member :=
  update_first (λ m, bool_decide (user_id m = uid))
    (λ m, {| user_id := user_id m; role := r |}) ms.

(** [db.organizations.update_one({"_id": id, ...}, update)] *)
Definition update_organization_doc (p : Organization → bool)
    (f : Organization → Organization) : M UpdateResult := λ db,
  (Ok (update_result p f (organizations db)),
   set_organizations (update_first p f (organizations db)) db).

(** *** Endpoints *)

(** The find-or-create of the user of a token, lines 46-77.  The model
    [User] of [app.domain] validates the data of a new user; [valid_user]
    tells whether its constructor accepts [new_user_data]. *)
Definition find_or_create_user (valid_user : bool) (utcnow : datetime)
    (payload : TokenPayload) : M PyObjectId :=
  db ← get_db;
  match user_by_auth0_id (sub payload) db with
  | Some user_doc =>
      let current_user_id := user_id_ user_doc in
      let set_name := truthy (tp_name payload)
                      && bool_decide (user_name user_doc ≠ tp_name payload) in
      let set_picture := truthy (tp_picture payload)
                         && bool_decide (picture user_doc ≠ tp_picture payload) in
      let set_email := truthy (tp_email payload)
                       && bool_decide (Some (email user_doc) ≠ tp_email payload) in
      if set_name || set_picture || set_email then
        let updated :=
          {| user_id_ := user_id_ user_doc; auth0_id := auth0_id user_doc;
             email := if set_email then default "" (tp_email payload) else email user_doc;
             user_name := if set_name then tp_name payload else user_name user_doc;
             picture := if set_picture then tp_picture payload else picture user_doc;
             user_created_at := user_created_at user_doc;
             user_updated_at := utcnow |} in
        put_db (set_users
                  (update_first (λ u, bool_decide (user_id_ u = current_user_id))
                     (λ _, updated) (users db)) db);;
        mret current_user_id
      else mret current_user_id
  | None =>
      if valid_user then
        let inserted_id := fresh_id (user_id_ <$> users db) in
        let user_to_create :=
          {| user_id_ := inserted_id;
             auth0_id := default "" (sub payload);
             email := default "" (tp_email payload);
             user_name := tp_name payload;
             picture := tp_picture payload;
             user_created_at := utcnow;
             user_updated_at := utcnow |} in
        put_db (set_users (users db ++ [user_to_create]) db);;
        mret inserted_id
      else raise (HTTPException 400 "Invalid user data from token")
  end.

Definition create_organization (valid_user : bool) (utcnow : datetime)
    (org_in : OrganizationCreate) (payload : TokenPayload) : M Organization :=
  db ← get_db;
  let base_slug := slugify (oc_name org_in) in
  let slug_ := unique_slug base_slug (organizations db) in
  if negb (truthy (sub payload)) || negb (truthy (tp_email payload)) then
    raise (HTTPException 400 "Auth0 user ID (sub) and email are required from token.")
  else
    current_user_id ← find_or_create_user valid_user utcnow payload;
    db ← get_db;
    let owner_member := {| user_id := current_user_id; role := ADMIN |} in
    let inserted_id := fresh_id (org_id <$> organizations db) in
    let org_dict :=
      {| org_id := inserted_id;
         org_name := oc_name org_in;
         logo_url := oc_logo_url org_in;
         slug := slug_;
         owner_id := current_user_id;
         members := [owner_member];
         org_created_at := utcnow;
         org_updated_at := utcnow |} in
    put_db (set_organizations (organizations db ++ [org_dict]) db);;
    db ← get_db;
    match organization_by_id inserted_id db with
    | Some created_org_doc => mret created_org_doc
    | None => raise (HTTPException 500 "Could not create organization.")
    end.

(** The part of [get_organization] that decides its outcome: the requesting
    user exists and is a member of the organization.  The response is the
    organization document (the member details that the endpoint looks up in
    [users] are left out). *)
Definition get_organization (org_id_ : PyObjectId) (payload : TokenPayload)
    : M Organization :=
  db ← get_db;
  match user_by_auth0_id (sub payload) db with
  | None => raise (HTTPException 404 "Requesting user not found.")
  | Some requesting_user_doc =>
      let requesting_user_id := user_id_ requesting_user_doc in
      match find_one (λ o, bool_decide (org_id o = org_id_)
                           && is_member requesting_user_id (members o))
                     (organizations db) with
      | None => raise (HTTPException 404 "Organization not found or user is not a member.")
      | Some organization_doc => mret organization_doc
      end
  end.

Definition update_organization (utcnow : datetime) (org_id_ : PyObjectId)
    (org_in : OrganizationUpdate) (payload : TokenPayload) : M Organization :=
  let no_update_data :=
    bool_decide (ou_name org_in = None) && bool_decide (ou_logo_url org_in = None) in
  if no_update_data then
    raise (HTTPException 400 "No update data provided.")
  else
    update_result ←
      update_organization_doc (λ o, bool_decide (org_id o = org_id_))
        (λ o, set_org_updated_at utcnow (set_org_fields org_in o));
    if bool_decide (matched_count update_result = 0%nat) then
      raise (HTTPException 404 "Organization not found")
    else
      db ← get_db;
      match organization_by_id org_id_ db with
      | None => raise (HTTPException 404 "Organization not found after update.")
      | Some updated_org => mret updated_org
      end.

Definition add_organization_member (utcnow : datetime) (org_id_ : PyObjectId)
    (member_data : OrganizationMemberAdd) (payload : TokenPayload) : M Organization :=
  if negb (truthy (sub payload)) then
    raise (HTTPException 400 "Auth0 user ID (sub) is required.")
  else
    db ← get_db;
    match user_by_auth0_id (sub payload) db with
    | None => raise (HTTPException 404 "Requesting user not found.")
    | Some requesting_user_doc =>
        let requesting_user_internal_id := user_id_ requesting_user_doc in
        match organization_by_id org_id_ db with
        | None => raise (HTTPException 404 "Organization not found")
        | Some organization =>
            if negb (any_member requesting_user_internal_id [ADMIN; OWNER]
                       (members organization)) then
              raise (HTTPException 403 "User does not have permission to add members.")
            else
              match user_by_email (ma_email member_data) db with
              | None => raise (HTTPException 404 "User with this email not found.")
              | Some user_to_add =>
                  if is_member (user_id_ user_to_add) (members organization) then
                    raise (HTTPException 409 "User is already a member.")
                  else
                    let new_member :=
                      {| user_id := user_id_ user_to_add;
                         role := ma_role member_data |} in
                    update_organization_doc (λ o, bool_decide (org_id o = org_id_))
                      (λ o, set_org_updated_at utcnow
                              (set_members (members o ++ [new_member]) o));;
                    get_organization org_id_ payload
              end
        end
    end.

Definition remove_organization_member (org_id_ : PyObjectId)
    (user_id_to_remove : PyObjectId) (payload : TokenPayload) : M Organization :=
  if negb (truthy (sub payload)) then
    raise (HTTPException 400 "Auth0 user ID required.")
  else
    db ← get_db;
    match user_by_auth0_id (sub payload) db with
    | None => raise (HTTPException 404 "Requesting user not found.")
    | Some requesting_user_doc =>
        let requesting_user_internal_id := user_id_ requesting_user_doc in
        match organization_by_id org_id_ db with
        | None => raise (HTTPException 404 "Organization not found")
        | Some organization =>
            let is_owner :=
              bool_decide (owner_id organization = requesting_user_internal_id) in
            let is_admin :=
              any_member requesting_user_internal_id [ADMIN] (members organization) in
            if negb (is_owner || is_admin) then
              raise (HTTPException 403 "User does not have permission to remove members.")
            else if bool_decide (user_id_to_remove = owner_id organization) then
              raise (HTTPException 400 "Cannot remove the organization owner.")
            else if negb is_owner
                    && bool_decide (user_id_to_remove = requesting_user_internal_id) then
              raise (HTTPException 400 "Admins cannot remove themselves.")
            else
              update_result ←
                update_organization_doc (λ o, bool_decide (org_id o = org_id_))
                  (λ o, set_members (pull_member user_id_to_remove (members o)) o);
              if bool_decide (modified_count update_result = 0%nat) then
                raise (HTTPException 404 "Member not found.")
              else get_organization org_id_ payload
        end
    end.

Definition update_organization_member_role (utcnow : datetime) (org_id_ : PyObjectId)
    (user_id_to_update : PyObjectId) (role_data : UserRoleEnum)
    (payload : TokenPayload) : M Organization :=
  if negb (truthy (sub payload)) then
    raise (HTTPException 400 "Auth0 user ID required.")
  else
    db ← get_db;
    match user_by_auth0_id (sub payload) db with
    | None => raise (HTTPException 404 "Requesting user not found.")
    | Some requesting_user_doc =>
        let requesting_user_internal_id := user_id_ requesting_user_doc in
        match organization_by_id org_id_ db with
        | None => raise (HTTPException 404 "Organization not found")
        | Some organization =>
            let is_owner :=
              bool_decide (owner_id organization = requesting_user_internal_id) in
            let is_admin :=
              any_member requesting_user_internal_id [ADMIN] (members organization) in
            if negb (is_owner || is_admin) then
              raise (HTTPException 403 "User does not have permission to update roles.")
            else if bool_decide (role_data = OWNER) then
              raise (HTTPException 400 "Cannot assign 'owner' role.")
            else if bool_decide (user_id_to_update = owner_id organization) then
              raise (HTTPException 400 "Cannot change the owner's role.")
            else if negb is_owner
                    && bool_decide (user_id_to_update = requesting_user_internal_id) then
              raise (HTTPException 403 "Admins cannot change their own role.")
            else
              update_result ←
                update_organization_doc
                  (λ o, bool_decide (org_id o = org_id_)
                        && is_member user_id_to_update (members o))
                  (λ o, set_org_updated_at utcnow
                          (set_members
                             (set_member_role user_id_to_update role_data (members o)) o));
              if bool_decide (matched_count update_result = 0%nat) then
                raise (HTTPException 404 "Member not found or update failed.")
              else get_organization org_id_ payload
        end
    end.

End Organizations.

(** ** [teams.py] *)

Module Teams.
Import Organizations.

(** Modelled from the spec: the request models [TeamUpdate] and
    [TeamMemberAdd] of [app.domain] are not in the sources; [update_team]
    documents the fields name and description. *)
Record TeamUpdate := {
  tu_name : option string;
  tu_description : option string
}.

Record TeamMemberAdd := {
  tm_user_id : PyObjectId;
  tm_role : UserRoleEnum
}.

Definition team_by_id (id : PyObjectId) (db : Database) : option Team :=
  find_one (λ t, bool_decide (team_id t = id)) (teams db).

Definition user_by_id (id : PyObjectId) (db : Database) : option User :=
  find_one (λ u, bool_decide (user_id_ u = id)) (users db).

Definition set_team_members (ms : list Member) (t : Team) : Team :=
  {| team_id := team_id t; organization_id := organization_id t;
     team_name := team_name t; team_description := team_description t;
     team_members := ms;
     team_created_at := team_created_at t; team_updated_at := team_updated_at t |}.

Definition set_team_updated_at (now : datetime) (t : Team) : Team :=
  {| team_id := team_id t; organization_id := organization_id t;
     team_name := team_name t; team_description := team_description t;
     team_members := team_members t;
     team_created_at := team_created_at t; team_updated_at := now |}.

(** [{"$set": team_update_data}] for the fields of [TeamUpdate] that are set. *)
Definition set_team_fields (u : TeamUpdate) (t : Team) : Team :=
  {| team_id := team_id t; organization_id := organization_id t;
     team_name := default (team_name t) (tu_name u);
     team_description :=
       match tu_description u with Some d => Some d | None => team_description t end;
     team_members := team_members t;
     team_created_at := team_created_at t; team_updated_at := team_updated_at t |}.

(** [db.teams.update_one({"_id": id}, update)] *)
Definition update_team_doc (p : Team → bool) (f : Team → Team) : M UpdateResult := λ db,
  (Ok (update_result p f (teams db)), set_teams (update_first p f (teams db)) db).

(** [sum(1 for m in team.members if m.role == UserRoleEnum.ADMIN)] *)
Definition num_admins (ms : list Member) : nat :=
  length (filter (λ m, role m = ADMIN) ms).

Definition update_team (utcnow : datetime) (team_id_ : PyObjectId)
    (team_in : TeamUpdate) (payload : TokenPayload) : M Team :=
  let no_update_data :=
    bool_decide (tu_name team_in = None) && bool_decide (tu_description team_in = None) in
  if no_update_data then
    raise (HTTPException 400 "No update data provided")
  else
    update_result ←
      update_team_doc (λ t, bool_decide (team_id t = team_id_))
        (λ t, set_team_updated_at utcnow (set_team_fields team_in t));
    if bool_decide (matched_count update_result = 0%nat) then
      raise (HTTPException 404 "Team not found")
    else
      db ← get_db;
      match team_by_id team_id_ db with
      | Some updated_team_doc => mret updated_team_doc
      | None => raise (HTTPException 500 "Failed to retrieve updated team")
      end.

Definition add_team_member (utcnow : datetime) (team_id_ : PyObjectId)
    (member_data : TeamMemberAdd) (payload : TokenPayload) : M Team :=
  if negb (truthy (sub payload)) then
    raise (HTTPException 400 "Auth0 user ID (sub) is required from token.")
  else
    db ← get_db;
    match user_by_auth0_id (sub payload) db with
    | None => raise (HTTPException 404 "Requesting user not found in database.")
    | Some requesting_user_doc =>
        let requesting_user_internal_id := user_id_ requesting_user_doc in
        match team_by_id team_id_ db with
        | None => raise (HTTPException 404 "Team not found")
        | Some team =>
            match organization_by_id (organization_id team) db with
            | None => raise (HTTPException 404 "Parent organization not found for team")
            | Some organization =>
                let is_org_owner_or_admin :=
                  bool_decide (owner_id organization = requesting_user_internal_id)
                  || any_member requesting_user_internal_id [ADMIN]
                       (members organization) in
                let is_team_admin :=
                  any_member requesting_user_internal_id [ADMIN] (team_members team) in
                if negb (is_org_owner_or_admin || is_team_admin) then
                  raise (HTTPException 403
                           "User does not have permission to add members to this team.")
                else
                  match user_by_id (tm_user_id member_data) db with
                  | None => raise (HTTPException 404 "User to be added not found.")
                  | Some user_to_add_doc =>
                      let is_user_in_org :=
                        bool_decide (owner_id organization = tm_user_id member_data)
                        || is_member (tm_user_id member_data) (members organization) in
                      if negb is_user_in_org then
                        raise (HTTPException 400
                                 "User is not a member of the parent organization.")
                      else if is_member (tm_user_id member_data) (team_members team) then
                        raise (HTTPException 409
                                 "User is already a member of this team.")
                      else
                        let new_team_member :=
                          {| user_id := tm_user_id member_data;
                             role := tm_role member_data |} in
                        update_result ←
                          update_team_doc (λ t, bool_decide (team_id t = team_id_))
                            (λ t, set_team_updated_at utcnow
                                    (set_team_members
                                       (team_members t ++ [new_team_member]) t));
                        if bool_decide (modified_count update_result = 0%nat) then
                          raise (HTTPException 500 "Failed to add member to team.")
                        else
                          db ← get_db;
                          match team_by_id team_id_ db with
                          | None =>
                              raise (HTTPException 500
                                       "Failed to retrieve team after adding member.")
                          | Some updated_team_doc => mret updated_team_doc
                          end
                  end
            end
        end
    end.

Definition remove_team_member (utcnow : datetime) (team_id_ : PyObjectId)
    (user_id_to_remove : PyObjectId) (payload : TokenPayload) : M Team :=
  if negb (truthy (sub payload)) then
    raise (HTTPException 400 "Auth0 user ID (sub) is required from token.")
  else
    db ← get_db;
    match user_by_auth0_id (sub payload) db with
    | None => raise (HTTPException 404 "Requesting user not found in database.")
    | Some requesting_user_doc =>
        let requesting_user_internal_id := user_id_ requesting_user_doc in
        match team_by_id team_id_ db with
        | None => raise (HTTPException 404 "Team not found")
        | Some team =>
            match organization_by_id (organization_id team) db with
            | None => raise (HTTPException 500 "Parent organization for team not found.")
            | Some organization =>
                let is_org_owner_or_admin :=
                  bool_decide (owner_id organization = requesting_user_internal_id)
                  || any_member requesting_user_internal_id [ADMIN]
                       (members organization) in
                let is_team_admin_requesting :=
                  any_member requesting_user_internal_id [ADMIN] (team_members team) in
                if negb (is_org_owner_or_admin || is_team_admin_requesting) then
                  raise (HTTPException 403
                           "User does not have permission to remove members from this team.")
                else
                  match find_one (λ m, bool_decide (user_id m = user_id_to_remove))
                                 (team_members team) with
                  | None =>
                      raise (HTTPException 404 "User is not a member of this team.")
                  | Some member_to_remove_info =>
                      if bool_decide (user_id_to_remove = requesting_user_internal_id)
                         && bool_decide (role member_to_remove_info = ADMIN)
                         && (num_admins (team_members team) <=? 1)%nat then
                        raise (HTTPException 400
                                 "Cannot remove the only admin from the team. Assign another admin first or delete the team.")
                      else if negb is_org_owner_or_admin
                              && is_team_admin_requesting
                              && bool_decide (role member_to_remove_info = ADMIN)
                              && bool_decide (user_id_to_remove
                                              ≠ requesting_user_internal_id) then
                        raise (HTTPException 403
                                 "Team admins cannot remove other team admins. This requires organization level admin rights.")
                      else
                        update_result ←
                          update_team_doc (λ t, bool_decide (team_id t = team_id_))
                            (λ t, set_team_updated_at utcnow
                                    (set_team_members
                                       (pull_member user_id_to_remove (team_members t)) t));
                        if bool_decide (modified_count update_result = 0%nat) then
                          raise (HTTPException 500
                                   "Failed to remove member. Member might not have been found or no change made.")
                        else
                          db ← get_db;
                          match team_by_id team_id_ db with
                          | None =>
                              raise (HTTPException 500
                                       "Failed to retrieve team after removing member.")
                          | Some updated_team_doc => mret updated_team_doc
                          end
                  end
            end
        end
    end.

End Teams.

(** ** [services.py] *)

Module Services.

(** Modelled from the spec: the request model [ServiceUpdate] of [app.domain]
    is not in the sources; a client may set the name and the status. *)
Record ServiceUpdate := {
  su_name : option string;
  su_status : option ServiceStatusEnum
}.

Definition service_by_id (id : PyObjectId) (db : Database) : option Service :=
  find_one (λ s, bool_decide (service_id_ s = id)) (services db).

(** The organization when the user is its owner or one of its members.  A
    [User] always has an id here, so the guard [if not user.id] never fires. *)
Definition get_organization_if_member (org_id_ : PyObjectId) (user : User)
    : M Organization :=
  except_reraise
    (db ← get_db;
     match find_one (λ o, bool_decide (org_id o = org_id_)
                          && (bool_decide (owner_id o = user_id_ user)
                              || Organizations.is_member (user_id_ user) (members o)))
                    (organizations db) with
     | Some org_doc => mret org_doc
     | None =>
         match Organizations.organization_by_id org_id_ db with
         | None => raise (HTTPException 404 "Organization not found.")
         | Some _ => raise (HTTPException 403 "User not authorized for organization.")
         end
     end)
    "An internal error occurred while verifying organization membership".

(** The update document: [$push] of a history entry, [$set] of the fields of
    the payload and of [updated_at]. *)
Definition apply_service_update (push : option ServiceStatusHistory)
    (u : ServiceUpdate) (now : datetime) (s : Service) : Service :=
  {| service_id_ := service_id_ s;
     service_org_id := service_org_id s;
     service_name := default (service_name s) (su_name u);
     status := default (status s) (su_status u);
     status_history :=
       match push with
       | Some history_entry => status_history s ++ [history_entry]
       | None => status_history s
       end;
     service_created_at := service_created_at s;
     service_updated_at := now |}.

(** The two instants are those of the two calls of
    [datetime.now(timezone.utc)].  The e-mails to the subscribers and the
    broadcast of the updated service go to the notification sinks and leave the
    database as it is. *)
Definition update_service (now_entry now_update : datetime) (service_id : PyObjectId)
    (service_update : ServiceUpdate) (current_user : User) : M Service :=
  except_reraise
    (db ← get_db;
     match service_by_id service_id db with
     | None => raise (HTTPException 404 "Service not found.")
     | Some existing_service =>
         get_organization_if_member (service_org_id existing_service) current_user;;
         let no_update_data :=
           bool_decide (su_name service_update = None)
           && bool_decide (su_status service_update = None) in
         if no_update_data then mret existing_service
         else
           let push :=
             match su_status service_update with
             | Some new =>
                 if bool_decide (new ≠ status existing_service) then
                   Some {| old_status := Some (status existing_service);
                           new_status := new;
                           timestamp := now_entry |}
                 else None
             | None => None
             end in
           db ← get_db;
           put_db (set_services
                     (update_first (λ s, bool_decide (service_id_ s = service_id))
                        (apply_service_update push service_update now_update)
                        (services db)) db);;
           db ← get_db;
           match service_by_id service_id db with
           | None => raise (HTTPException 404 "Service not found after update.")
           | Some final_service => mret final_service
           end
     end)
    "An unexpected error occurred during service update".

End Services.

(** ** The uptime computation as the specification words it

    These definitions follow the description of the algorithm (timeline,
    intervals, accumulators, percentage); the properties below compare them
    with the code of [get_service_uptime]. *)

Module UptimeSpec.
Import Public.

Definition Zsum (l : list Z) : Z := foldr Z.add 0 l.

(** The status of the interval that starts at an event: an unparseable or
    missing status counts as Operational. *)
Definition interval_status (e : StatusEvent) : ServiceStatusEnum :=
  match ev_status e with
  | Value s => s
  | _ => OPERATIONAL
  end.

(** Optional carry-in event, then the in-window events; when there is no
    event at all, one event at the start of the window with the live status;
    then the terminal event at the end of the window. *)
Definition timeline (service : PyObjectId) (live : ServiceStatusEnum)
    (window_start window_end : datetime)
    (carry_in : option StatusEvent) (in_window : list StatusEvent) : list StatusEvent :=
  let real :=
    match option_list carry_in ++ in_window with
    | [] => [ {| ev_service_id := service; ev_status := Value live;
                 ev_timestamp := window_start |} ]
    | l => l
    end in
  real ++ [ {| ev_service_id := service;
               ev_status := from_option ev_status Absent (last real);
               ev_timestamp := window_end |} ].

(** One interval for each pair of consecutive events: the status of its
    first event and the time between the two. *)
Fixpoint intervals (tl : list StatusEvent) : list (ServiceStatusEnum * timedelta) :=
  match tl with
  | a :: (b :: _) as rest =>
      (interval_status a, ev_timestamp b - ev_timestamp a) :: intervals rest
  | _ => []
  end.

Definition is_up (s : ServiceStatusEnum) : Prop :=
  s = OPERATIONAL ∨ s = DEGRADED_PERFORMANCE.

Global Instance is_up_dec s : Decision (is_up s).
Proof. unfold is_up. apply _. Defined.

(** Maintenance intervals are left out; every other interval counts. *)
Definition totalDuration (ivs : list (ServiceStatusEnum * timedelta)) : timedelta :=
  Zsum (snd <$> filter (λ iv, iv.1 ≠ MAINTENANCE) ivs).

(** The intervals whose status is up. *)
Definition upDuration (ivs : list (ServiceStatusEnum * timedelta)) : timedelta :=
  Zsum (snd <$> filter (λ iv, is_up iv.1) ivs).

(** What one interval adds to the pair [(upDuration, totalDuration)]. *)
Definition add_interval (acc : timedelta * timedelta)
    (iv : ServiceStatusEnum * timedelta) : timedelta * timedelta :=
  (acc.1 + (if decide (is_up iv.1) then iv.2 else 0),
   acc.2 + (if decide (iv.1 ≠ MAINTENANCE) then iv.2 else 0)).

(** [r] is [q] rounded to 4 decimal places: the float next to a decimal
    [k / 10^4] that is at most half a unit of the fourth place away from [q].
    With a [slack], the decimal may be that much further away. *)
Definition rounded4 (slack q r : Q) : Prop :=
  ∃ k : Z, (r == Float.fl (k # 10000))%Q
           ∧ (q - (1 # 20000) - slack <= k # 10000)%Q
           ∧ (k # 10000 <= q + (1 # 20000) + slack)%Q.

(** [r] is the overall uptime percentage of the intervals [ivs]. *)
Definition overallUptimePercentage (slack : Q) (live : ServiceStatusEnum)
    (ivs : list (ServiceStatusEnum * timedelta)) (r : Q) : Prop :=
  if decide (0 < totalDuration ivs)
  then rounded4 slack
         (100 * inject_Z (upDuration ivs) / inject_Z (totalDuration ivs))%Q r
  else (r == if decide (is_up live) then 100 else 0)%Q.

(** The in-window events of a service, in ascending order of timestamp. *)
Definition in_window_sorted (service : PyObjectId) (window_start window_end : datetime)
    (log in_window : list StatusEvent) : Prop :=
  in_window ≡ₚ filter (λ e, ev_service_id e = service
                            ∧ window_start ≤ ev_timestamp e ≤ window_end) log
  ∧ StronglySorted (λ a b, ev_timestamp a ≤ ev_timestamp b) in_window.

(** The carry-in event: a most recent event of the service before the
    window, when there is one. *)
Definition is_carry_in (service : PyObjectId) (window_start : datetime)
    (log : list StatusEvent) (carry_in : option StatusEvent) : Prop :=
  match carry_in with
  | Some c =>
      c ∈ log ∧ ev_service_id c = service ∧ ev_timestamp c < window_start
      ∧ ∀ e, e ∈ log → ev_service_id e = service → ev_timestamp e < window_start →
             ev_timestamp e ≤ ev_timestamp c
  | None =>
      ∀ e, e ∈ log → ev_service_id e = service → ¬ ev_timestamp e < window_start
  end.

(** The worst status observed before the end of a day: at least as severe as
    the status of every event with a timestamp strictly before [day_end], and
    either Operational or the status of one of these events. *)
Definition is_worst_before (events : list StatusEvent) (day_end : datetime)
    (s : ServiceStatusEnum) : Prop :=
  (∀ e, e ∈ events → ev_timestamp e < day_end →
        severity_map (interval_status e) ≤ severity_map s)
  ∧ (s = OPERATIONAL
     ∨ ∃ e, e ∈ events ∧ ev_timestamp e < day_end ∧ interval_status e = s).

(** The scan of one day by [get_service_uptime], without its exceptions. *)
Definition worst_step (day_end : datetime) (acc : ServiceStatusEnum * Z)
    (event : StatusEvent) : ServiceStatusEnum * Z :=
  if ev_timestamp event <? day_end then
    if acc.2 <? severity_map (interval_status event)
    then (interval_status event, severity_map (interval_status event))
    else acc
  else acc.

Definition running_worst (events : list StatusEvent) (day_end : datetime)
    : ServiceStatusEnum * Z :=
  foldl (worst_step day_end) (OPERATIONAL, 0) events.

(** The day buckets of the window: bucket [n] starts [n] days after the start
    of the window and lasts one day. *)
Definition bucket_start (window_start : datetime) (n : Z) : datetime :=
  window_start + days n.
Definition bucket_end (window_start : datetime) (n : Z) : datetime :=
  window_start + days (n + 1).

(** Severities do not decrease along a list of daily statuses. *)
Definition severity_nondecreasing (l : list DailyUptimeStatus) : Prop :=
  ∀ i j a b, l !! i = Some a → l !! j = Some b → (i ≤ j)%nat →
             severity_map (du_status a) ≤ severity_map (du_status b).

(** Named parts of [get_service_uptime]: its four queries. *)
Definition org_by_slug (slug_ : string) (db : Database) : option Organization :=
  find_one (λ o, bool_decide (slug o = slug_)) (organizations db).

Definition service_of_org (sid : PyObjectId) (org : Organization) (db : Database)
    : option Service :=
  find_one (λ s, bool_decide (service_id_ s = sid)
                 && bool_decide (service_org_id s = org_id org)) (services db).

Definition history_query (sid : PyObjectId) (utcnow : datetime) (db : Database)
    : list StatusEvent :=
  sort_by ev_timestamp
    (find (λ e, bool_decide (ev_service_id e = sid)
                && (utcnow - days 90 <=? ev_timestamp e)
                && (ev_timestamp e <=? utcnow))
          (service_status_history db)).

Definition initial_query (sid : PyObjectId) (utcnow : datetime) (db : Database)
    : list StatusEvent :=
  take 1 (sort_by (λ e, - ev_timestamp e)
            (find (λ e, bool_decide (ev_service_id e = sid)
                        && (ev_timestamp e <? utcnow - days 90))
                  (service_status_history db))).

(** The events [get_service_uptime] works on, once both queries are done. *)
Definition events_of (sid : PyObjectId) (svc : Service) (utcnow : datetime)
    (db : Database) : list StatusEvent :=
  timeline sid (status svc) (utcnow - days 90) utcnow
    (head (initial_query sid utcnow db)) (history_query sid utcnow db).

(** A log in which every event of the service has a status the enum accepts. *)
Definition has_status (e : StatusEvent) : Prop := ∃ s, ev_status e = Value s.

Definition well_formed_log (sid : PyObjectId) (log : list StatusEvent) : Prop :=
  ∀ e, e ∈ log → ev_service_id e = sid → has_status e.

(** What [daily_summary] returns, entry by entry: the dates from [D - 90] to
    [D], where [D] is the date of the end of the window; before [D] the
    running worst at the end of the bucket, at [D] the status [init] of the
    first event. *)
Definition daily_entries (window_start window_end : datetime)
    (events : list StatusEvent) (init : ServiceStatusEnum) : list DailyUptimeStatus :=
  let D := date_of window_end in
  (λ x : Z,
     {| du_date := x;
        du_status :=
          if bool_decide (x < D)
          then (running_worst events (bucket_end window_start (x - (D - 90)))).1
          else init |}) <$> seqZ (D - 90) 91.

End UptimeSpec.

(** ** A concrete status page

    Three users and two organizations.  Acme has one service, created twenty
    days before the query with status Operational, which went to Major Outage
    ten days later; the query is made one hour after midnight. *)

Module Scenario.
Import Public UptimeSpec.

Definition utcnow : datetime := days 20000 + 3600000000.

Definition acme : Organization :=
  {| org_id := 1; org_name := "Acme"; logo_url := None; slug := "acme"; owner_id := 10;
     members := [ {| user_id := 10; role := ADMIN |};
                  {| user_id := 11; role := MEMBER |};
                  {| user_id := 12; role := MEMBER |} ];
     org_created_at := 0; org_updated_at := 0 |}.

Definition api : Service :=
  {| service_id_ := 7; service_org_id := 1; service_name := "api";
     status := MAJOR_OUTAGE; status_history := [];
     service_created_at := utcnow - days 20; service_updated_at := utcnow - days 10 |}.

Definition created : StatusEvent :=
  {| ev_service_id := 7; ev_status := Value OPERATIONAL;
     ev_timestamp := utcnow - days 20 |}.

Definition outage : StatusEvent :=
  {| ev_service_id := 7; ev_status := Value MAJOR_OUTAGE;
     ev_timestamp := utcnow - days 10 |}.

Definition alice : User :=
  {| user_id_ := 10; auth0_id := "auth0|alice"; email := "alice@acme.io";
     user_name := Some "Alice"; picture := None;
     user_created_at := 0; user_updated_at := 0 |}.

Definition bob : User :=
  {| user_id_ := 11; auth0_id := "auth0|bob"; email := "bob@acme.io";
     user_name := Some "Bob"; picture := None;
     user_created_at := 0; user_updated_at := 0 |}.

Definition carol : User :=
  {| user_id_ := 12; auth0_id := "auth0|carol"; email := "carol@acme.io";
     user_name := Some "Carol"; picture := None;
     user_created_at := 0; user_updated_at := 0 |}.

Definition token (u : User) : Organizations.TokenPayload :=
  {| Organizations.sub := Some (auth0_id u);
     Organizations.tp_email := Some (email u);
     Organizations.tp_name := user_name u;
     Organizations.tp_picture := picture u |}.

(** An organization whose owner, Carol, is not listed among its members. *)
Definition legacy : Organization :=
  {| org_id := 2; org_name := "Legacy"; logo_url := None; slug := "legacy";
     owner_id := 12;
     members := [ {| user_id := 10; role := ADMIN |} ];
     org_created_at := 0; org_updated_at := 0 |}.

(** A team of Acme whose only admin is Bob. *)
Definition sre : Team :=
  {| team_id := 3; organization_id := 1; team_name := "SRE";
     team_description := None;
     team_members := [ {| user_id := 11; role := ADMIN |} ];
     team_created_at := 0; team_updated_at := 0 |}.

Definition dan : Subscriber := {| sub_email := "dan@example.org"; sub_org_id := 1 |}.

Definition db : Database :=
  {| users := [alice; bob; carol]; organizations := [acme; legacy]; teams := [sre];
     services := [api]; subscribers := [dan];
     service_status_history := [created; outage] |}.

(** The same service, created 2486434.31919 seconds before a query and in
    Major Outage from 528843.445 seconds later on. *)
Definition utcnow_late : datetime := days 20000 + 3600000190.

Definition created_late : StatusEvent :=
  {| ev_service_id := 7; ev_status := Value OPERATIONAL;
     ev_timestamp := utcnow_late - 2486434319190 |}.

Definition outage_late : StatusEvent :=
  {| ev_service_id := 7; ev_status := Value MAJOR_OUTAGE;
     ev_timestamp := utcnow_late - 2486434319190 + 528843445000 |}.

Definition db_late : Database :=
  {| users := [alice; bob; carol]; organizations := [acme; legacy]; teams := [sre];
     services := [api]; subscribers := [dan];
     service_status_history := [created_late; outage_late] |}.

(** The same status page with an empty event log. *)
Definition db_no_history : Database :=
  {| users := [alice; bob; carol]; organizations := [acme; legacy]; teams := [sre];
     services := [api]; subscribers := [dan];
     service_status_history := [] |}.

End Scenario.
(** ** [organizations.py]: the other endpoints *)

Module OrganizationsAdmin.
Import Organizations.

(** [db.organizations.delete_one({"_id": id})]: the first document with this
    id is deleted. *)
Fixpoint delete_first {A} (p : A → bool) (c : list A) : list A :=
  match c with
  | [] => []
  | d :: c => if p d then c else d :: delete_first p c
  end.

Definition delete_organization (org_id_ : PyObjectId) (payload : TokenPayload) : M unit :=
  db ← get_db;
  let deleted_count :=
    match organization_by_id org_id_ db with
    | Some _ => 1%nat
    | None => 0%nat
    end in
  put_db (set_organizations
            (delete_first (λ o, bool_decide (org_id o = org_id_)) (organizations db)) db);;
  if bool_decide (deleted_count = 0%nat) then
    raise (HTTPException 404 "Organization not found")
  else mret ().

(** [db.organizations.find_one({"slug": slug, "_id": {"$ne": id}})] is not
    [None]. *)
Definition slug_taken_by_other (s : string) (id : PyObjectId) (orgs : list Organization)
    : bool :=
  bool_decide (is_Some (find_one (λ o, bool_decide (slug o = s)
                                       && bool_decide (org_id o ≠ id)) orgs)).

(** The [while] loop of the slug backfill in [list_organizations]. *)
Fixpoint backfill_loop (fuel : nat) (base_slug slug_ : string) (counter : nat)
    (id : PyObjectId) (orgs : list Organization) : option string :=
  if slug_taken_by_other slug_ id orgs then
    match fuel with
    | O => None
    | S fuel =>
        backfill_loop fuel base_slug (base_slug +:+ "-" +:+ pretty counter) (S counter)
          id orgs
    end
  else Some slug_.

Definition backfill_slug (base_slug : string) (id : PyObjectId)
    (orgs : list Organization) : string :=
  default base_slug (backfill_loop (length orgs) base_slug base_slug 1 id orgs).

Definition set_slug (s : string) (o : Organization) : Organization :=
  {| org_id := org_id o; org_name := org_name o; logo_url := logo_url o;
     slug := s; owner_id := owner_id o; members := members o;
     org_created_at := org_created_at o; org_updated_at := org_updated_at o |}.

(** The body of the loop over the documents: a document without slug gets
    one, in the database and in the response. *)
Definition backfill (utcnow : datetime) (updated_orgs : list Organization)
    (doc : Organization) : M (list Organization) :=
  if bool_decide (slug doc = "") then
    db ← get_db;
    let slug_ := backfill_slug (slugify (org_name doc)) (org_id doc) (organizations db) in
    update_organization_doc (λ o, bool_decide (org_id o = org_id doc))
      (λ o, set_org_updated_at utcnow (set_slug slug_ o));;
    mret (updated_orgs ++ [set_slug slug_ doc])
  else mret (updated_orgs ++ [doc]).

(** A [for] loop whose body reads and writes the database. *)
Fixpoint for_each {A B} (f : B → A → M B) (b : B) (l : list A) : M B :=
  match l with
  | [] => mret b
  | x :: l => b' ← f b x; for_each f b' l
  end.

Definition list_organizations (utcnow : datetime) (payload : TokenPayload)
    : M (list Organization) :=
  if negb (truthy (sub payload)) then
    raise (HTTPException 400 "Auth0 user ID (sub) is required from token.")
  else
    db ← get_db;
    match user_by_auth0_id (sub payload) db with
    | None => mret []
    | Some user_doc =>
        let user_internal_id := user_id_ user_doc in
        let organizations_docs :=
          take 100 (find (λ o, is_member user_internal_id (members o))
                      (organizations db)) in
        for_each (backfill utcnow) [] organizations_docs
    end.

(** What the response of [list_organizations] holds for a document: the
    document itself, but for the slug that was missing. *)
Definition listed (o doc : Organization) : Prop :=
  org_id o = org_id doc ∧ org_name o = org_name doc ∧ owner_id o = owner_id doc
  ∧ members o = members doc ∧ (slug doc ≠ "" → o = doc).

(** The organizations keep unique ids and unique slugs, every member list
    holds a user at most once, and the owner is listed as an ADMIN member. *)
Definition owner_listed (o : Organization) : Prop :=
  any_member (owner_id o) [ADMIN] (members o) = true.

Record organizations_wf (db : Database) : Prop := {
  wf_org_ids : NoDup (org_id <$> organizations db);
  wf_slugs : NoDup (slug <$> organizations db);
  wf_member_ids : Forall (λ o, NoDup (user_id <$> members o)) (organizations db);
  wf_owner_listed : Forall owner_listed (organizations db)
}.

(** The calls of the organization endpoints. *)
Inductive OrganizationCall :=
  | CreateOrganization (valid_user : bool) (utcnow : datetime)
      (org_in : OrganizationCreate)
  | ListOrganizations (utcnow : datetime)
  | UpdateOrganization (utcnow : datetime) (org_id_ : PyObjectId)
      (org_in : OrganizationUpdate)
  | DeleteOrganization (org_id_ : PyObjectId)
  | AddOrganizationMember (utcnow : datetime) (org_id_ : PyObjectId)
      (member_data : OrganizationMemberAdd)
  | RemoveOrganizationMember (org_id_ : PyObjectId) (user_id_to_remove : PyObjectId)
  | UpdateOrganizationMemberRole (utcnow : datetime) (org_id_ : PyObjectId)
      (user_id_to_update : PyObjectId) (role_data : UserRoleEnum).

(** The database after a call. *)
Definition after (c : OrganizationCall) (payload : TokenPayload) (db : Database)
    : Database :=
  match c with
  | CreateOrganization valid_user utcnow org_in =>
      (create_organization valid_user utcnow org_in payload db).2
  | ListOrganizations utcnow => (list_organizations utcnow payload db).2
  | UpdateOrganization utcnow id org_in => (update_organization utcnow id org_in payload db).2
  | DeleteOrganization id => (delete_organization id payload db).2
  | AddOrganizationMember utcnow id member_data =>
      (add_organization_member utcnow id member_data payload db).2
  | RemoveOrganizationMember id uid => (remove_organization_member id uid payload db).2
  | UpdateOrganizationMemberRole utcnow id uid r =>
      (update_organization_member_role utcnow id uid r payload db).2
  end.

(** The databases that the calls of the organization endpoints produce from
    one without organizations, together with any other writes that leave the
    collection of the organizations as it is, as those of the other
    endpoints do. *)
Definition empty_db : Database :=
  {| users := []; organizations := []; teams := []; services := [];
     subscribers := []; service_status_history := [] |}.

Inductive reachable : Database → Prop :=
  | reachable_init db : organizations db = [] → reachable db
  | reachable_call db c payload :
      reachable db → reachable (after c payload db)
  | reachable_other db db' :
      reachable db → organizations db' = organizations db → reachable db'.

End OrganizationsAdmin.

(** ** Further databases for the examples *)

Module Cases.
Import Scenario.

(** The status page of Acme alone; its owner Alice is listed as an admin. *)
Definition acme_db : Database :=
  {| users := [alice; bob; carol]; organizations := [acme]; teams := [sre];
     services := [api]; subscribers := [dan];
     service_status_history := [created; outage] |}.

(** Acme when Alice had just created it. *)
Definition acme_created : Organization :=
  {| org_id := 1; org_name := "Acme"; logo_url := None; slug := "acme"; owner_id := 10;
     members := [ {| user_id := 10; role := ADMIN |} ];
     org_created_at := 0; org_updated_at := 0 |}.

Definition acme_created_db : Database :=
  {| users := [alice; bob; carol]; organizations := [acme_created]; teams := [];
     services := []; subscribers := []; service_status_history := [] |}.

(** An event whose [status] is not a value of the enum. *)
Definition garbled : StatusEvent :=
  {| ev_service_id := 7; ev_status := Malformed; ev_timestamp := utcnow - days 20 |}.

(** The log of the status page starts with the garbled event. *)
Definition db_garbled : Database :=
  {| users := [alice; bob; carol]; organizations := [acme; legacy]; teams := [sre];
     services := [api]; subscribers := [dan];
     service_status_history := [garbled; outage] |}.

End Cases.

(** ** [teams.py]: the other endpoints *)

Module TeamsAdmin.
Import Organizations Teams OrganizationsAdmin.

(** Modelled from the spec: the request model [TeamCreate] of [app.domain] is
    not in the sources; [create_team] reads its [organization_id]. *)
Record TeamCreate := {
  tc_name : string;
  tc_description : option string;
  tc_organization_id : PyObjectId
}.

(** The user of the token is found or created by the same lines as in
    [create_organization], the 400 for the data of a new user that the model
    [User] refuses included; the test [if not current_user_id] after the
    insertion never fires, the id of an inserted document being truthy.  The
    instants are those of the calls of [datetime.utcnow()] for [created_at]
    and [updated_at]. *)
Definition create_team (valid_user : bool) (now_created now_updated utcnow : datetime)
    (team_in : TeamCreate) (payload : TokenPayload) : M Team :=
  if negb (truthy (sub payload)) || negb (truthy (tp_email payload)) then
    raise (HTTPException 400 "Auth0 user ID (sub) and email are required from token.")
  else
    current_user_id ← find_or_create_user valid_user utcnow payload;
    db ← get_db;
    let initial_member := {| user_id := current_user_id; role := ADMIN |} in
    let inserted_id := fresh_id (team_id <$> teams db) in
    let team_dict :=
      {| team_id := inserted_id;
         organization_id := tc_organization_id team_in;
         team_name := tc_name team_in;
         team_description := tc_description team_in;
         team_members := [initial_member];
         team_created_at := now_created;
         team_updated_at := now_updated |} in
    put_db (set_teams (teams db ++ [team_dict]) db);;
    db ← get_db;
    match team_by_id inserted_id db with
    | Some created_team_doc => mret created_team_doc
    | None => raise (HTTPException 500 "Failed to create team")
    end.

Definition get_team (team_id_ : PyObjectId) (payload : TokenPayload) : M Team :=
  db ← get_db;
  match team_by_id team_id_ db with
  | Some team_doc => mret team_doc
  | None => raise (HTTPException 404 "Team not found")
  end.

Definition delete_team (team_id_ : PyObjectId) (payload : TokenPayload) : M unit :=
  db ← get_db;
  let deleted_count :=
    match team_by_id team_id_ db with
    | Some _ => 1%nat
    | None => 0%nat
    end in
  put_db (set_teams (delete_first (λ t, bool_decide (team_id t = team_id_)) (teams db)) db);;
  if bool_decide (deleted_count = 0%nat) then
    raise (HTTPException 404 "Team not found")
  else mret ().

Definition set_role (r : UserRoleEnum) (m : Member) : Member :=
  {| user_id := user_id m; role := r |}.

(** The loop over [enumerate(team.members)] is [list_find]: the index and the
    member of the first entry with the id.  The update sets the role at this
    index in the first team with the id that lists the user. *)
Definition update_team_member_role (utcnow : datetime) (team_id_ : PyObjectId)
    (user_id_to_update : PyObjectId) (role_data : UserRoleEnum)
    (payload : TokenPayload) : M Team :=
  if negb (truthy (sub payload)) then
    raise (HTTPException 400 "Auth0 user ID (sub) is required from token.")
  else
    db ← get_db;
    match user_by_auth0_id (sub payload) db with
    | None => raise (HTTPException 404 "Requesting user not found in database.")
    | Some requesting_user_doc =>
        let requesting_user_internal_id := user_id_ requesting_user_doc in
        match team_by_id team_id_ db with
        | None => raise (HTTPException 404 "Team not found")
        | Some team =>
            match organization_by_id (organization_id team) db with
            | None => raise (HTTPException 500 "Parent organization for team not found.")
            | Some organization =>
                let is_org_owner_or_admin :=
                  bool_decide (owner_id organization = requesting_user_internal_id)
                  || any_member requesting_user_internal_id [ADMIN]
                       (members organization) in
                let is_team_admin_requesting :=
                  any_member requesting_user_internal_id [ADMIN] (team_members team) in
                if negb (is_org_owner_or_admin || is_team_admin_requesting) then
                  raise (HTTPException 403
                           "User does not have permission to update member roles in this team.")
                else if bool_decide (role_data = OWNER) then
                  raise (HTTPException 400
                           "Cannot assign 'owner' role at the team level. Ownership is an organization concept.")
                else
                  match list_find (λ m, user_id m = user_id_to_update)
                                  (team_members team) with
                  | None =>
                      raise (HTTPException 404 "User is not a member of this team.")
                  | Some (member_to_update_index, member) =>
                      let member_to_update_current_role := role member in
                      if negb is_org_owner_or_admin
                         && bool_decide (user_id_to_update
                                         = requesting_user_internal_id) then
                        raise (HTTPException 403
                                 "Team admins cannot change their own role. This requires organization level admin rights.")
                      else if negb is_org_owner_or_admin
                              && bool_decide (member_to_update_current_role = ADMIN) then
                        raise (HTTPException 403
                                 "Team admins cannot change the role of other team admins. This requires organization level admin rights.")
                      else
                        update_result ←
                          update_team_doc
                            (λ t, bool_decide (team_id t = team_id_)
                                  && is_member user_id_to_update (team_members t))
                            (λ t, set_team_updated_at utcnow
                                    (set_team_members
                                       (alter (set_role role_data)
                                          member_to_update_index (team_members t)) t));
                        if bool_decide (matched_count update_result = 0%nat) then
                          raise (HTTPException 404
                                   "Member to update not found, or update failed.")
                        else
                          db ← get_db;
                          match team_by_id team_id_ db with
                          | None =>
                              raise (HTTPException 500
                                       "Failed to retrieve team after updating member role.")
                          | Some updated_team_doc => mret updated_team_doc
                          end
                  end
            end
        end
    end.

End TeamsAdmin.

(** ** [services.py]: the other endpoints *)

Module ServicesAdmin.
Import Organizations Services OrganizationsAdmin.

(** Modelled from the spec: the request model [ServiceCreate] of [app.domain]
    is not in the sources; [create_service] reads its [organization_id] and
    its [status], the status of the request or the default of the model. *)
Record ServiceCreate := {
  sc_name : string;
  sc_organization_id : PyObjectId;
  sc_status : ServiceStatusEnum
}.

(** [current_time] is the instant of [datetime.now(timezone.utc)].  The
    broadcast of the new service goes to the notification sink. *)
Definition create_service (current_time : datetime) (service_data : ServiceCreate)
    (current_user : User) : M Service :=
  except_reraise
    (get_organization_if_member (sc_organization_id service_data) current_user;;
     db ← get_db;
     let initial_history :=
       {| old_status := None; new_status := sc_status service_data;
          timestamp := current_time |} in
     let inserted_id := fresh_id (service_id_ <$> services db) in
     let new_service_dict :=
       {| service_id_ := inserted_id;
          service_org_id := sc_organization_id service_data;
          service_name := sc_name service_data;
          status := sc_status service_data;
          status_history := [initial_history];
          service_created_at := current_time;
          service_updated_at := current_time |} in
     put_db (set_services (services db ++ [new_service_dict]) db);;
     db ← get_db;
     match service_by_id inserted_id db with
     | Some created_service => mret created_service
     | None => raise (HTTPException 500 "Failed to create service.")
     end)
    "An unexpected error occurred during service creation".

(** Stable insertion sort by name, ascending in the binary order of strings:
    [cursor.sort("name", 1)]. *)
Fixpoint insert_by_name {A} (name : A → string) (x : A) (l : list A) : list A :=
  match l with
  | [] => [x]
  | y :: l' => if String.ltb (name x) (name y) then x :: l else y :: insert_by_name name x l'
  end.

Definition sort_by_name {A} (name : A → string) (l : list A) : list A :=
  foldl (λ acc x, insert_by_name name x acc) [] l.

(** [skip] and [limit] are the query parameters that FastAPI has validated
    ([skip >= 0], [1 <= limit <= 100]). *)
Definition list_services (organization_id : option PyObjectId) (skip limit : nat)
    (status_filter : option ServiceStatusEnum) (current_user : User)
    : M (list Service) :=
  let run (in_organizations : Service → bool) : M (list Service) :=
    db ← get_db;
    let query s :=
      in_organizations s
      && match status_filter with
         | Some st => bool_decide (status s = st)
         | None => true
         end in
    mret (take limit (drop skip (sort_by_name service_name (find query (services db)))))
  in
  except_reraise
    (match organization_id with
     | Some id =>
         get_organization_if_member id current_user;;
         run (λ s, bool_decide (service_org_id s = id))
     | None =>
         db ← get_db;
         let user_org_ids :=
           org_id <$> find (λ o, is_member (user_id_ current_user) (members o))
                        (organizations db) in
         if bool_decide (user_org_ids = []) then mret []
         else run (λ s, bool_decide (service_org_id s ∈ user_org_ids))
     end)
    "An unexpected error occurred while listing services".

(** A [Service] always has an organization id here, so the guard
    [if not org_id] of [get_service] and [delete_service] never fires. *)
Definition get_service (service_id : PyObjectId) (current_user : User) : M Service :=
  except_reraise
    (db ← get_db;
     match service_by_id service_id db with
     | None => raise (HTTPException 404 "Service not found.")
     | Some service_doc =>
         get_organization_if_member (service_org_id service_doc) current_user;;
         mret service_doc
     end)
    "An error occurred while fetching service".

(** A service that does not exist is deleted without a word. *)
Definition delete_service (service_id : PyObjectId) (current_user : User) : M unit :=
  except_reraise
    (db ← get_db;
     match service_by_id service_id db with
     | None => mret ()
     | Some service_to_delete =>
         get_organization_if_member (service_org_id service_to_delete) current_user;;
         db ← get_db;
         put_db (set_services
                   (delete_first (λ s, bool_decide (service_id_ s = service_id))
                      (services db)) db)
     end)
    "An unexpected error occurred during service deletion".

(** The history of a service is a chain: the first entry has no old status,
    every other entry starts from the status that the entry before it set,
    and the last entry has set the status of the service. *)
Fixpoint linked (previous : option ServiceStatusEnum) (history : list ServiceStatusHistory)
    (current : ServiceStatusEnum) : Prop :=
  match history with
  | [] => previous = Some current
  | entry :: history =>
      old_status entry = previous ∧ linked (Some (new_status entry)) history current
  end.

Definition history_linked (s : Service) : Prop :=
  linked None (status_history s) (status s).

(** The calls of the service endpoints that write. *)
Inductive ServiceCall :=
  | CreateService (current_time : datetime) (service_data : ServiceCreate)
  | UpdateService (now_entry now_update : datetime) (service_id : PyObjectId)
      (service_update : ServiceUpdate)
  | DeleteService (service_id : PyObjectId).

Definition after_service_call (c : ServiceCall) (current_user : User) (db : Database)
    : Database :=
  match c with
  | CreateService current_time service_data =>
      (create_service current_time service_data current_user db).2
  | UpdateService now_entry now_update service_id service_update =>
      (update_service now_entry now_update service_id service_update current_user db).2
  | DeleteService service_id => (delete_service service_id current_user db).2
  end.

(** The databases that the service endpoints produce from one without
    services, together with any other writes that leave the collection of the
    services as it is. *)
Inductive services_reachable : Database → Prop :=
  | services_reachable_init db : services db = [] → services_reachable db
  | services_reachable_call db c current_user :
      services_reachable db → services_reachable (after_service_call c current_user db)
  | services_reachable_other db db' :
      services_reachable db → services db' = services db → services_reachable db'.

End ServicesAdmin.

(** ** [public.py], [subscribers.py], [email_utils.py]: subscriptions *)

Module Subscriptions.
Import Public Organizations.

(** What a call of [send_email] ends in. *)
Inductive EmailError :=
  | TypeError (argument : string)
  | NameError (name : string)
  | MessageError.

Inductive Outcome :=
  | Sent
  | Failed (e : EmailError).

Definition send_email_parameters : list string := ["subject"; "recipients"; "body"].

(** [send_email(subject, recipients, body)] called with the given keywords.
    Python refuses a keyword that names no parameter, and a call that leaves
    a parameter without argument.  The body builds the [MessageSchema], which
    may refuse the message, and then evaluates [fm.send_message]: the module
    binds its [FastMail] instance to [f], and no name [fm]. *)
Definition send_email (message_accepted : bool) (keywords : list string) : Outcome :=
  match find_one (λ k, bool_decide (k ∉ send_email_parameters)) keywords with
  | Some k => Failed (TypeError k)
  | None =>
      match find_one (λ p, bool_decide (p ∉ keywords)) send_email_parameters with
      | Some p => Failed (TypeError p)
      | None => if message_accepted then Failed (NameError "fm") else Failed MessageError
      end
  end.

(** [try: c except Exception: raise HTTPException(500, detail)], where [c]
    writes to the database: an [HTTPException] of [c] is caught as well. *)
Definition except_Exception_500 {A} (c : M A) (detail : string) : M A := λ db,
  match c db with
  | (Raise _, db') => (Raise (HTTPException 500 detail), db')
  | r => r
  end.

Definition subscription (email_ : string) (id : PyObjectId) (s : Subscriber) : bool :=
  bool_decide (sub_email s = email_) && bool_decide (sub_org_id s = id).

Definition subscribe_to_updates (message_accepted : bool) (slug_ : string)
    (email_ : string) : M Response :=
  except_Exception_500
    (db ← get_db;
     match find_one (λ o, bool_decide (slug o = slug_)) (organizations db) with
     | None => raise (HTTPException 404 "Organization not found")
     | Some organization =>
         match find_one (subscription email_ (org_id organization)) (subscribers db) with
         | Some _ =>
             mret {| status_code := 201;
                     message := "You are already subscribed to updates for this organization." |}
         | None =>
             let subscriber :=
               {| sub_email := email_; sub_org_id := org_id organization |} in
             put_db (set_subscribers (subscribers db ++ [subscriber]) db);;
             match send_email message_accepted ["subject"; "recipient_to"; "body"] with
             | Failed email_error =>
                 mret {| status_code := 201;
                         message := "Subscription successful, but confirmation email could not be sent." |}
             | Sent =>
                 mret {| status_code := 201;
                         message := "You have been successfully subscribed. Please check your email for confirmation." |}
             end
         end
     end)
    "An internal error occurred while processing your subscription.".

(** [subscribers.py]: the insertion is refused by the unique index on
    [(email, organization_id)], which [main.py] creates at startup. *)
Definition subscribe_to_notifications (email_ : string) (organization_id_ : PyObjectId)
    : M Subscriber :=
  db ← get_db;
  match organization_by_id organization_id_ db with
  | None => raise (HTTPException 404 "Organization not found.")
  | Some organization =>
      let new_subscriber := {| sub_email := email_; sub_org_id := organization_id_ |} in
      match find_one (subscription email_ organization_id_) (subscribers db) with
      | Some _ =>
          raise (HTTPException 409
                   "This email is already subscribed to this organization's updates.")
      | None =>
          put_db (set_subscribers (subscribers db ++ [new_subscriber]) db);;
          mret new_subscriber
      end
  end.

(** The unique index: no two subscriptions of an address to an organization. *)
Definition subscribers_unique (db : Database) : Prop :=
  NoDup ((λ s, (sub_email s, sub_org_id s)) <$> subscribers db).

End Subscriptions.

(** ** The shape of a slug *)

Module Slugs.
Import Organizations.

(** The characters of a slug: lower-case letters, digits and the dash; a dash
    is never next to a dash.  [after_dash] tells that the character before
    the string is a dash. *)
Fixpoint clean (after_dash : bool) (s : string) : bool :=
  match s with
  | EmptyString => true
  | String c s =>
      if is_slug_char c then clean false s
      else bool_decide (c = "-"%char) && negb after_dash && clean true s
  end.

(** ... and no dash at either end. *)
Definition slug_shaped (s : string) : Prop :=
  clean false s = true ∧ lstrip_dash s = s ∧ rstrip_dash s = s.

(** The first of the candidates [base], [base-1], [base-2], ... that no
    organization has as its slug. *)
Definition first_free_candidate (base_slug : string) (orgs : list Organization)
    (s : string) : Prop :=
  ∃ k : nat,
    s = slug_candidate base_slug k
    ∧ (s ∉ slug <$> orgs)
    ∧ ∀ j : nat, (j < k)%nat → slug_candidate base_slug j ∈ slug <$> orgs.

End Slugs.

(** * Properties *)

Section sort_by.
Context {A : Type} (key : A → Z).

Definition key_le (a b : A) : Prop := key a ≤ key b.

Lemma insert_by_Permutation x l : insert_by key x l ≡ₚ x :: l.
Proof.
  induction l as [|y l IH]; simpl; [done|].
  destruct (key x <? key y); [done|].
  rewrite IH. apply Permutation_swap.
Qed.

Lemma foldl_insert_by_Permutation acc l :
  foldl (λ acc x, insert_by key x acc) acc l ≡ₚ acc ++ l.
Proof.
  revert acc. induction l as [|x l IH]; intros acc; simpl.
  - by rewrite app_nil_r.
  - rewrite IH, insert_by_Permutation.
    simpl. apply Permutation_middle.
Qed.

Lemma sort_by_Permutation l : sort_by key l ≡ₚ l.
Proof. unfold sort_by. by rewrite foldl_insert_by_Permutation. Qed.

Lemma insert_by_StronglySorted x l :
  StronglySorted key_le l → StronglySorted key_le (insert_by key x l).
Proof.
  induction 1 as [|y l Hl IH Hy]; simpl.
  - repeat constructor.
  - destruct (Z.ltb_spec (key x) (key y)) as [Hlt|Hge].
    + constructor; [by constructor|].
      constructor; [unfold key_le; lia|].
      eapply Forall_impl; [exact Hy|]. unfold key_le. intros; simpl in *; lia.
    + constructor; [done|].
      rewrite insert_by_Permutation. by constructor.
Qed.

Lemma sort_by_StronglySorted l : StronglySorted key_le (sort_by key l).
Proof.
  unfold sort_by. generalize (SSorted_nil key_le).
  generalize (@nil A). induction l as [|x l IH]; intros acc Hacc; simpl; [done|].
  apply IH. by apply insert_by_StronglySorted.
Qed.

Lemma length_sort_by l : length (sort_by key l) = length l.
Proof. by rewrite sort_by_Permutation. Qed.

Lemma sort_by_nil_inv l : sort_by key l = [] → l = [].
Proof.
  intros H. apply Permutation_nil_r. by rewrite <-H, sort_by_Permutation.
Qed.
End sort_by.

(** ** Rounding to the next float *)

Section float.
Import Float.
Local Open Scope Q_scope.

Ltac Qcompare_order H :=
  match type of H with
  | (?p ?= ?q) = Eq => apply (proj2 (Qeq_alt p q)) in H
  | (?p ?= ?q) = Lt => apply (proj2 (Qlt_alt p q)) in H
  | (?p ?= ?q) = Gt => apply (proj2 (Qgt_alt p q)) in H
  end.

Lemma pow2_pos e : 0 < pow2 e.
Proof. apply Qpower_0_lt. reflexivity. Qed.

Lemma pow2_add a b : pow2 (a + b) == pow2 a * pow2 b.
Proof. unfold pow2. apply Qpower_plus. discriminate. Qed.

Lemma pow2_inject_Z e : (0 <= e)%Z → pow2 e == inject_Z (2 ^ e).
Proof. intros He. unfold pow2. by rewrite Zpower_Qpower. Qed.

Lemma pow2_le a b : (a <= b)%Z → pow2 a <= pow2 b.
Proof.
  intros Hab. replace b with (a + (b - a))%Z by lia.
  rewrite pow2_add, (pow2_inject_Z (b - a)) by lia.
  assert (1 <= inject_Z (2 ^ (b - a))) as H1.
  { change 1 with (inject_Z 1). rewrite <- Zle_Qle.
    pose proof (Z.pow_pos_nonneg 2 (b - a)). lia. }
  pose proof (pow2_pos a). nra.
Qed.

Lemma pow2_lt a b : (a < b)%Z → pow2 a < pow2 b.
Proof.
  intros Hab. replace b with (a + (b - a))%Z by lia.
  rewrite pow2_add, (pow2_inject_Z (b - a)) by lia.
  assert (2 <= inject_Z (2 ^ (b - a))) as H1.
  { change 2 with (inject_Z 2). rewrite <- Zle_Qle.
    replace (b - a)%Z with (1 + (b - a - 1))%Z by lia.
    rewrite Z.pow_add_r by lia.
    pose proof (Z.pow_pos_nonneg 2 (b - a - 1)). lia. }
  pose proof (pow2_pos a). nra.
Qed.

Lemma pow2_lt_inv a b : pow2 a < pow2 b → (a < b)%Z.
Proof.
  intros Hab. destruct (Z_lt_le_dec a b) as [|Hba]; [done|].
  apply pow2_le in Hba. lra.
Qed.

Lemma round_half_even_Qeq q1 q2 : q1 == q2 → round_half_even q1 = round_half_even q2.
Proof.
  intros Hq. unfold round_half_even. rewrite (Qfloor_comp _ _ Hq).
  replace (q1 - inject_Z (Qfloor q2) ?= 1 # 2) with (q2 - inject_Z (Qfloor q2) ?= 1 # 2);
    [done|].
  apply Qcompare_comp; [by rewrite Hq|reflexivity].
Qed.

Lemma round_half_even_near s :
  s - (1 # 2) <= inject_Z (round_half_even s) ∧ inject_Z (round_half_even s) <= s + (1 # 2).
Proof.
  unfold round_half_even.
  pose proof (Qfloor_le s) as Hlo. pose proof (Qlt_floor s) as Hhi.
  rewrite inject_Z_plus in Hhi. change (inject_Z 1) with 1 in Hhi.
  destruct (s - inject_Z (Qfloor s) ?= 1 # 2) eqn:Hc.
  - Qcompare_order Hc. destruct (Z.even (Qfloor s)).
    + split; lra.
    + rewrite inject_Z_plus. change (inject_Z 1) with 1. split; lra.
  - Qcompare_order Hc. split; lra.
  - Qcompare_order Hc. rewrite inject_Z_plus. change (inject_Z 1) with 1. split; lra.
Qed.


Lemma round_half_even_inject_Z n : round_half_even (inject_Z n) = n.
Proof.
  unfold round_half_even. rewrite Qfloor_Z.
  replace (inject_Z n - inject_Z n ?= 1 # 2) with Lt; [done|].
  symmetry. apply (proj1 (Qlt_alt _ _)). generalize (inject_Z n). intros x. lra.
Qed.

Lemma round_half_even_mono s1 s2 : s1 <= s2 → (round_half_even s1 <= round_half_even s2)%Z.
Proof.
  intros Hs. destruct (Z_lt_le_dec (Qfloor s1) (Qfloor s2)) as [Hlt|Hge].
  - (* different floors: the results are at most one above the first floor *)
    assert (round_half_even s1 <= Qfloor s1 + 1)%Z as H1.
    { unfold round_half_even. repeat case_match; lia. }
    assert (Qfloor s2 <= round_half_even s2)%Z as H2.
    { unfold round_half_even. repeat case_match; lia. }
    lia.
  - assert (Qfloor s1 = Qfloor s2) as Hf.
    { apply Z.le_antisymm; [by apply Qfloor_resp_le|done]. }
    unfold round_half_even. rewrite Hf.
    destruct (s1 - inject_Z (Qfloor s2) ?= 1 # 2) eqn:H1;
      destruct (s2 - inject_Z (Qfloor s2) ?= 1 # 2) eqn:H2;
      Qcompare_order H1; Qcompare_order H2;
      try (destruct (Z.even (Qfloor s2))); try lia; exfalso; lra.
Qed.

Lemma Q_numden q : q * inject_Z (Z.pos (Qden q)) == inject_Z (Qnum q).
Proof. destruct q as [n d]. unfold Qeq, inject_Z, Qmult. simpl. lia. Qed.

(** [ilog2 q] is the binary logarithm of [q], rounded down. *)
Lemma ilog2_spec q : 0 < q → pow2 (ilog2 q) <= q ∧ q < pow2 (ilog2 q + 1).
Proof.
  intros Hq.
  assert (0 < Qnum q)%Z as Hn by (destruct q as [n d]; unfold Qlt in Hq; simpl in *; lia).
  destruct (Z.log2_spec (Qnum q) Hn) as [Hn1 Hn2].
  destruct (Z.log2_spec (Z.pos (Qden q))) as [Hd1 Hd2]; [lia|].
  pose proof (Z.log2_nonneg (Qnum q)) as Hln.
  pose proof (Z.log2_nonneg (Z.pos (Qden q))) as Hld.
  pose proof (Q_numden q) as Hnd.
  unfold ilog2.
  set (Ln := Z.log2 (Qnum q)) in *. set (Ld := Z.log2 (Z.pos (Qden q))) in *.
  rewrite Zle_Qle, <- pow2_inject_Z in Hn1, Hd1 by lia.
  rewrite Zlt_Qlt, <- pow2_inject_Z in Hn2, Hd2 by lia.
  pose proof (pow2_pos Ld) as HLd. pose proof (pow2_pos (Z.succ Ld)) as HLd'.
  assert (pow2 (Ln - Ld - 1) < q) as Hlo.
  { assert (pow2 Ln == pow2 (Ln - Ld - 1) * pow2 (Z.succ Ld)) as Hp.
    { rewrite <- pow2_add. by replace (Ln - Ld - 1 + Z.succ Ld)%Z with Ln by lia. }
    pose proof (pow2_pos (Ln - Ld - 1)). nra. }
  assert (q < pow2 (Ln - Ld + 1)) as Hhi.
  { assert (pow2 (Z.succ Ln) == pow2 (Ln - Ld + 1) * pow2 Ld) as Hp.
    { rewrite <- pow2_add. by replace (Ln - Ld + 1 + Ld)%Z with (Z.succ Ln) by lia. }
    pose proof (pow2_pos (Ln - Ld + 1)). nra. }
  destruct (q ?= pow2 (Ln - Ld)) eqn:Hc.
  - Qcompare_order Hc. split; [lra|done].
  - Qcompare_order Hc. split; [lra|].
    by replace (Ln - Ld - 1 + 1)%Z with (Ln - Ld)%Z by lia.
  - Qcompare_order Hc. split; [lra|done].
Qed.

Lemma ilog2_unique q l : pow2 l <= q → q < pow2 (l + 1) → ilog2 q = l.
Proof.
  intros Hlo Hhi.
  assert (0 < q) as Hq by (pose proof (pow2_pos l); lra).
  destruct (ilog2_spec q Hq) as [Hlo' Hhi'].
  assert (pow2 l < pow2 (ilog2 q + 1)) as H1 by lra.
  assert (pow2 (ilog2 q) < pow2 (l + 1)) as H2 by lra.
  apply pow2_lt_inv in H1, H2. lia.
Qed.

Lemma ilog2_Qeq q1 q2 : 0 < q1 → q1 == q2 → ilog2 q1 = ilog2 q2.
Proof.
  intros Hq Heq. destruct (ilog2_spec q1 Hq) as [Hlo Hhi].
  symmetry. apply ilog2_unique; by rewrite <- Heq.
Qed.

Lemma ilog2_mono q1 q2 : 0 < q1 → q1 <= q2 → (ilog2 q1 <= ilog2 q2)%Z.
Proof.
  intros Hq Hle.
  destruct (ilog2_spec q1 Hq) as [Hlo1 _].
  destruct (ilog2_spec q2) as [_ Hhi2]; [lra|].
  assert (pow2 (ilog2 q1) < pow2 (ilog2 q2 + 1)) as H by lra.
  apply pow2_lt_inv in H. lia.
Qed.


(** The significand of [q > 0] has 53 bits. *)
Lemma significand_spec q :
  0 < q →
  let e := (ilog2 q - 52)%Z in
  q / pow2 e * pow2 e == q ∧ pow2 52 <= q / pow2 e ∧ q / pow2 e < pow2 53.
Proof.
  intros Hq e. pose proof (pow2_pos e) as He.
  assert (q / pow2 e * pow2 e == q) as Hs by (field; lra).
  destruct (ilog2_spec q Hq) as [Hlo Hhi].
  replace (ilog2 q) with (52 + e)%Z in Hlo by (unfold e; lia).
  replace (ilog2 q + 1)%Z with (53 + e)%Z in Hhi by (unfold e; lia).
  rewrite pow2_add in Hlo, Hhi.
  pose proof (pow2_pos 52). pose proof (pow2_pos 53).
  split; [done|]. split; nra.
Qed.

Lemma fl_pos_Qeq q1 q2 : 0 < q1 → q1 == q2 → fl_pos q1 == fl_pos q2.
Proof.
  intros Hq Heq. unfold fl_pos. rewrite <- (ilog2_Qeq q1 q2 Hq Heq).
  rewrite (round_half_even_Qeq (q1 / pow2 (ilog2 q1 - 52)) (q2 / pow2 (ilog2 q1 - 52)));
    [reflexivity|]. by apply Qdiv_comp.
Qed.

Lemma fl_Qeq q1 q2 : q1 == q2 → fl q1 == fl q2.
Proof.
  intros Heq. unfold fl.
  replace (q2 ?= 0) with (q1 ?= 0) by (by apply Qcompare_comp).
  destruct (q1 ?= 0) eqn:Hc; Qcompare_order Hc.
  - reflexivity.
  - apply Qopp_comp, fl_pos_Qeq; [lra|by rewrite Heq].
  - by apply fl_pos_Qeq.
Qed.

(** Rounding to the next float moves a number by at most [u] times itself. *)
Lemma fl_pos_error q : 0 < q → q * (1 - u) <= fl_pos q ∧ fl_pos q <= q * (1 + u).
Proof.
  intros Hq. destruct (significand_spec q Hq) as (Hs & Hlo & _).
  unfold fl_pos. set (e := (ilog2 q - 52)%Z) in *. set (s := q / pow2 e) in *.
  destruct (round_half_even_near s) as [Hr1 Hr2].
  pose proof (pow2_pos e) as He.
  assert (1 # 2 <= s * u) as Hu.
  { assert (pow2 52 * u == 1 # 2) as <- by reflexivity.
    apply Qmult_le_compat_r; [done|discriminate]. }
  generalize dependent (inject_Z (round_half_even s)). intros r Hr1 Hr2.
  rewrite <- Hs. split; nra.
Qed.

Lemma fl_pos_pos q : 0 < q → 0 < fl_pos q.
Proof.
  intros Hq. destruct (fl_pos_error q Hq) as [Hlo _].
  assert (0 < 1 - u) by reflexivity. nra.
Qed.

Lemma fl_pos_mono q1 q2 : 0 < q1 → q1 <= q2 → fl_pos q1 <= fl_pos q2.
Proof.
  intros Hq Hle.
  destruct (significand_spec q1 Hq) as (Hs1 & Hlo1 & Hhi1).
  destruct (significand_spec q2) as (Hs2 & Hlo2 & Hhi2); [lra|].
  pose proof (ilog2_mono q1 q2 Hq Hle) as He.
  unfold fl_pos.
  set (e1 := (ilog2 q1 - 52)%Z) in *. set (e2 := (ilog2 q2 - 52)%Z) in *.
  set (s1 := q1 / pow2 e1) in *. set (s2 := q2 / pow2 e2) in *.
  pose proof (pow2_pos e1) as He1. pose proof (pow2_pos e2) as He2.
  destruct (Z_lt_le_dec e1 e2) as [Hlt|Hge].
  - (* the first significand is below [2^53], the second is at least [2^52] *)
    assert (inject_Z (round_half_even s1) <= pow2 53) as H1.
    { rewrite (pow2_inject_Z 53), <- Zle_Qle by done.
      rewrite <- (round_half_even_inject_Z (2 ^ 53)).
      apply round_half_even_mono. rewrite <- pow2_inject_Z by done. lra. }
    assert (pow2 52 <= inject_Z (round_half_even s2)) as H2.
    { rewrite (pow2_inject_Z 52), <- Zle_Qle by done.
      rewrite <- (round_half_even_inject_Z (2 ^ 52)).
      apply round_half_even_mono. by rewrite <- pow2_inject_Z. }
    assert (pow2 53 * pow2 e1 <= pow2 52 * pow2 e2) as H3.
    { rewrite <- !pow2_add. apply pow2_le. lia. }
    pose proof (pow2_pos 52).
    generalize dependent (inject_Z (round_half_even s1)).
    generalize dependent (inject_Z (round_half_even s2)). intros. nra.
  - assert (e1 = e2) as Heq by (unfold e1, e2 in *; lia).
    assert (s1 <= s2) as Hs.
    { unfold s1, s2. rewrite Heq. apply Qmult_le_compat_r; [done|].
      apply Qlt_le_weak, Qinv_lt_0_compat, pow2_pos. }
    apply round_half_even_mono in Hs. rewrite Zle_Qle in Hs. rewrite Heq.
    apply Qmult_le_compat_r; [done|by apply Qlt_le_weak].
Qed.

Lemma fl_zero q : q == 0 → fl q = 0.
Proof. intros Hq. unfold fl. by rewrite (proj1 (Qeq_alt _ _) Hq). Qed.

Lemma fl_positive q : 0 < q → fl q = fl_pos q.
Proof. intros Hq. unfold fl. by rewrite (proj1 (Qgt_alt _ _) Hq). Qed.

Lemma fl_pos_lt q : 0 < q → 0 < fl q.
Proof. intros Hq. rewrite fl_positive by done. by apply fl_pos_pos. Qed.

Lemma fl_nonneg q : 0 <= q → 0 <= fl q.
Proof.
  intros Hq. destruct (Qlt_le_dec 0 q) as [Hpos|Hle].
  - by apply Qlt_le_weak, fl_pos_lt.
  - rewrite fl_zero by lra. apply Qle_refl.
Qed.

(** [fl] is monotone. *)
Lemma fl_mono q1 q2 : 0 <= q1 → q1 <= q2 → fl q1 <= fl q2.
Proof.
  intros Hq Hle. destruct (Qlt_le_dec 0 q1) as [Hpos|Hneg].
  - rewrite !fl_positive by lra. by apply fl_pos_mono.
  - rewrite (fl_zero q1) by lra. apply fl_nonneg. lra.
Qed.

Lemma fl_error q : 0 <= q → q * (1 - u) <= fl q ∧ fl q <= q * (1 + u).
Proof.
  intros Hq. destruct (Qlt_le_dec 0 q) as [Hpos|Hneg].
  - rewrite fl_positive by done. by apply fl_pos_error.
  - rewrite fl_zero by lra. assert (q == 0) as -> by lra. split; discriminate.
Qed.

End float.

(** ** The accumulation loop of [get_service_uptime] *)

Section uptime_loop.
Import Public UptimeSpec.

Lemma start_status_default e :
  except_ValueError (ServiceStatusEnum_of (get_status e)) OPERATIONAL
  = Ok (interval_status e).
Proof.
  unfold get_status, interval_status. by destruct (ev_status e).
Qed.

Lemma uptime_step_middle pre a b rest acc :
  uptime_step (pre ++ a :: b :: rest) acc (length pre)
  = Ok (add_interval acc (interval_status a, ev_timestamp b - ev_timestamp a)).
Proof.
  destruct acc as [u t]. unfold uptime_step, getitem.
  assert ((pre ++ a :: b :: rest) !! length pre = Some a) as ->
    by (by apply list_lookup_middle).
  assert ((pre ++ a :: b :: rest) !! (length pre + 1)%nat = Some b) as ->.
  { replace (pre ++ a :: b :: rest) with ((pre ++ [a]) ++ b :: rest)
      by (by rewrite <-app_assoc).
    apply list_lookup_middle. rewrite length_app. simpl. lia. }
  simpl.
  rewrite start_status_default. simpl. unfold add_interval. simpl.
  destruct (interval_status a); simpl; f_equal; f_equal; lia.
Qed.

Lemma Zsum_cons x l : Zsum (x :: l) = x + Zsum l.
Proof. done. Qed.

Lemma upDuration_cons iv ivs :
  upDuration (iv :: ivs) = (if decide (is_up iv.1) then iv.2 else 0) + upDuration ivs.
Proof.
  unfold upDuration. rewrite filter_cons.
  case_decide; rewrite ?fmap_cons, ?Zsum_cons; lia.
Qed.

Lemma totalDuration_cons iv ivs :
  totalDuration (iv :: ivs)
  = (if decide (iv.1 ≠ MAINTENANCE) then iv.2 else 0) + totalDuration ivs.
Proof.
  unfold totalDuration. rewrite filter_cons.
  case_decide; rewrite ?fmap_cons, ?Zsum_cons; lia.
Qed.

Lemma uptime_loop_from pre rest u t :
  foldM (uptime_step (pre ++ rest)) (u, t) (seq (length pre) (length rest - 1))
  = Ok (u + upDuration (intervals rest), t + totalDuration (intervals rest)).
Proof.
  revert pre u t. induction rest as [|a rest IH]; intros pre u t.
  - simpl. unfold upDuration, totalDuration. simpl. f_equal. f_equal; lia.
  - destruct rest as [|b rest].
    + simpl. unfold upDuration, totalDuration. simpl. f_equal. f_equal; lia.
    + replace (length (a :: b :: rest) - 1)%nat with (S (length (b :: rest) - 1))
        by (simpl; lia).
      rewrite <-cons_seq. cbn [foldM].
      rewrite uptime_step_middle. unfold mbind at 1, result_bind at 1.
      replace (pre ++ a :: b :: rest) with ((pre ++ [a]) ++ b :: rest)
        by (by rewrite <-app_assoc).
      replace (S (length pre)) with (length (pre ++ [a]))
        by (rewrite length_app; simpl; lia).
      unfold add_interval at 1. cbn [fst snd].
      rewrite IH. f_equal.
      change (intervals (a :: b :: rest)) with
        ((interval_status a, ev_timestamp b - ev_timestamp a) :: intervals (b :: rest)).
      rewrite upDuration_cons, totalDuration_cons. cbn [fst snd].
      f_equal; lia.
Qed.

Lemma uptime_loop_spec events :
  uptime_loop events
  = Ok (upDuration (intervals events), totalDuration (intervals events)).
Proof.
  unfold uptime_loop.
  exact (uptime_loop_from [] events 0 0).
Qed.
End uptime_loop.

(** ** The timeline and the percentage *)

Section uptime_overall.
Import Public UptimeSpec.

Lemma build_events_timeline sid svc start_date end_date isd history events :
  build_events sid svc start_date end_date isd history = Ok events →
  events = timeline sid (status svc) start_date end_date (head isd) history.
Proof.
  unfold build_events, timeline.
  assert (match isd with d :: _ => [] ++ [d] | [] => [] end = option_list (head isd))
    as -> by (by destruct isd).
  set (L := option_list (head isd) ++ history).
  set (synth := {| ev_service_id := sid; ev_status := Value (status svc);
                   ev_timestamp := start_date |}).
  assert (match L with [] => L ++ [synth] | _ :: _ => L end
          = match L with [] => [synth] | l => l end) as -> by (by destruct L).
  set (real := match L with [] => [synth] | l => l end).
  assert (match L with [] => [synth] | s :: l0 => s :: l0 end = real) as ->
    by (subst real; by destruct L).
  unfold getitem. rewrite Nat.sub_1_r, <-last_lookup.
  destruct (last real) as [e|]; [|done]. simpl.
  unfold getitem_status. destruct (ev_status e) eqn:He; simpl; [done|..];
    by intros [= <-].
Qed.
End uptime_overall.

(** ** The two queries on [service_status_history] *)

Section uptime_queries.
Import Public UptimeSpec.

Lemma history_in_window sid start_date end_date log :
  in_window_sorted sid start_date end_date log
    (sort_by ev_timestamp
       (find (λ e, bool_decide (ev_service_id e = sid)
                   && (start_date <=? ev_timestamp e)
                   && (ev_timestamp e <=? end_date)) log)).
Proof.
  split; [|apply sort_by_StronglySorted].
  rewrite sort_by_Permutation. unfold find.
  erewrite list_filter_iff; [done|].
  intros e. simpl. rewrite !andb_True, bool_decide_spec.
  rewrite !Is_true_true, !Z.leb_le. tauto.
Qed.

Lemma initial_status_doc_carry_in sid start_date log :
  is_carry_in sid start_date log
    (head (take 1 (sort_by (λ e, - ev_timestamp e)
                     (find (λ e, bool_decide (ev_service_id e = sid)
                                 && (ev_timestamp e <? start_date)) log)))).
Proof.
  set (p := λ e, bool_decide (ev_service_id e = sid) && (ev_timestamp e <? start_date)).
  assert (Hp : ∀ e, e ∈ find p log ↔
                    e ∈ log ∧ ev_service_id e = sid ∧ ev_timestamp e < start_date).
  { intros e. unfold find. rewrite list_elem_of_filter. unfold p.
    rewrite andb_True, bool_decide_spec, Is_true_true, Z.ltb_lt. tauto. }
  pose proof (sort_by_Permutation (λ e, - ev_timestamp e) (find p log)) as Hperm.
  pose proof (sort_by_StronglySorted (λ e, - ev_timestamp e) (find p log)) as Hsorted.
  destruct (sort_by (λ e, - ev_timestamp e) (find p log)) as [|c rest]; simpl.
  - intros e He Hsid Hts.
    assert (e ∈ find p log) as Hin by (apply Hp; done).
    rewrite <-Hperm in Hin. by apply elem_of_nil in Hin.
  - assert (c ∈ find p log) as Hc by (rewrite <-Hperm; left).
    apply Hp in Hc as (Hc1 & Hc2 & Hc3). repeat split; try done.
    intros e He Hsid Hts.
    assert (e ∈ c :: rest) as Hin by (rewrite Hperm; apply Hp; done).
    apply elem_of_cons in Hin as [->|Hin]; [lia|].
    apply StronglySorted_inv in Hsorted as [_ Hall].
    rewrite Forall_forall in Hall. specialize (Hall e Hin).
    unfold key_le in Hall. lia.
Qed.
End uptime_queries.

(** ** The durations of a timeline *)

Section uptime_durations.
Import Public UptimeSpec.

(** The timeline of a query is in ascending order of timestamp. *)
Lemma timeline_sorted sid live utcnow log carry_in in_window :
  is_carry_in sid (utcnow - days 90) log carry_in →
  in_window_sorted sid (utcnow - days 90) utcnow log in_window →
  StronglySorted (λ a b, ev_timestamp a ≤ ev_timestamp b)
    (timeline sid live (utcnow - days 90) utcnow carry_in in_window).
Proof.
  intros Hcarry [Hperm Hsorted]. unfold timeline.
  assert (Hwin : ∀ e, e ∈ in_window →
                      utcnow - days 90 ≤ ev_timestamp e ≤ utcnow).
  { intros e He. rewrite Hperm in He. apply list_elem_of_filter in He. tauto. }
  set (synth := {| ev_service_id := sid; ev_status := Value live;
                   ev_timestamp := utcnow - days 90 |}).
  assert (Hreal : ∀ real,
            StronglySorted (λ a b, ev_timestamp a ≤ ev_timestamp b) real →
            (∀ e, e ∈ real → ev_timestamp e ≤ utcnow) →
            ∀ st, StronglySorted (λ a b, ev_timestamp a ≤ ev_timestamp b)
                    (real ++ [ {| ev_service_id := sid; ev_status := st;
                                  ev_timestamp := utcnow |} ])).
  { intros real Hs Hle st. apply StronglySorted_app_2; [|exact Hs|repeat constructor].
    intros a b Ha Hb%list_elem_of_singleton. subst b. simpl. by apply Hle. }
  destruct carry_in as [c|].
  - apply (Hreal (c :: in_window)).
    + constructor; [done|]. apply Forall_forall. intros e He.
      destruct Hcarry as (_ & _ & Hc & _). specialize (Hwin e He). lia.
    + destruct Hcarry as (_ & _ & Hc & _).
      intros e [->|He]%elem_of_cons; [unfold days, usec_per_day in *; lia|].
      by apply Hwin.
  - destruct in_window as [|e l] eqn:Hl.
    + apply (Hreal [synth]); [repeat constructor|].
      intros e ->%list_elem_of_singleton. simpl. unfold days, usec_per_day. lia.
    + apply (Hreal (e :: l)); [done|]. intros e' He'. by apply Hwin.
Qed.

Lemma intervals_nonneg events :
  StronglySorted (λ a b, ev_timestamp a ≤ ev_timestamp b) events →
  Forall (λ iv, 0 ≤ iv.2) (intervals events).
Proof.
  induction 1 as [|a l Hl IH Ha]; [constructor|].
  destruct l as [|b l]; [constructor|].
  change (intervals (a :: b :: l))
    with ((interval_status a, ev_timestamp b - ev_timestamp a) :: intervals (b :: l)).
  constructor; [|done]. simpl. apply Forall_cons in Ha as [Hab _]. lia.
Qed.

Lemma durations_ordered ivs :
  Forall (λ iv, 0 ≤ iv.2) ivs → 0 ≤ upDuration ivs ≤ totalDuration ivs.
Proof.
  induction 1 as [|[s d] ivs Hd _ IH].
  - unfold upDuration, totalDuration. simpl. lia.
  - rewrite upDuration_cons, totalDuration_cons. simpl in *.
    destruct s; repeat case_decide; try lia;
      match goal with
      | H : ¬ is_up _ |- _ => exfalso; apply H; unfold is_up; auto
      | H : is_up _ |- _ => destruct H; discriminate
      | H : ¬ _ ≠ _ |- _ => idtac
      | _ => idtac
      end; try lia.
Qed.
End uptime_durations.

(** ** The percentage in floating point *)

Section percentage.
Import Float Public UptimeSpec.
Local Open Scope Q_scope.

Lemma seconds_eq x : x / 1000000 == x * (1 # 1000000).
Proof. reflexivity. Qed.

Lemma fl_negative q : q < 0 → fl q < 0.
Proof.
  intros Hq. unfold fl. rewrite (proj1 (Qlt_alt _ _) Hq).
  assert (0 < fl_pos (- q)) by (apply fl_pos_pos; lra). lra.
Qed.

Lemma inject_Z_pos z : (0 < z)%Z → 0 < inject_Z z.
Proof. intros Hz. change 0 with (inject_Z 0). by rewrite <- Zlt_Qlt. Qed.

Lemma inject_Z_nonneg z : (0 <= z)%Z → 0 <= inject_Z z.
Proof. intros Hz. change 0 with (inject_Z 0). by rewrite <- Zle_Qle. Qed.

(** [total_duration.total_seconds() > 0] tests the sign of the duration. *)
Lemma total_seconds_ltb td : ltb 0 (total_seconds td) = (0 <? td)%Z.
Proof.
  unfold ltb, total_seconds.
  destruct (Z.ltb_spec 0 td) as [Hpos|Hneg].
  - assert (0 < fl (inject_Z td / 1000000)) as H.
    { apply fl_pos_lt. pose proof (inject_Z_pos td Hpos). rewrite seconds_eq. lra. }
    by rewrite (proj1 (Qlt_alt _ _) H).
  - destruct (decide (td = 0%Z)) as [->|Hne]; [done|].
    assert (fl (inject_Z td / 1000000) < 0) as H.
    { apply fl_negative. pose proof (inject_Z_pos (- td) ltac:(lia)) as H.
      rewrite inject_Z_opp in H. rewrite seconds_eq. lra. }
    by rewrite (proj1 (Qgt_alt _ _) H).
Qed.

(** The float computation of the percentage: at most [10^-13] away from the
    exact quotient, and between 0 and 100. *)
Lemma percentage_error (up total : timedelta) :
  (0 <= up <= total)%Z → (0 < total)%Z →
  let q := 100 * inject_Z up / inject_Z total in
  let x := fl (fl (total_seconds up / total_seconds total) * 100) in
  (q - (1 # 10000000000000) <= x ∧ x <= q + (1 # 10000000000000))
  ∧ (0 <= x ∧ x <= 100).
Proof.
  intros Hup Htotal q x.
  pose proof (inject_Z_pos total Htotal) as HT.
  pose proof (inject_Z_nonneg up (proj1 Hup)) as HU.
  assert (inject_Z up <= inject_Z total) as HUT by (rewrite <- Zle_Qle; lia).
  set (U := inject_Z up / 1000000). set (T := inject_Z total / 1000000).
  assert (0 <= U) as HU0 by (unfold U; rewrite seconds_eq; lra).
  assert (0 < T) as HT0 by (unfold T; rewrite seconds_eq; lra).
  assert (U <= T) as HUT' by (unfold U, T; rewrite !seconds_eq; lra).
  set (rho := inject_Z up / inject_Z total).
  assert (rho * T == U) as Hrho by (unfold rho, U, T; field; lra).
  assert (0 <= rho ∧ rho <= 1) as [Hrho0 Hrho1].
  { split.
    - apply Qle_shift_div_l; lra.
    - apply Qle_shift_div_r; lra. }
  assert (q == 100 * rho) as Hq by (unfold q, rho; field; lra).
  unfold total_seconds in x. fold U T in x.
  destruct (fl_error U HU0) as [Ha1 Ha2].
  destruct (fl_error T) as [Hb1 Hb2]; [lra|].
  pose proof (fl_pos_lt T HT0) as Hb0.
  pose proof (fl_nonneg U HU0) as Ha0.
  pose proof (fl_mono U T HU0 HUT') as Hab.
  set (a := fl U) in *. set (b := fl T) in *.
  set (c := a / b) in *.
  assert (c * b == a) as Hc by (unfold c; field; lra).
  assert (0 <= c ∧ c <= 1) as [Hc0 Hc1].
  { split.
    - apply Qle_shift_div_l; lra.
    - apply Qle_shift_div_r; lra. }
  (* the quotient of the two floats *)
  assert (c * (1 - u) <= rho * (1 + u) ∧ rho * (1 - u) <= c * (1 + u)) as [Hc2 Hc3].
  { assert (0 < 1 - u) as Hu1 by reflexivity.
    assert (0 < 1 + u) as Hu2 by reflexivity.
    split.
    - apply (Qmult_le_l _ _ T HT0).
      assert (T * (rho * (1 + u)) == U * (1 + u)) as -> by (rewrite <- Hrho; ring).
      assert (T * (c * (1 - u)) == T * (1 - u) * c) as -> by ring.
      apply Qle_trans with (b * c); [by apply Qmult_le_compat_r|].
      rewrite (Qmult_comm b c), Hc. done.
    - apply (Qmult_le_l _ _ T HT0).
      assert (T * (rho * (1 - u)) == U * (1 - u)) as -> by (rewrite <- Hrho; ring).
      assert (T * (c * (1 + u)) == T * (1 + u) * c) as -> by ring.
      apply Qle_trans with (b * c); [|by apply Qmult_le_compat_r].
      rewrite (Qmult_comm b c), Hc. done. }
  destruct (fl_error c Hc0) as [Hd1 Hd2].
  pose proof (fl_nonneg c Hc0) as Hd0.
  pose proof (fl_mono c 1 Hc0 Hc1) as Hd3.
  assert (fl 1 == 1) as Hone by (by vm_compute).
  rewrite Hone in Hd3.
  set (d := fl c) in *.
  destruct (fl_error (d * 100)) as [Hx1 Hx2]; [lra|].
  pose proof (fl_nonneg (d * 100) ltac:(lra)) as Hx0.
  pose proof (fl_mono (d * 100) 100 ltac:(lra) ltac:(lra)) as Hx3.
  assert (fl 100 == 100) as Hhundred by (by vm_compute).
  rewrite Hhundred in Hx3.
  fold x in Hx1, Hx2, Hx0, Hx3.
  unfold u in *. rewrite Hq. clearbody x d c a b rho. clear -Hx1 Hx2 Hx0 Hx3 Hd1 Hd2 Hc2 Hc3 Hrho0 Hrho1.
  repeat split; lra.
Qed.


Lemma decimal4_eq (k : Z) : k # 10000 == inject_Z k * (1 # 10000).
Proof. unfold Qeq, Qmult, inject_Z. simpl. lia. Qed.

(** [round(x, 4)] is the float of a decimal at most half a unit of the fourth
    place away from [x]. *)
Lemma round4_rounded4 slack q x :
  q - slack <= x → x <= q + slack → rounded4 slack q (round4 x).
Proof.
  intros Hlo Hhi. exists (round_half_even (x * 10000)). split; [reflexivity|].
  destruct (round_half_even_near (x * 10000)) as [H1 H2].
  rewrite decimal4_eq. split; lra.
Qed.

Lemma round4_range x : 0 <= x → x <= 100 → 0 <= round4 x ∧ round4 x <= 100.
Proof.
  intros H0 H100. unfold round4.
  assert (0 <= round_half_even (x * 10000) <= 1000000)%Z as [Hk0 Hk1].
  { pose proof (round_half_even_mono (inject_Z 0) (x * 10000)) as Hk0.
    pose proof (round_half_even_mono (x * 10000) (inject_Z 1000000)) as Hk1.
    rewrite round_half_even_inject_Z in Hk0, Hk1. split.
    - apply Hk0. change (inject_Z 0) with 0. lra.
    - apply Hk1. change (inject_Z 1000000) with 1000000. lra. }
  set (k := round_half_even (x * 10000)) in *.
  assert (0 <= k # 10000 ∧ k # 10000 <= 100) as [Hd0 Hd1].
  { unfold Qle. simpl. lia. }
  split; [by apply fl_nonneg|].
  assert (fl 100 == 100) as <- by (by vm_compute).
  by apply fl_mono.
Qed.

(** The percentage of [get_service_uptime] for the accumulated durations. *)
Lemma overall_percentage_spec svc ivs :
  Forall (λ iv, (0 <= iv.2)%Z) ivs →
  overallUptimePercentage (1 # 10000000000000) (status svc) ivs
    (round4 (overall_percentage svc (upDuration ivs) (totalDuration ivs))).
Proof.
  intros Hivs. pose proof (durations_ordered ivs Hivs) as Hup.
  unfold overall_percentage, overallUptimePercentage.
  rewrite total_seconds_ltb.
  destruct (Z.ltb_spec 0 (totalDuration ivs)) as [Hpos|Hle].
  - rewrite decide_True by done.
    destruct (percentage_error _ _ Hup Hpos) as [[Hlo Hhi] _].
    by apply round4_rounded4.
  - rewrite decide_False by lia.
    destruct (status svc); by vm_compute.
Qed.

(** The model on known values: the float of 0.1 is
    [3602879701896397 / 2^55]; 5 and 7 microseconds up in two seconds are
    0.00025 and 0.00035 percent, and [round] takes the floats of both
    computations to 0.0003. *)
Lemma float_examples :
  fl (1 # 10) == 3602879701896397 # 36028797018963968
  ∧ round4 (overall_percentage Scenario.api 5%Z 2000000%Z) == fl (3 # 10000)
  ∧ round4 (overall_percentage Scenario.api 7%Z 2000000%Z) == fl (3 # 10000).
Proof. split_and!; by vm_compute. Qed.

Lemma overall_percentage_range svc up total :
  (0 <= up <= total)%Z →
  0 <= round4 (overall_percentage svc up total)
  ∧ round4 (overall_percentage svc up total) <= 100.
Proof.
  intros Hup. unfold overall_percentage. rewrite total_seconds_ltb.
  destruct (Z.ltb_spec 0 total) as [Hpos|Hle].
  - destruct (percentage_error _ _ Hup Hpos) as [_ [H0 H100]].
    by apply round4_range.
  - destruct (up_states (status svc)); by vm_compute.
Qed.

End percentage.

(** ** Unfolding a successful call of [get_service_uptime] *)

Section uptime_inversion.
Import Public UptimeSpec.

Lemma get_service_uptime_unfold utcnow slug_ sid db org svc :
  org_by_slug slug_ db = Some org →
  service_of_org sid org db = Some svc →
  get_service_uptime utcnow slug_ sid db
  = except_Exception
      (events ← build_events sid svc (utcnow - days 90) utcnow
                  (initial_query sid utcnow db) (history_query sid utcnow db);
       daily ← daily_summary (utcnow - days 90) utcnow events;
       Ok {| overall_uptime_percentage :=
               round4 (overall_percentage svc (upDuration (intervals events))
                         (totalDuration (intervals events)));
             daily_statuses := daily |})
      "Internal Server Error".
Proof.
  unfold org_by_slug, service_of_org. intros Horg Hsvc.
  unfold get_service_uptime. rewrite Horg. simpl. rewrite Hsvc. simpl.
  f_equal. fold (initial_query sid utcnow db) (history_query sid utcnow db).
  destruct (build_events _ _ _ _ _ _) as [events|]; [|done]. simpl.
  by rewrite uptime_loop_spec.
Qed.

Lemma get_service_uptime_Ok_inv utcnow slug_ sid db r :
  get_service_uptime utcnow slug_ sid db = Ok r →
  ∃ org svc events,
    org_by_slug slug_ db = Some org ∧
    service_of_org sid org db = Some svc ∧
    build_events sid svc (utcnow - days 90) utcnow
      (initial_query sid utcnow db) (history_query sid utcnow db) = Ok events ∧
    daily_summary (utcnow - days 90) utcnow events = Ok (daily_statuses r) ∧
    overall_uptime_percentage r
    = round4 (overall_percentage svc (upDuration (intervals events))
                (totalDuration (intervals events))).
Proof.
  intros Hget.
  destruct (org_by_slug slug_ db) as [org|] eqn:Horg.
  2:{ unfold get_service_uptime in Hget. unfold org_by_slug in Horg.
      by rewrite Horg in Hget. }
  destruct (service_of_org sid org db) as [svc|] eqn:Hsvc.
  2:{ unfold get_service_uptime in Hget. unfold org_by_slug in Horg.
      unfold service_of_org in Hsvc. rewrite Horg in Hget. simpl in Hget.
      by rewrite Hsvc in Hget. }
  rewrite (get_service_uptime_unfold _ _ _ _ _ _ Horg Hsvc) in Hget.
  destruct (build_events _ _ _ _ _ _) as [events|] eqn:Hev; [|done].
  simpl in Hget.
  destruct (daily_summary _ _ _) as [daily|] eqn:Hd; [|done].
  simpl in Hget. injection Hget as <-. by exists org, svc, events.
Qed.
End uptime_inversion.

(** ** The scan of one day *)

Section day_scan.
Import Public UptimeSpec.

Lemma severity_map_inj s1 s2 : severity_map s1 = severity_map s2 → s1 = s2.
Proof. by destruct s1, s2. Qed.

Lemma severity_map_nonneg s : 0 ≤ severity_map s.
Proof. destruct s; simpl; lia. Qed.

Lemma event_status_default e :
  ev_status e ≠ Absent →
  except_ValueError (raw ← getitem_status e; ServiceStatusEnum_of raw) OPERATIONAL
  = Ok (interval_status e).
Proof.
  unfold getitem_status, interval_status. by destruct (ev_status e).
Qed.

Lemma event_status_KeyError e :
  ev_status e = Absent →
  except_ValueError (raw ← getitem_status e; ServiceStatusEnum_of raw) OPERATIONAL
  = Raise KeyError.
Proof. unfold getitem_status. by intros ->. Qed.

Lemma day_scan_step_Ok day_end acc e acc' :
  day_scan_step day_end acc e = Ok acc' → acc' = worst_step day_end acc e.
Proof.
  destruct acc as [s sev]. unfold day_scan_step, worst_step. simpl.
  destruct (ev_timestamp e <? day_end); [|by intros [= <-]].
  destruct (decide (ev_status e = Absent)) as [Ha|Ha].
  - by rewrite event_status_KeyError.
  - rewrite event_status_default by done. simpl.
    by destruct (sev <? _); intros [= <-].
Qed.

Lemma day_scan_step_returns day_end acc e :
  (ev_timestamp e < day_end → ev_status e ≠ Absent) →
  day_scan_step day_end acc e = Ok (worst_step day_end acc e).
Proof.
  destruct acc as [s sev]. unfold day_scan_step, worst_step. simpl.
  destruct (Z.ltb_spec (ev_timestamp e) day_end) as [Hlt|]; [|done].
  intros Ha. rewrite event_status_default by auto. simpl.
  by destruct (sev <? _).
Qed.

Lemma day_scan_from_Ok day_end l acc w :
  foldM (day_scan_step day_end) acc l = Ok w → w = foldl (worst_step day_end) acc l.
Proof.
  revert acc. induction l as [|e l IH]; intros acc; simpl; [by intros [= <-]|].
  destruct (day_scan_step day_end acc e) as [acc'|] eqn:Hstep; [|done]. simpl.
  apply day_scan_step_Ok in Hstep as ->. apply IH.
Qed.

Lemma day_scan_Ok day_end l w :
  day_scan l day_end = Ok w → w = running_worst l day_end.
Proof. apply day_scan_from_Ok. Qed.

Lemma day_scan_from_returns day_end l acc :
  Forall (λ e, ev_timestamp e < day_end → ev_status e ≠ Absent) l →
  foldM (day_scan_step day_end) acc l = Ok (foldl (worst_step day_end) acc l).
Proof.
  intros Hl. revert acc. induction Hl as [|e l He Hl IH]; intros acc; simpl; [done|].
  rewrite day_scan_step_returns by done. simpl. apply IH.
Qed.

Lemma day_scan_returns day_end l :
  Forall (λ e, ev_timestamp e < day_end → ev_status e ≠ Absent) l →
  day_scan l day_end = Ok (running_worst l day_end).
Proof. apply day_scan_from_returns. Qed.

(** The state of the scan: a status, its severity, and what was seen. *)
Lemma worst_step_invariant day_end s e :
  ∃ s', worst_step day_end (s, severity_map s) e = (s', severity_map s')
        ∧ severity_map s ≤ severity_map s'
        ∧ (ev_timestamp e < day_end →
           severity_map (interval_status e) ≤ severity_map s')
        ∧ (s' = s ∨ (ev_timestamp e < day_end ∧ interval_status e = s')).
Proof.
  unfold worst_step. cbn [fst snd].
  destruct (Z.ltb_spec (ev_timestamp e) day_end) as [Hlt|Hge].
  - destruct (Z.ltb_spec (severity_map s) (severity_map (interval_status e)))
      as [Hworse|Hnot].
    + exists (interval_status e). split_and!; [done|lia|lia|by right].
    + exists s. split_and!; [done|lia|lia|by left].
  - exists s. split_and!; [done|lia|lia|by left].
Qed.

Lemma worst_fold_invariant day_end l s :
  ∃ s', foldl (worst_step day_end) (s, severity_map s) l = (s', severity_map s')
        ∧ severity_map s ≤ severity_map s'
        ∧ (∀ e, e ∈ l → ev_timestamp e < day_end →
                severity_map (interval_status e) ≤ severity_map s')
        ∧ (s' = s ∨ ∃ e, e ∈ l ∧ ev_timestamp e < day_end ∧ interval_status e = s').
Proof.
  revert s. induction l as [|e l IH]; intros s; cbn [foldl].
  - exists s. split_and!; [done|lia| |by left].
    intros e He. by apply elem_of_nil in He.
  - destruct (worst_step_invariant day_end s e) as (s1 & -> & Hle1 & Hge1 & Hin1).
    destruct (IH s1) as (s2 & -> & Hle2 & Hge2 & Hin2).
    exists s2. split_and!; [done|lia| |].
    + intros e' [->|He']%elem_of_cons Hts; [specialize (Hge1 Hts); lia|by apply Hge2].
    + destruct Hin2 as [->|(e' & He' & Hts & Hst)].
      * destruct Hin1 as [->|[Hts Hst]]; [by left|].
        right. exists e. split_and!; [left|done|done].
      * right. exists e'. split_and!; [by right|done|done].
Qed.

Lemma running_worst_is_worst l day_end :
  is_worst_before l day_end (running_worst l day_end).1.
Proof.
  destruct (worst_fold_invariant day_end l OPERATIONAL) as (s' & Hw & _ & H3 & H4).
  unfold running_worst. change 0 with (severity_map OPERATIONAL). rewrite Hw.
  by split.
Qed.

Lemma is_worst_before_unique l day_end s1 s2 :
  is_worst_before l day_end s1 → is_worst_before l day_end s2 → s1 = s2.
Proof.
  intros [Hge1 Hin1] [Hge2 Hin2]. apply severity_map_inj.
  assert (∀ a b, (∀ e, e ∈ l → ev_timestamp e < day_end →
                       severity_map (interval_status e) ≤ severity_map b) →
                 (a = OPERATIONAL
                  ∨ ∃ e, e ∈ l ∧ ev_timestamp e < day_end ∧ interval_status e = a) →
                 severity_map a ≤ severity_map b) as Hle.
  { intros a b Hb [->|(e & He & Hts & <-)]; [apply severity_map_nonneg|by apply Hb]. }
  apply Z.le_antisymm; by apply Hle.
Qed.

Lemma is_worst_before_Permutation l l' day_end s :
  l ≡ₚ l' → is_worst_before l day_end s → is_worst_before l' day_end s.
Proof.
  intros Hperm [Hge Hin]. split.
  - intros e He. apply Hge. by rewrite Hperm.
  - destruct Hin as [->|(e & He & Hts & Hst)]; [by left|].
    right. exists e. by rewrite <-Hperm.
Qed.

Lemma running_worst_Permutation l l' day_end :
  l ≡ₚ l' → (running_worst l day_end).1 = (running_worst l' day_end).1.
Proof.
  intros Hperm. apply (is_worst_before_unique l' day_end).
  - eapply is_worst_before_Permutation; [done|apply running_worst_is_worst].
  - apply running_worst_is_worst.
Qed.

(** The running worst can only get worse as the day moves on. *)
Lemma running_worst_mono l d1 d2 :
  d1 ≤ d2 →
  severity_map (running_worst l d1).1 ≤ severity_map (running_worst l d2).1.
Proof.
  intros Hd.
  destruct (running_worst_is_worst l d1) as [_ Hin].
  destruct (running_worst_is_worst l d2) as [Hge _].
  destruct Hin as [->|(e & He & Hts & <-)]; [apply severity_map_nonneg|].
  apply Hge; [done|lia].
Qed.
End day_scan.

(** ** The day map and the list of daily statuses *)

Section day_map.
Import Public UptimeSpec.

Lemma date_of_add_days t n : date_of (t + days n) = date_of t + n.
Proof. unfold date_of, days. by rewrite Z.div_add. Qed.

Lemma date_of_sub_days t n : date_of (t - days n) = date_of t - n.
Proof.
  unfold date_of, days.
  replace (t - n * usec_per_day) with (t + (- n) * usec_per_day) by lia.
  rewrite Z.div_add by done. lia.
Qed.

Lemma foldl_insert_lookup_ne {A V} (k : A → Z) (v : A → V) l (m0 : gmap Z V) x :
  (∀ a, a ∈ l → k a ≠ x) →
  foldl (λ m a, <[k a := v a]> m) m0 l !! x = m0 !! x.
Proof.
  revert m0. induction l as [|a l IH]; intros m0 Hne; simpl; [done|].
  rewrite IH by (intros a' Ha'; apply Hne; by right).
  rewrite lookup_insert_ne; [done|]. apply Hne. left.
Qed.

Lemma foldl_insert_lookup_eq {A V} (k : A → Z) (v : A → V) l (m0 : gmap Z V) a :
  NoDup (k <$> l) → a ∈ l →
  foldl (λ m a, <[k a := v a]> m) m0 l !! k a = Some (v a).
Proof.
  revert m0. induction l as [|b l IH]; intros m0 Hnd Ha; simpl.
  - by apply elem_of_nil in Ha.
  - rewrite fmap_cons in Hnd. apply NoDup_cons in Hnd as [Hb Hnd].
    apply elem_of_cons in Ha as [->|?]; [|by apply IH].
    rewrite foldl_insert_lookup_ne; [by rewrite lookup_insert_eq|].
    intros a' Ha' Heq. apply Hb. rewrite <-Heq. by apply list_elem_of_fmap_2.
Qed.

(** Equal keys in a list without duplicate keys: the same element. *)
Lemma NoDup_key_eq {A} (key : A → Z) (l : list A) x y :
  NoDup (key <$> l) → x ∈ l → y ∈ l → key x = key y → x = y.
Proof.
  induction l as [|a l IH]; intros Hnd Hx Hy Hk; [by apply elem_of_nil in Hx|].
  rewrite fmap_cons in Hnd. apply NoDup_cons in Hnd as [Ha Hnd].
  apply elem_of_cons in Hx as [->|Hx]; apply elem_of_cons in Hy as [->|Hy].
  - done.
  - exfalso. apply Ha. rewrite Hk. by apply list_elem_of_fmap_2.
  - exfalso. apply Ha. rewrite <-Hk. by apply list_elem_of_fmap_2.
  - by apply IH.
Qed.

(** Sorting a permutation of a list that is sorted on distinct keys. *)
Lemma sort_by_unique {A} (key : A → Z) (l l' : list A) :
  l' ≡ₚ l → NoDup (key <$> l) → StronglySorted (key_le key) l →
  sort_by key l' = l.
Proof.
  intros Hperm Hnd Hsorted.
  apply (StronglySorted_unique_strong (key_le key)).
  - intros x1 x2 Hx1 Hx2 H12 H21.
    apply (NoDup_key_eq key l); [done| |done|unfold key_le in *; lia].
    by rewrite <-Hperm, <-(sort_by_Permutation key l').
  - apply sort_by_StronglySorted.
  - done.
  - by rewrite sort_by_Permutation.
Qed.

Lemma StronglySorted_fmap_seqZ {A} (key : A → Z) (g : Z → A) m n :
  (∀ x, key (g x) = x) → StronglySorted (key_le key) (g <$> seqZ m n).
Proof.
  intros Hkey. destruct (decide (0 ≤ n)) as [Hn|Hn].
  2:{ rewrite seqZ_nil by lia. constructor. }
  rewrite <-(Z2Nat.id n) by done. clear Hn.
  generalize (Z.to_nat n). clear n. intros n. revert m.
  induction n as [|n IH]; intros m.
  - rewrite seqZ_nil by lia. constructor.
  - rewrite seqZ_cons by lia. rewrite fmap_cons. constructor.
    + replace (Z.pred (Z.of_nat (S n))) with (Z.of_nat n) by lia. apply IH.
    + rewrite Forall_fmap, Forall_seqZ. intros x Hx. unfold key_le. simpl.
      rewrite !Hkey. lia.
Qed.
End day_map.

Section daily_summary.
Import Public UptimeSpec.

Context (end_date : datetime) (events sorted_events : list StatusEvent)
        (init : ServiceStatusEnum).
Hypothesis sorted_perm : sorted_events ≡ₚ events.

Let start_date := end_date - days 90.
Let D := date_of end_date.
Let init_entry :=
  {| entry_severity := Some (severity_map init); entry_status := init |}.
Let day_entry_of (day_start : datetime) :=
  {| entry_severity := None;
     entry_status := (running_worst sorted_events (day_start + days 1)).1 |}.
Let day_map1 : gmap date day_entry :=
  foldl (λ (m : gmap date day_entry) (i : nat),
           <[date_of (end_date - days (Z.of_nat i)) := init_entry]> m) ∅ (seq 0 90).
Let day_map2 : gmap date day_entry :=
  foldl (λ (m : gmap date day_entry) (day_start : datetime),
           <[date_of day_start := day_entry_of day_start]> m)
        day_map1 ((λ n : nat, start_date + days (Z.of_nat n)) <$> seq 0 90).
Let val (x : Z) : day_entry :=
  if bool_decide (x < D) then day_entry_of (start_date + days (x - (D - 90)))
  else init_entry.

Lemma NoDup_fmap_seq_Z (g : nat → Z) n :
  (∀ i j : nat, g i = g j → i = j) → NoDup (g <$> seq 0 n).
Proof.
  intros Hg. apply NoDup_fmap_2_strong; [|apply NoDup_seq].
  intros i j _ _. apply Hg.
Qed.

Lemma day_map1_lookup x :
  day_map1 !! x = if bool_decide (D - 89 ≤ x ≤ D) then Some init_entry else None.
Proof.
  unfold day_map1. case_bool_decide as Hx.
  - replace x with (date_of (end_date - days (Z.of_nat (Z.to_nat (D - x)))))
      by (rewrite date_of_sub_days; fold D; lia).
    apply (foldl_insert_lookup_eq
             (λ i : nat, date_of (end_date - days (Z.of_nat i))) (λ _, init_entry)).
    + apply NoDup_fmap_seq_Z. intros i j. rewrite !date_of_sub_days. lia.
    + apply elem_of_seq. lia.
  - rewrite (foldl_insert_lookup_ne
               (λ i : nat, date_of (end_date - days (Z.of_nat i))) (λ _, init_entry));
      [done|].
    intros i Hi%elem_of_seq. rewrite date_of_sub_days. fold D. lia.
Qed.

Lemma day_map2_lookup x :
  day_map2 !! x = if bool_decide (D - 90 ≤ x ≤ D) then Some (val x) else None.
Proof.
  unfold day_map2. rewrite foldl_fmap.
  set (k := λ n : nat, date_of (start_date + days (Z.of_nat n))).
  set (v := λ n : nat, day_entry_of (start_date + days (Z.of_nat n))).
  assert (Hk : ∀ n : nat, k n = D - 90 + Z.of_nat n).
  { intros n. unfold k, start_date. rewrite date_of_add_days, date_of_sub_days.
    by fold D. }
  destruct (decide (D - 90 ≤ x < D)) as [Hx|Hx].
  - rewrite bool_decide_true by lia.
    replace x with (k (Z.to_nat (x - (D - 90)))) at 1 by (rewrite Hk; lia).
    rewrite (foldl_insert_lookup_eq k v).
    + f_equal. unfold v, val. rewrite bool_decide_true by lia.
      by rewrite Z2Nat.id by lia.
    + apply NoDup_fmap_seq_Z. intros i j. rewrite !Hk. lia.
    + apply elem_of_seq. lia.
  - rewrite (foldl_insert_lookup_ne k v)
      by (intros n Hn%elem_of_seq; rewrite Hk; lia).
    rewrite day_map1_lookup. unfold val.
    repeat case_bool_decide; try done; lia.
Qed.

Lemma day_map2_list :
  day_map2 = list_to_map ((λ x, (x, val x)) <$> seqZ (D - 90) 91).
Proof.
  assert (Hkeys : ((λ x, (x, val x)) <$> seqZ (D - 90) 91).*1 = seqZ (D - 90) 91).
  { rewrite <-list_fmap_compose. apply list_fmap_id. }
  assert (Hnd : NoDup ((λ x, (x, val x)) <$> seqZ (D - 90) 91).*1)
    by (rewrite Hkeys; apply NoDup_seqZ).
  apply map_eq. intros x. rewrite day_map2_lookup. symmetry.
  case_bool_decide as Hx.
  - apply elem_of_list_to_map_1; [exact Hnd|].
    apply (list_elem_of_fmap_2 (λ x, (x, val x))). apply elem_of_seqZ. lia.
  - apply not_elem_of_list_to_map_1. intros Hin.
    assert (x ∈ seqZ (D - 90) 91) as Hin' by (rewrite <-Hkeys; exact Hin).
    apply elem_of_seqZ in Hin'. lia.
Qed.

Lemma daily_list_of_day_map2 :
  sort_by du_date
    ((λ ds : date * day_entry,
        {| du_date := ds.1; du_status := entry_status ds.2 |}) <$> map_to_list day_map2)
  = daily_entries start_date end_date events init.
Proof.
  assert (Hkeys : ((λ x, (x, val x)) <$> seqZ (D - 90) 91).*1 = seqZ (D - 90) 91).
  { rewrite <-list_fmap_compose. apply list_fmap_id. }
  assert (Hdates : du_date <$> daily_entries start_date end_date events init
                   = seqZ (D - 90) 91).
  { unfold daily_entries. fold D. rewrite <-list_fmap_compose. apply list_fmap_id. }
  assert (Hnd : NoDup ((λ x, (x, val x)) <$> seqZ (D - 90) 91).*1)
    by (rewrite Hkeys; apply NoDup_seqZ).
  apply sort_by_unique.
  - rewrite day_map2_list.
    rewrite (map_to_list_to_map _ Hnd).
    rewrite <-list_fmap_compose. unfold daily_entries. fold D.
    match goal with |- ?a ≡ₚ ?b => assert (a = b) as ->; [|done] end.
    apply list_fmap_ext. intros i x _. simpl. f_equal.
    unfold val. case_bool_decide; [|done]. simpl.
    unfold bucket_end. rewrite (running_worst_Permutation _ _ _ sorted_perm).
    f_equal. f_equal. unfold days. lia.
  - eapply eq_ind_r with (P := NoDup); [apply NoDup_seqZ|exact Hdates].
  - unfold daily_entries. by apply StronglySorted_fmap_seqZ.
Qed.
End daily_summary.

Section daily_summary_result.
Import Public UptimeSpec.

Lemma days_foldM_inv sorted_events l (m0 m' : gmap date day_entry) :
  foldM (λ (day_map : gmap date day_entry) (day_start : datetime),
           worst ← day_scan sorted_events (day_start + days 1);
           Ok (<[date_of day_start :=
                   {| entry_severity := None; entry_status := worst.1 |}]> day_map))
        m0 l = Ok m' →
  m' = foldl (λ (m : gmap date day_entry) (day_start : datetime),
                <[date_of day_start :=
                    {| entry_severity := None;
                       entry_status :=
                         (running_worst sorted_events (day_start + days 1)).1 |}]> m)
             m0 l.
Proof.
  revert m0. induction l as [|d l IH]; intros m0; simpl; [by intros [= <-]|].
  destruct (day_scan sorted_events (d + days 1)) as [w|] eqn:Hscan; [|done].
  apply day_scan_Ok in Hscan as ->. simpl. apply IH.
Qed.

Lemma days_foldM_returns sorted_events l (m0 : gmap date day_entry) :
  Forall (λ e, ev_status e ≠ Absent) sorted_events →
  foldM (λ (day_map : gmap date day_entry) (day_start : datetime),
           worst ← day_scan sorted_events (day_start + days 1);
           Ok (<[date_of day_start :=
                   {| entry_severity := None; entry_status := worst.1 |}]> day_map))
        m0 l
  = Ok (foldl (λ (m : gmap date day_entry) (day_start : datetime),
                 <[date_of day_start :=
                     {| entry_severity := None;
                        entry_status :=
                          (running_worst sorted_events (day_start + days 1)).1 |}]> m)
              m0 l).
Proof.
  intros Hall. revert m0. induction l as [|d l IH]; intros m0; simpl; [done|].
  rewrite day_scan_returns by (eapply Forall_impl; [exact Hall|]; auto).
  simpl. apply IH.
Qed.

Lemma bind_Ok {A B} (a : A) (f : A → result B) : (Ok a ≫= f) = f a.
Proof. done. Qed.

Lemma bind_Raise {A B} e (f : A → result B) : (Raise e ≫= f) = Raise e.
Proof. done. Qed.

Lemma daily_summary_Ok end_date events daily :
  daily_summary (end_date - days 90) end_date events = Ok daily →
  ∃ init,
    (events = [] ∧ init = OPERATIONAL
     ∨ ∃ e0, head events = Some e0 ∧ ev_status e0 = Value init)
    ∧ daily = daily_entries (end_date - days 90) end_date events init.
Proof.
  unfold daily_summary.
  set (initial := match events with
                  | [] => Ok OPERATIONAL
                  | _ :: _ =>
                      first_event ← getitem events 0;
                      raw ← getitem_status first_event;
                      ServiceStatusEnum_of raw
                  end).
  assert (Hinit : ∀ init, initial = Ok init →
                          events = [] ∧ init = OPERATIONAL
                          ∨ ∃ e0, head events = Some e0 ∧ ev_status e0 = Value init).
  { subst initial. intros init. destruct events as [|e0 rest]; [intros [= <-]; by left|].
    unfold getitem. cbn [lookup list_lookup]. rewrite bind_Ok. unfold getitem_status.
    destruct (ev_status e0) as [| |s] eqn:Hst; cbv iota;
      rewrite ?bind_Ok, ?bind_Raise; unfold ServiceStatusEnum_of; [done|done|].
    intros [= <-]. right. by exists e0. }
  destruct initial as [init|]; [|by rewrite bind_Raise].
  rewrite bind_Ok. cbv beta zeta.
  match goal with
  | |- context [foldM ?f ?m ?l] => destruct (foldM f m l) as [m2|] eqn:Hfold
  end; [|by rewrite bind_Raise].
  rewrite bind_Ok.
  intros [= <-]. exists init. split; [by apply Hinit|].
  apply days_foldM_inv in Hfold as ->.
  apply daily_list_of_day_map2. apply sort_by_Permutation.
Qed.

Lemma daily_summary_returns end_date events e0 init :
  head events = Some e0 → ev_status e0 = Value init →
  Forall (λ e, ev_status e ≠ Absent) events →
  daily_summary (end_date - days 90) end_date events
  = Ok (daily_entries (end_date - days 90) end_date events init).
Proof.
  intros Hhead Hst Hall.
  unfold daily_summary.
  destruct events as [|e0' rest]; [done|]. injection Hhead as ->.
  unfold getitem. cbn [lookup list_lookup]. rewrite bind_Ok.
  unfold getitem_status. rewrite Hst. cbv iota.
  rewrite bind_Ok. unfold ServiceStatusEnum_of. cbv iota.
  rewrite bind_Ok. cbv beta zeta.
  rewrite days_foldM_returns by (by rewrite sort_by_Permutation).
  rewrite bind_Ok. f_equal.
  apply daily_list_of_day_map2. apply sort_by_Permutation.
Qed.

Lemma length_daily_entries start_date end_date events init :
  length (daily_entries start_date end_date events init) = 91%nat.
Proof. unfold daily_entries. by rewrite length_fmap, length_seqZ. Qed.
End daily_summary_result.

(** ** When [get_service_uptime] returns *)

Section uptime_returns.
Import Public UptimeSpec.

Lemma history_query_elem sid utcnow db e :
  e ∈ history_query sid utcnow db →
  e ∈ service_status_history db ∧ ev_service_id e = sid.
Proof.
  unfold history_query. rewrite sort_by_Permutation. unfold find.
  rewrite list_elem_of_filter, !andb_True, bool_decide_spec. tauto.
Qed.

Lemma initial_query_elem sid utcnow db e :
  e ∈ initial_query sid utcnow db →
  e ∈ service_status_history db ∧ ev_service_id e = sid.
Proof.
  unfold initial_query. intros He%(subseteq_take 1).
  revert He. rewrite sort_by_Permutation. unfold find.
  rewrite list_elem_of_filter, !andb_True, bool_decide_spec. tauto.
Qed.

Lemma build_events_returns sid svc start_date end_date isd history :
  Forall has_status (option_list (head isd) ++ history) →
  build_events sid svc start_date end_date isd history
  = Ok (timeline sid (status svc) start_date end_date (head isd) history)
  ∧ Forall has_status
      (timeline sid (status svc) start_date end_date (head isd) history).
Proof.
  intros Hall.
  set (tl := timeline sid (status svc) start_date end_date (head isd) history).
  assert (Htl : Forall has_status tl).
  { subst tl. unfold timeline.
    set (real := match option_list (head isd) ++ history with
                 | [] => [ {| ev_service_id := sid; ev_status := Value (status svc);
                              ev_timestamp := start_date |} ]
                 | l => l
                 end).
    assert (Hreal : Forall has_status real).
    { subst real. destruct (option_list (head isd) ++ history); [|done].
      repeat constructor. by eexists. }
    apply Forall_app. split; [done|]. repeat constructor.
    destruct (last real) as [e|] eqn:Hlast; simpl.
    - apply last_Some_elem_of in Hlast. rewrite Forall_forall in Hreal.
      destruct (Hreal e Hlast) as [s Hs]. exists s. by rewrite Hs.
    - apply last_None in Hlast. subst real.
      by destruct (option_list (head isd) ++ history). }
  split; [|done].
  destruct (build_events sid svc start_date end_date isd history) as [events|e] eqn:Hb.
  { by rewrite (build_events_timeline _ _ _ _ _ _ _ Hb). }
  exfalso. revert Hb. unfold build_events.
  assert (match isd with d :: _ => [] ++ [d] | [] => [] end = option_list (head isd))
    as -> by (by destruct isd).
  set (L := option_list (head isd) ++ history) in *.
  set (synth := {| ev_service_id := sid; ev_status := Value (status svc);
                   ev_timestamp := start_date |}).
  assert (match L with [] => L ++ [synth] | _ :: _ => L end
          = match L with [] => [synth] | l => l end) as -> by (by destruct L).
  set (real := match L with [] => [synth] | l => l end).
  assert (Hreal : Forall has_status real).
  { subst real. clearbody L. destruct L; [|done]. repeat constructor. by eexists. }
  unfold getitem. rewrite Nat.sub_1_r, <-last_lookup.
  destruct (last real) as [e'|] eqn:Hlast.
  - rewrite bind_Ok. apply last_Some_elem_of in Hlast.
    rewrite Forall_forall in Hreal. destruct (Hreal e' Hlast) as [s Hs].
    unfold getitem_status. by rewrite Hs.
  - apply last_None in Hlast. subst real. by destruct L.
Qed.

Lemma query_results_have_status sid utcnow db :
  well_formed_log sid (service_status_history db) →
  Forall has_status
    (option_list (head (initial_query sid utcnow db)) ++ history_query sid utcnow db).
Proof.
  intros Hwf. apply Forall_app. split; apply Forall_forall; intros e He.
  - destruct (initial_query sid utcnow db) as [|c l] eqn:Hq; simpl in He;
      [by apply elem_of_nil in He|].
    apply list_elem_of_singleton in He as ->.
    destruct (initial_query_elem sid utcnow db c) as [H1 H2];
      [rewrite Hq; left|by apply Hwf].
  - destruct (history_query_elem sid utcnow db e He) as [H1 H2]. by apply Hwf.
Qed.

Lemma timeline_head sid live start_date end_date carry_in in_window :
  ∃ e0, head (timeline sid live start_date end_date carry_in in_window) = Some e0.
Proof.
  unfold timeline.
  destruct (option_list carry_in ++ in_window) as [|e l]; simpl; eauto.
Qed.

Lemma get_service_uptime_returns utcnow slug_ sid db org svc :
  org_by_slug slug_ db = Some org →
  service_of_org sid org db = Some svc →
  well_formed_log sid (service_status_history db) →
  ∃ init,
    (ev_status <$> head (events_of sid svc utcnow db)) = Some (Value init)
    ∧ get_service_uptime utcnow slug_ sid db
      = Ok {| overall_uptime_percentage :=
                round4 (overall_percentage svc
                          (upDuration (intervals (events_of sid svc utcnow db)))
                          (totalDuration (intervals (events_of sid svc utcnow db))));
              daily_statuses :=
                daily_entries (utcnow - days 90) utcnow
                  (events_of sid svc utcnow db) init |}.
Proof.
  intros Horg Hsvc Hwf.
  rewrite (get_service_uptime_unfold _ _ _ _ _ _ Horg Hsvc).
  destruct (build_events_returns sid svc (utcnow - days 90) utcnow
              (initial_query sid utcnow db) (history_query sid utcnow db))
    as [-> Hall]; [by apply query_results_have_status|].
  fold (events_of sid svc utcnow db) in *. rewrite bind_Ok.
  destruct (timeline_head sid (status svc) (utcnow - days 90) utcnow
              (head (initial_query sid utcnow db)) (history_query sid utcnow db))
    as [e0 He0].
  fold (events_of sid svc utcnow db) in He0.
  assert (has_status e0) as [init Hinit].
  { rewrite Forall_forall in Hall. apply Hall. by apply head_Some_elem_of. }
  exists init. split; [by rewrite He0; simpl; rewrite Hinit|].
  rewrite (daily_summary_returns utcnow _ e0 init He0 Hinit).
  - by rewrite bind_Ok.
  - eapply Forall_impl; [exact Hall|]. intros e [s Hs]. by rewrite Hs.
Qed.
End uptime_returns.

(** ** The uptime percentage *)

Section uptime_claims.
Import Public UptimeSpec.

(** C1, amended. [get_service_uptime] returns whenever the organization and the
    service exist and the events of the service carry statuses the enum
    accepts.  Whenever it returns, the percentage is the one of the
    specified algorithm: intervals between consecutive events of the
    timeline (optional carry-in event, in-window events in ascending order
    of timestamp, terminal event at the end of the window); Maintenance
    intervals count in neither accumulator, every other interval counts in
    [totalDuration] and, when its status is Operational or Degraded
    Performance, in [upDuration].  When [totalDuration > 0] the result is the
    float of a decimal with four places that is at most half a unit of the
    fourth place, and the [10^-13] that the float operations can add, away
    from [100 * upDuration / totalDuration]; otherwise it is 100 when the
    live status is up and 0 when it is not. *)
Theorem get_service_uptime_overall utcnow slug_ sid db org svc :
  org_by_slug slug_ db = Some org →
  service_of_org sid org db = Some svc →
  let log := service_status_history db in
  let window_start := utcnow - days 90 in
  (well_formed_log sid log → is_Ok (get_service_uptime utcnow slug_ sid db) = true)
  ∧ ∀ r, get_service_uptime utcnow slug_ sid db = Ok r →
      ∃ carry_in in_window,
        is_carry_in sid window_start log carry_in
        ∧ in_window_sorted sid window_start utcnow log in_window
        ∧ overallUptimePercentage (1 # 10000000000000) (status svc)
            (intervals (timeline sid (status svc) window_start utcnow
                          carry_in in_window))
            (overall_uptime_percentage r).
Proof.
  intros Horg Hsvc log window_start. split.
  - intros Hwf.
    destruct (get_service_uptime_returns utcnow slug_ sid db org svc Horg Hsvc Hwf)
      as (init & _ & ->). done.
  - intros r Hr.
    apply get_service_uptime_Ok_inv in Hr
      as (org' & svc' & events & Horg' & Hsvc' & Hev & _ & Hoverall).
    rewrite Horg in Horg'. injection Horg' as <-.
    rewrite Hsvc in Hsvc'. injection Hsvc' as <-.
    apply build_events_timeline in Hev. subst events.
    exists (head (initial_query sid utcnow db)), (history_query sid utcnow db).
    assert (is_carry_in sid window_start log (head (initial_query sid utcnow db)))
      as Hcarry by apply initial_status_doc_carry_in.
    assert (in_window_sorted sid window_start utcnow log (history_query sid utcnow db))
      as Hwindow by apply history_in_window.
    split_and!; [done..|].
    rewrite Hoverall. apply overall_percentage_spec, intervals_nonneg.
    by apply (timeline_sorted _ _ _ log).
Qed.

Lemma get_service_uptime_overall_witness :
  let log := service_status_history Scenario.db in
  let window_start := Scenario.utcnow - days 90 in
  (well_formed_log 7 log →
   is_Ok (get_service_uptime Scenario.utcnow "acme" 7 Scenario.db) = true)
  ∧ ∀ r, get_service_uptime Scenario.utcnow "acme" 7 Scenario.db = Ok r →
      ∃ carry_in in_window,
        is_carry_in 7 window_start log carry_in
        ∧ in_window_sorted 7 window_start Scenario.utcnow log in_window
        ∧ overallUptimePercentage (1 # 10000000000000) (status Scenario.api)
            (intervals (timeline 7 (status Scenario.api) window_start
                          Scenario.utcnow carry_in in_window))
            (overall_uptime_percentage r).
Proof.
  apply (get_service_uptime_overall Scenario.utcnow "acme" 7 Scenario.db
           Scenario.acme Scenario.api); reflexivity.
Defined.

(** The events of [Scenario.db_late] leave one timeline to the query. *)
Lemma db_late_timeline carry_in in_window :
  let log := service_status_history Scenario.db_late in
  let window_start := Scenario.utcnow_late - days 90 in
  is_carry_in 7 window_start log carry_in →
  in_window_sorted 7 window_start Scenario.utcnow_late log in_window →
  carry_in = None ∧ in_window = [Scenario.created_late; Scenario.outage_late].
Proof.
  intros log window_start Hcarry [Hperm Hsorted]. split.
  - destruct carry_in as [c|]; [|done].
    destruct Hcarry as (Hc & _ & Hts & _). exfalso.
    apply elem_of_cons in Hc as [->|Hc];
      [|apply list_elem_of_singleton in Hc as ->]; vm_compute in Hts; done.
  - assert (filter (λ e, ev_service_id e = 7
                         ∧ window_start ≤ ev_timestamp e ≤ Scenario.utcnow_late) log
            = [Scenario.created_late; Scenario.outage_late]) as Hlog
      by (by vm_compute).
    rewrite Hlog in Hperm. symmetry in Hperm.
    apply Permutation_length_2_inv in Hperm as [->| ->]; [done|].
    apply StronglySorted_inv in Hsorted as [_ Hle].
    apply Forall_cons in Hle as [Hle _]. vm_compute in Hle. done.
Qed.

(** The claim as it is stated, with the exact quotient rounded to four
    places, fails.  For the service of [Scenario.db_late], up for 528843.445
    of 2486434.31919 seconds, [100 * upDuration / totalDuration] is
    21.26915000000000462..., whose nearest decimal with four places is
    21.2692.  The float computation of the quotient ends just below 21.26915,
    and the endpoint returns the float of 21.2691. *)
Lemma get_service_uptime_rounds_the_float :
  let log := service_status_history Scenario.db_late in
  let window_start := Scenario.utcnow_late - days 90 in
  ∃ r, get_service_uptime Scenario.utcnow_late "acme" 7 Scenario.db_late = Ok r
       ∧ overall_uptime_percentage r == Float.fl (212691 # 10000)
       ∧ ∀ carry_in in_window,
           is_carry_in 7 window_start log carry_in →
           in_window_sorted 7 window_start Scenario.utcnow_late log in_window →
           ¬ overallUptimePercentage 0 (status Scenario.api)
               (intervals (timeline 7 (status Scenario.api) window_start
                             Scenario.utcnow_late carry_in in_window))
               (overall_uptime_percentage r).
Proof.
  intros log window_start.
  destruct (get_service_uptime_returns Scenario.utcnow_late "acme" 7 Scenario.db_late
              Scenario.acme Scenario.api) as (init & _ & Hr); [done|done| |].
  { intros e [->|He]%elem_of_cons; [by eexists|].
    apply list_elem_of_singleton in He as ->. by eexists. }
  eexists. split; [exact Hr|]. cbn [overall_uptime_percentage].
  set (r := round4 _).
  assert (r == Float.fl (212691 # 10000)) as Hvalue by (by vm_compute).
  split; [done|].
  intros carry_in in_window Hcarry Hwindow.
  destruct (db_late_timeline carry_in in_window Hcarry Hwindow) as [-> ->].
  unfold overallUptimePercentage. rewrite decide_True by (by vm_compute).
  intros (k & Hk & Hlo & Hhi). rewrite Hvalue in Hk. clear Hvalue Hr.
  assert (100 * inject_Z (upDuration (intervals (timeline 7 (status Scenario.api)
                 window_start Scenario.utcnow_late None
                 [Scenario.created_late; Scenario.outage_late])))
          / inject_Z (totalDuration (intervals (timeline 7 (status Scenario.api)
                 window_start Scenario.utcnow_late None
                 [Scenario.created_late; Scenario.outage_late])))
          == 52884344500000 # 2486434319190) as Hq by (by vm_compute).
  rewrite Hq in Hlo, Hhi.
  assert (k = 212692) as ->.
  { unfold Qle, Qminus, Qplus, Qopp in Hlo, Hhi. cbn in Hlo, Hhi. lia. }
  vm_compute in Hk. done.
Qed.
End uptime_claims.

(** ** The daily statuses *)

Section daily_claims.
Import Public UptimeSpec.

(** Every successful call returns the ninety-one entries of [daily_entries]. *)
Lemma get_service_uptime_daily utcnow slug_ sid db r :
  get_service_uptime utcnow slug_ sid db = Ok r →
  ∃ org svc init,
    org_by_slug slug_ db = Some org
    ∧ service_of_org sid org db = Some svc
    ∧ (ev_status <$> head (events_of sid svc utcnow db)) = Some (Value init)
    ∧ daily_statuses r
      = daily_entries (utcnow - days 90) utcnow (events_of sid svc utcnow db) init.
Proof.
  intros Hr.
  apply get_service_uptime_Ok_inv in Hr
    as (org & svc & events & Horg & Hsvc & Hev & Hdaily & _).
  apply build_events_timeline in Hev. fold (events_of sid svc utcnow db) in Hev.
  subst events.
  apply daily_summary_Ok in Hdaily as (init & [[Hnil _]|(e0 & Hhead & Hst)] & Hd).
  { destruct (timeline_head sid (status svc) (utcnow - days 90) utcnow
                (head (initial_query sid utcnow db)) (history_query sid utcnow db))
      as [e0 He0].
    fold (events_of sid svc utcnow db) in He0. by rewrite Hnil in He0. }
  exists org, svc, init. split_and!; [done..| |done].
  by rewrite Hhead; simpl; rewrite Hst.
Qed.

Lemma daily_entries_lookup_bucket start_date end_date events init (n : nat) :
  (n < 90)%nat →
  daily_entries start_date end_date events init !! n
  = Some {| du_date := date_of end_date - 90 + Z.of_nat n;
            du_status :=
              (running_worst events (bucket_end start_date (Z.of_nat n))).1 |}.
Proof.
  intros Hn. unfold daily_entries. rewrite list_lookup_fmap.
  rewrite lookup_seqZ_lt by lia. simpl. rewrite bool_decide_true by lia.
  replace (date_of end_date - 90 + Z.of_nat n - (date_of end_date - 90))
    with (Z.of_nat n) by lia.
  done.
Qed.

Lemma daily_entries_lookup_last start_date end_date events init :
  daily_entries start_date end_date events init !! 90%nat
  = Some {| du_date := date_of end_date; du_status := init |}.
Proof.
  unfold daily_entries. rewrite list_lookup_fmap.
  rewrite lookup_seqZ_lt by lia. simpl. rewrite bool_decide_false by lia.
  repeat f_equal. lia.
Qed.

(** The first ninety entries are the day buckets of the window, each with the
    worst status observed before its end. *)
Lemma daily_buckets_running_worst utcnow slug_ sid db r (n : nat) :
  get_service_uptime utcnow slug_ sid db = Ok r →
  (n < 90)%nat →
  ∃ org svc d,
    org_by_slug slug_ db = Some org
    ∧ service_of_org sid org db = Some svc
    ∧ daily_statuses r !! n = Some d
    ∧ du_date d = date_of (bucket_start (utcnow - days 90) (Z.of_nat n))
    ∧ is_worst_before (events_of sid svc utcnow db)
        (bucket_end (utcnow - days 90) (Z.of_nat n)) (du_status d).
Proof.
  intros Hr Hn.
  apply get_service_uptime_daily in Hr as (org & svc & init & Horg & Hsvc & _ & ->).
  exists org, svc. eexists. split_and!; [done|done| | |].
  - by apply daily_entries_lookup_bucket.
  - simpl. unfold bucket_start. rewrite date_of_add_days, date_of_sub_days. lia.
  - simpl. apply running_worst_is_worst.
Qed.

(** Over the day buckets the severity never decreases, whatever the log. *)
Lemma daily_buckets_monotone utcnow slug_ sid db r :
  get_service_uptime utcnow slug_ sid db = Ok r →
  severity_nondecreasing (take 90 (daily_statuses r)).
Proof.
  intros Hr.
  apply get_service_uptime_daily in Hr as (org & svc & init & _ & _ & _ & ->).
  intros i j a b Ha Hb Hij.
  apply lookup_take_Some in Ha as [Ha Hi]. apply lookup_take_Some in Hb as [Hb Hj].
  rewrite daily_entries_lookup_bucket in Ha by done.
  rewrite daily_entries_lookup_bucket in Hb by done.
  injection Ha as <-. injection Hb as <-. simpl.
  apply running_worst_mono. unfold bucket_end, days, usec_per_day. lia.
Qed.

(** C2. On the status page of [Scenario] the call returns ninety-one daily
    entries, not ninety: the ninety day buckets of the window and one more
    entry for the date of the query, whose status is the status of the first
    event of the timeline (Operational) although a Major Outage event lies
    before the end of the window.  With an empty log the list has ninety-one
    entries as well. *)
Theorem daily_statuses_ninety_one :
  (∃ r, get_service_uptime Scenario.utcnow "acme" 7 Scenario.db = Ok r
        ∧ length (daily_statuses r) = 91%nat
        ∧ last (daily_statuses r)
          = Some {| du_date := date_of Scenario.utcnow; du_status := OPERATIONAL |}
        ∧ Scenario.outage ∈ events_of 7 Scenario.api Scenario.utcnow Scenario.db
        ∧ ev_timestamp Scenario.outage < Scenario.utcnow
        ∧ severity_map OPERATIONAL < severity_map (interval_status Scenario.outage))
  ∧ (∃ r, get_service_uptime Scenario.utcnow "acme" 7 Scenario.db_no_history = Ok r
          ∧ length (daily_statuses r) = 91%nat).
Proof.
  split.
  - destruct (get_service_uptime Scenario.utcnow "acme" 7 Scenario.db) as [r|e] eqn:Hr;
      [|by vm_compute in Hr].
    exists r. split; [done|].
    assert (daily_statuses r
            = daily_entries (Scenario.utcnow - days 90) Scenario.utcnow
                (events_of 7 Scenario.api Scenario.utcnow Scenario.db) OPERATIONAL) as ->.
    { apply get_service_uptime_daily in Hr as (org & svc & init & Horg & Hsvc & Hi & ->).
      vm_compute in Horg. injection Horg as <-.
      vm_compute in Hsvc. injection Hsvc as <-.
      vm_compute in Hi. by injection Hi as <-. }
    split_and!.
    + apply length_daily_entries.
    + rewrite last_lookup, length_daily_entries. apply daily_entries_lookup_last.
    + vm_compute. apply list_elem_of_lookup. by exists 1%nat.
    + by vm_compute.
    + by vm_compute.
  - destruct (get_service_uptime Scenario.utcnow "acme" 7 Scenario.db_no_history)
      as [r|e] eqn:Hr; [|by vm_compute in Hr].
    exists r. split; [done|].
    apply get_service_uptime_daily in Hr as (org & svc & init & _ & _ & _ & ->).
    apply length_daily_entries.
Qed.

(** C6. On the status page of [Scenario] the log holds one worsening event
    (Operational to Major Outage) and no recovery, and the daily statuses in
    ascending order of date end with Major Outage followed by Operational:
    they are not non-decreasing in severity. *)
Theorem daily_statuses_not_monotone :
  ∃ r, get_service_uptime Scenario.utcnow "acme" 7 Scenario.db = Ok r
       ∧ daily_statuses r !! 89%nat
         = Some {| du_date := date_of Scenario.utcnow - 1; du_status := MAJOR_OUTAGE |}
       ∧ daily_statuses r !! 90%nat
         = Some {| du_date := date_of Scenario.utcnow; du_status := OPERATIONAL |}
       ∧ ¬ severity_nondecreasing (daily_statuses r).
Proof.
  destruct (get_service_uptime Scenario.utcnow "acme" 7 Scenario.db) as [r|e] eqn:Hr;
    [|by vm_compute in Hr].
  exists r. split; [done|].
  assert (H89 : daily_statuses r !! 89%nat
                = Some {| du_date := date_of Scenario.utcnow - 1;
                          du_status := MAJOR_OUTAGE |}).
  { vm_compute in Hr. injection Hr as <-. by vm_compute. }
  assert (H90 : daily_statuses r !! 90%nat
                = Some {| du_date := date_of Scenario.utcnow;
                          du_status := OPERATIONAL |}).
  { vm_compute in Hr. injection Hr as <-. by vm_compute. }
  split_and!; [done..|].
  intros Hmono.
  specialize (Hmono 89%nat 90%nat _ _ H89 H90). simpl in Hmono. lia.
Qed.
End daily_claims.

(** ** Collections: lookups and updates *)

Section store_facts.
Context {A : Type}.

Lemma find_one_Some (p : A → bool) c d :
  find_one p c = Some d → d ∈ c ∧ p d = true.
Proof.
  induction c as [|x c IH]; simpl; [done|].
  destruct (p x) eqn:Hp.
  - intros [= <-]. split; [left|done].
  - intros [Hin Hd]%IH. split; [by right|done].
Qed.

Lemma find_one_None (p : A → bool) c :
  find_one p c = None ↔ ∀ d, d ∈ c → p d = false.
Proof.
  induction c as [|x c IH]; simpl.
  - split; [|done]. intros _ d Hd. by apply elem_of_nil in Hd.
  - destruct (p x) eqn:Hp.
    + split; [done|]. intros H. specialize (H x ltac:(left)). congruence.
    + rewrite IH. split.
      * intros H d [->|Hd]%elem_of_cons; auto.
      * intros H d Hd. apply H. by right.
Qed.

Lemma find_one_app_fresh (p : A → bool) c d :
  find_one p c = None → p d = true → find_one p (c ++ [d]) = Some d.
Proof.
  induction c as [|x c IH]; simpl; [by intros _ ->|].
  destruct (p x); [done|]. apply IH.
Qed.

Lemma find_one_app_old (p : A → bool) c c' d :
  find_one p c = Some d → find_one p (c ++ c') = Some d.
Proof.
  induction c as [|x c IH]; simpl; [done|]. destruct (p x); [done|]. apply IH.
Qed.

(** After [update_one], the first document that matches is the updated one,
    when the update keeps it matching. *)
Lemma find_one_update_first (p : A → bool) (f : A → A) c d :
  find_one p c = Some d → p (f d) = true →
  find_one p (update_first p f c) = Some (f d).
Proof.
  induction c as [|x c IH]; simpl; [done|].
  destruct (p x) eqn:Hp; simpl.
  - intros [= ->] ->. done.
  - rewrite Hp. apply IH.
Qed.

Lemma update_first_None (p : A → bool) (f : A → A) c :
  find_one p c = None → update_first p f c = c.
Proof.
  induction c as [|x c IH]; simpl; [done|].
  destruct (p x); [done|]. intros H. by rewrite IH.
Qed.

End store_facts.

Lemma fresh_id_fresh ids : fresh_id ids ∉ ids.
Proof.
  assert (∀ x, x ∈ ids → x < fresh_id ids) as Hlt.
  { unfold fresh_id. induction ids as [|y ids IH]; intros x Hx;
      [by apply elem_of_nil in Hx|].
    simpl. apply elem_of_cons in Hx as [->|Hx]; [lia|].
    specialize (IH x Hx). lia. }
  intros Hin. specialize (Hlt _ Hin). lia.
Qed.

(** ** Unfolding the state and exception monad *)

Ltac unfold_M :=
  unfold mbind, M_bind, mret, M_ret, raise, get_db, put_db in *.

Lemma M_bind_Ok {A B} (c : M A) (f : A → M B) db a db' :
  c db = (Ok a, db') → (c ≫= f) db = f a db'.
Proof. unfold mbind, M_bind. by intros ->. Qed.

Lemma M_bind_Raise {A B} (c : M A) (f : A → M B) db e db' :
  c db = (Raise e, db') → (c ≫= f) db = (Raise e, db').
Proof. unfold mbind, M_bind. by intros ->. Qed.

Lemma any_member_spec uid roles ms :
  Organizations.any_member uid roles ms = true
  ↔ ∃ m, m ∈ ms ∧ user_id m = uid ∧ role m ∈ roles.
Proof.
  unfold Organizations.any_member. rewrite existsb_exists. split.
  - intros (m & Hin & Hm). exists m.
    apply andb_true_iff in Hm as [H1%bool_decide_eq_true H2%bool_decide_eq_true].
    by rewrite list_elem_of_In.
  - intros (m & Hin & H1 & H2). exists m. rewrite <-list_elem_of_In.
    split; [done|]. by rewrite andb_true_iff, !bool_decide_eq_true.
Qed.

Lemma is_member_spec uid ms :
  Organizations.is_member uid ms = true ↔ ∃ m, m ∈ ms ∧ user_id m = uid.
Proof.
  unfold Organizations.is_member. rewrite existsb_exists. split.
  - intros (m & Hin & Hm%bool_decide_eq_true). exists m.
    by rewrite list_elem_of_In.
  - intros (m & Hin & H1). exists m. rewrite <-list_elem_of_In.
    by rewrite bool_decide_eq_true.
Qed.

(** ** [unsubscribe_from_updates] *)

Section unsubscribe.
Import Public.

Lemma unsubscribe_response slug_ email_ db :
  (unsubscribe_from_updates slug_ email_ db).1
  = Ok {| status_code := 200; message := "Your request has been processed." |}.
Proof.
  unfold unsubscribe_from_updates. unfold_M.
  by destruct (find_one _ (organizations db)).
Qed.

(** C10. Any two calls of [unsubscribe_from_updates] get the same response,
    status 200 with the message "Your request has been processed.", whether
    or not the slug resolves and whether or not the address is subscribed;
    the effect on the database differs: a call whose slug resolves deletes
    the subscriptions of the address, a call whose slug does not resolve
    leaves the database as it is. *)
Theorem unsubscribe_reveals_nothing :
  (∀ slug1 email1 db1 slug2 email2 db2,
     (unsubscribe_from_updates slug1 email1 db1).1
     = (unsubscribe_from_updates slug2 email2 db2).1
     ∧ (unsubscribe_from_updates slug1 email1 db1).1
       = Ok {| status_code := 200; message := "Your request has been processed." |})
  ∧ (∀ slug_ email_ db,
       find_one (λ o, bool_decide (slug o = slug_)) (organizations db) = None →
       (unsubscribe_from_updates slug_ email_ db).2 = db)
  ∧ (∀ slug_ email_ db org,
       find_one (λ o, bool_decide (slug o = slug_)) (organizations db) = Some org →
       subscribers (unsubscribe_from_updates slug_ email_ db).2
       = filter (λ s, ¬ (sub_email s = email_ ∧ sub_org_id s = org_id org))
           (subscribers db)).
Proof.
  split_and!.
  - intros. by rewrite !unsubscribe_response.
  - intros slug_ email_ db Hnone. unfold unsubscribe_from_updates. unfold_M.
    by rewrite Hnone.
  - intros slug_ email_ db org Horg. unfold unsubscribe_from_updates. unfold_M.
    rewrite Horg. simpl. unfold delete_many. apply list_filter_iff.
    intros s. by rewrite andb_True, !bool_decide_spec.
Qed.
End unsubscribe.

Lemma unsubscribe_reveals_nothing_witness :
  (Public.unsubscribe_from_updates "nowhere" "dan@example.org" Scenario.db).2
  = Scenario.db
  ∧ subscribers (Public.unsubscribe_from_updates "acme" "dan@example.org" Scenario.db).2
    = filter (λ s, ¬ (sub_email s = "dan@example.org" ∧ sub_org_id s = org_id Scenario.acme))
        (subscribers Scenario.db).
Proof.
  destruct unsubscribe_reveals_nothing as (_ & Hnone & Hsome). split.
  - apply Hnone. reflexivity.
  - apply Hsome. reflexivity.
Defined.

(** ** Organization members *)

Section organization_members.
Import Organizations.

(** C4. On an existing organization, [remove_organization_member] and
    [update_organization_member_role] fail whenever the target is the owner
    of the organization, and [update_organization_member_role] fails whenever
    the requested role is OWNER; each of these failures leaves the database,
    and so the membership of the organization, as it was. *)
Theorem organization_owner_protected :
  (∀ org_id_ target payload db org,
     organization_by_id org_id_ db = Some org → target = owner_id org →
     ∃ e, remove_organization_member org_id_ target payload db = (Raise e, db))
  ∧ (∀ utcnow org_id_ target role_data payload db org,
       organization_by_id org_id_ db = Some org → target = owner_id org →
       ∃ e, update_organization_member_role utcnow org_id_ target role_data payload db
            = (Raise e, db))
  ∧ (∀ utcnow org_id_ target payload db,
       ∃ e, update_organization_member_role utcnow org_id_ target OWNER payload db
            = (Raise e, db)).
Proof.
  split_and!.
  - intros org_id_ target payload db org Horg ->.
    unfold remove_organization_member. unfold_M.
    destruct (truthy (sub payload)); simpl; [|by eexists].
    destruct (user_by_auth0_id (sub payload) db) as [u|]; [|by eexists].
    rewrite Horg.
    destruct (negb _); [by eexists|].
    rewrite bool_decide_true by done. by eexists.
  - intros utcnow org_id_ target role_data payload db org Horg ->.
    unfold update_organization_member_role. unfold_M.
    destruct (truthy (sub payload)); simpl; [|by eexists].
    destruct (user_by_auth0_id (sub payload) db) as [u|]; [|by eexists].
    rewrite Horg.
    destruct (negb _); [by eexists|].
    destruct (bool_decide (role_data = OWNER)); [by eexists|].
    rewrite bool_decide_true by done. by eexists.
  - intros utcnow org_id_ target payload db.
    unfold update_organization_member_role. unfold_M.
    destruct (truthy (sub payload)); simpl; [|by eexists].
    destruct (user_by_auth0_id (sub payload) db) as [u|]; [|by eexists].
    destruct (organization_by_id org_id_ db) as [org|]; [|by eexists].
    destruct (negb _); by eexists.
Qed.

Lemma organization_owner_protected_witness :
  (∃ e, remove_organization_member 1 10 (Scenario.token Scenario.alice) Scenario.db
        = (Raise e, Scenario.db))
  ∧ (∃ e, update_organization_member_role 5 1 10 MEMBER
            (Scenario.token Scenario.alice) Scenario.db
          = (Raise e, Scenario.db)).
Proof.
  destruct organization_owner_protected as (Hremove & Hrole & _). split.
  - apply (Hremove 1 10 (Scenario.token Scenario.alice) Scenario.db Scenario.acme);
      reflexivity.
  - apply (Hrole 5 1 10 MEMBER (Scenario.token Scenario.alice) Scenario.db Scenario.acme);
      reflexivity.
Defined.
End organization_members.

(** ** Creating an organization *)

Section create_organization.
Import Organizations.

Lemma truthy_Some o : truthy o = true → ∃ s, o = Some s.
Proof. destruct o; [eauto|done]. Qed.

Lemma user_update_lookup sub_ us user_doc updated :
  find_one (λ u, bool_decide (Some (auth0_id u) = sub_)) us = Some user_doc →
  user_id_ updated = user_id_ user_doc →
  Some (auth0_id updated) = sub_ →
  ∃ u, find_one (λ u, bool_decide (Some (auth0_id u) = sub_))
         (update_first (λ u, bool_decide (user_id_ u = user_id_ user_doc))
            (λ _, updated) us) = Some u
       ∧ user_id_ u = user_id_ user_doc.
Proof.
  intros Hfind Hid Hauth. induction us as [|x us IH]; simpl in *; [done|].
  destruct (bool_decide (user_id_ x = user_id_ user_doc)) eqn:Hx; simpl.
  - rewrite bool_decide_true by done. by exists updated.
  - destruct (bool_decide (Some (auth0_id x) = sub_)) eqn:Ha.
    + injection Hfind as ->. by rewrite bool_decide_true in Hx.
    + by apply IH.
Qed.

(** The data of a new user that the model [User] refuses end the call with
    the 400, and the database is as it was. *)
Lemma find_or_create_user_refused utcnow payload db :
  user_by_auth0_id (sub payload) db = None →
  find_or_create_user false utcnow payload db
  = (Raise (HTTPException 400 "Invalid user data from token"), db).
Proof. intros Hnone. unfold find_or_create_user. unfold_M. by rewrite Hnone. Qed.

(** Otherwise the user of the token exists after the call, under the returned
    id; an existing user keeps its id; the organizations are not touched. *)
Lemma find_or_create_user_spec valid_user utcnow payload db :
  truthy (sub payload) = true →
  valid_user = true ∨ user_by_auth0_id (sub payload) db ≠ None →
  ∃ db' u,
    find_or_create_user valid_user utcnow payload db = (Ok (user_id_ u), db')
    ∧ user_by_auth0_id (sub payload) db' = Some u
    ∧ organizations db' = organizations db
    ∧ (∀ u0, user_by_auth0_id (sub payload) db = Some u0 → user_id_ u = user_id_ u0).
Proof.
  intros [s Hs]%truthy_Some Hvalid. unfold find_or_create_user. unfold_M.
  destruct (user_by_auth0_id (sub payload) db) as [user_doc|] eqn:Huser.
  - destruct (_ || _) eqn:Hchange.
    + simpl.
      edestruct (user_update_lookup (sub payload) (users db) user_doc) as (u & Hu & Hid);
        [exact Huser|..|].
      3:{ eexists _, u. split_and!; [by rewrite Hid|exact Hu|done|].
          intros u0 [= <-]. done. }
      * done.
      * simpl. by apply find_one_Some in Huser as [_ ?%bool_decide_eq_true].
    + exists db, user_doc. split_and!; [done..|]. by intros u0 [= <-].
  - destruct Hvalid as [->|Hknown]; [|done]. simpl.
    set (new := {| user_id_ := fresh_id (user_id_ <$> users db);
                   auth0_id := default "" (sub payload) |}).
    eexists _, new. split_and!; [reflexivity| |done|done].
    unfold user_by_auth0_id. simpl. apply find_one_app_fresh; [done|].
    apply bool_decide_eq_true. simpl. by rewrite Hs.
Qed.

(** A call that returns had a token with [sub] and [email], and a user that
    was known or whose data the model accepted. *)
Lemma create_organization_Ok_inv valid_user utcnow org_in payload db org db' :
  create_organization valid_user utcnow org_in payload db = (Ok org, db') →
  truthy (sub payload) = true ∧ truthy (tp_email payload) = true
  ∧ (valid_user = true ∨ user_by_auth0_id (sub payload) db ≠ None).
Proof.
  intros Hcreate.
  assert (truthy (sub payload) = true ∧ truthy (tp_email payload) = true) as [Hsub Hemail].
  { unfold create_organization in Hcreate. unfold_M.
    destruct (truthy (sub payload)), (truthy (tp_email payload)); done. }
  split_and!; [done..|].
  destruct valid_user; [by left|right]. intros Hnone.
  unfold create_organization in Hcreate.
  erewrite M_bind_Ok in Hcreate; [|reflexivity].
  rewrite Hsub, Hemail in Hcreate. cbn [negb orb] in Hcreate.
  erewrite M_bind_Raise in Hcreate; [|by apply find_or_create_user_refused].
  done.
Qed.

Lemma create_organization_returns valid_user utcnow org_in payload db :
  truthy (sub payload) = true → truthy (tp_email payload) = true →
  valid_user = true ∨ user_by_auth0_id (sub payload) db ≠ None →
  ∃ org db' u,
    create_organization valid_user utcnow org_in payload db = (Ok org, db')
    ∧ user_by_auth0_id (sub payload) db' = Some u
    ∧ (∀ u0, user_by_auth0_id (sub payload) db = Some u0 → user_id_ u = user_id_ u0)
    ∧ organizations db' = organizations db ++ [org]
    ∧ organization_by_id (org_id org) db' = Some org
    ∧ owner_id org = user_id_ u
    ∧ members org = [ {| user_id := user_id_ u; role := ADMIN |} ].
Proof.
  intros Hsub Hemail Hvalid.
  destruct (find_or_create_user_spec valid_user utcnow payload db Hsub Hvalid)
    as (db1 & u & Hfc & Hu & Horgs & Hold).
  unfold create_organization.
  erewrite M_bind_Ok; [|reflexivity]. rewrite Hsub, Hemail. cbn [negb orb].
  erewrite M_bind_Ok; [|exact Hfc]. unfold_M.
  set (org := {| org_id := fresh_id (org_id <$> organizations db1);
                 owner_id := user_id_ u |}).
  assert (Hfind : organization_by_id (org_id org)
                    (set_organizations (organizations db1 ++ [org]) db1) = Some org).
  { unfold organization_by_id. simpl. apply find_one_app_fresh.
    - apply find_one_None. intros o Ho. apply bool_decide_eq_false. intros Heq.
      apply (fresh_id_fresh (org_id <$> organizations db1)). rewrite <-Heq.
      by apply list_elem_of_fmap_2.
    - by apply bool_decide_eq_true. }
  simpl in Hfind. rewrite Hfind.
  exists org. eexists _, u. split_and!; [reflexivity|done|done| |done|done|done].
  simpl. by rewrite Horgs.
Qed.

(** C9. After a successful [create_organization] the organization is stored
    with the internal id of the creating user as [owner_id] and with exactly
    one member: this user with role ADMIN.  The members-based check of
    [add_organization_member] (a member with role ADMIN or OWNER) therefore
    accepts the creator: a call by the creator on the new organization does
    not end in the 403 of the permission check. *)
Theorem create_organization_owner_admin valid_user utcnow org_in payload db org db' :
  create_organization valid_user utcnow org_in payload db = (Ok org, db') →
  ∃ u, user_by_auth0_id (sub payload) db' = Some u
       ∧ (∀ u0, user_by_auth0_id (sub payload) db = Some u0 → user_id_ u = user_id_ u0)
       ∧ organization_by_id (org_id org) db' = Some org
       ∧ owner_id org = user_id_ u
       ∧ members org = [ {| user_id := user_id_ u; role := ADMIN |} ]
       ∧ any_member (user_id_ u) [ADMIN; OWNER] (members org) = true
       ∧ ∀ now member_data,
           (add_organization_member now (org_id org) member_data payload db').1
           ≠ Raise (HTTPException 403 "User does not have permission to add members.").
Proof.
  intros Hcreate.
  destruct (create_organization_Ok_inv _ _ _ _ _ _ _ Hcreate) as (Hsub & Hemail & Hvalid).
  destruct (create_organization_returns valid_user utcnow org_in payload db
              Hsub Hemail Hvalid)
    as (org1 & db1 & u & Hret & Hu & Hold & _ & Hstored & Howner & Hmembers).
  rewrite Hret in Hcreate. injection Hcreate as <- <-.
  assert (Hany : any_member (user_id_ u) [ADMIN; OWNER] (members org1) = true).
  { rewrite Hmembers. simpl. by rewrite bool_decide_true. }
  exists u. split_and!; [done..|].
  intros now member_data.
  unfold add_organization_member. unfold_M. rewrite Hsub. simpl.
  rewrite Hu, Hstored, Hany. simpl.
  destruct (user_by_email _ _); [|done].
  destruct (is_member _ _); [done|].
  unfold get_organization, update_organization_doc. unfold_M. simpl.
  repeat case_match; simplify_eq; done.
Qed.

Lemma create_organization_owner_admin_witness :
  ∃ org db',
    create_organization true 5 {| oc_name := "New Org"; oc_logo_url := None |}
      (Scenario.token Scenario.bob) Scenario.db = (Ok org, db')
    ∧ ∃ u, user_by_auth0_id (sub (Scenario.token Scenario.bob)) db' = Some u
           ∧ (∀ u0, user_by_auth0_id (sub (Scenario.token Scenario.bob)) Scenario.db
                    = Some u0 → user_id_ u = user_id_ u0)
           ∧ organization_by_id (org_id org) db' = Some org
           ∧ owner_id org = user_id_ u
           ∧ members org = [ {| user_id := user_id_ u; role := ADMIN |} ]
           ∧ any_member (user_id_ u) [ADMIN; OWNER] (members org) = true
           ∧ ∀ now member_data,
               (add_organization_member now (org_id org) member_data
                  (Scenario.token Scenario.bob) db').1
               ≠ Raise (HTTPException 403 "User does not have permission to add members.").
Proof.
  eexists _, _. split; [vm_compute; reflexivity|].
  apply (create_organization_owner_admin true 5
           {| oc_name := "New Org"; oc_logo_url := None |}
           (Scenario.token Scenario.bob) Scenario.db).
  vm_compute. reflexivity.
Defined.
End create_organization.

(** ** Adding a member to an organization *)

Section add_organization_member.
Import Organizations.

Lemma listed_admin_or_owner_spec uid ms :
  any_member uid [ADMIN; OWNER] ms = true ↔ listed_admin_or_owner uid ms.
Proof.
  rewrite any_member_spec. unfold listed_admin_or_owner.
  split; intros (m & Hin & Hid & Hrole); exists m; split_and!; try done.
  - apply elem_of_cons in Hrole as [?|Hrole]; [by left|].
    apply elem_of_cons in Hrole as [?|Hrole]; [by right|].
    by apply elem_of_nil in Hrole.
  - destruct Hrole as [-> | ->]; [left|right; left].
Qed.

(** C3. The owner of an organization is to be allowed to add members.
    [add_organization_member] consults the member list alone: Carol owns the
    organization [legacy] but is not listed among its members, and her call
    ends in the 403 of the permission check, the database being as it was.
    The sibling endpoints compare [owner_id] with the caller: on the same
    organization the same Carol passes the permission checks of
    [remove_organization_member] and of [update_organization_member_role],
    and the database after her calls has Alice removed, or Alice with the
    new role. *)
Theorem add_organization_member_owner_denied :
  user_by_auth0_id (sub (Scenario.token Scenario.carol)) Scenario.db = Some Scenario.carol
  ∧ organization_by_id 2 Scenario.db = Some Scenario.legacy
  ∧ user_id_ Scenario.carol = owner_id Scenario.legacy
  ∧ add_organization_member 5 2 {| ma_email := "bob@acme.io"; ma_role := MEMBER |}
      (Scenario.token Scenario.carol) Scenario.db
    = (Raise (HTTPException 403 "User does not have permission to add members."),
       Scenario.db)
  ∧ members <$> organization_by_id 2
                  (remove_organization_member 2 10 (Scenario.token Scenario.carol)
                     Scenario.db).2
    = Some []
  ∧ members <$> organization_by_id 2
                  (update_organization_member_role 5 2 10 MEMBER
                     (Scenario.token Scenario.carol) Scenario.db).2
    = Some [ {| user_id := 10; role := MEMBER |} ].
Proof. split_and!; by vm_compute. Qed.

(** The permission check of [add_organization_member] as the code makes it.
    On an existing organization the call ends in the 403 of the check exactly
    when the acting user is not listed in [org.members] with role ADMIN or
    OWNER ([owner_id] is not consulted); in that case the database, and so
    the member list, is unchanged. *)
Theorem add_organization_member_permission utcnow org_id_ member_data payload db actor org :
  truthy (sub payload) = true →
  user_by_auth0_id (sub payload) db = Some actor →
  organization_by_id org_id_ db = Some org →
  ((add_organization_member utcnow org_id_ member_data payload db).1
   = Raise (HTTPException 403 "User does not have permission to add members.")
   ↔ ¬ listed_admin_or_owner (user_id_ actor) (members org))
  ∧ (¬ listed_admin_or_owner (user_id_ actor) (members org) →
     (add_organization_member utcnow org_id_ member_data payload db).2 = db).
Proof.
  intros Hsub Hactor Horg. rewrite <-listed_admin_or_owner_spec.
  unfold add_organization_member. unfold_M. rewrite Hsub. simpl.
  rewrite Hactor, Horg.
  destruct (any_member (user_id_ actor) [ADMIN; OWNER] (members org)); simpl.
  - split; [|done]. split; [|done]. intros H403. exfalso. revert H403.
    destruct (user_by_email _ _); [|done].
    destruct (is_member _ _); [done|].
    unfold get_organization, update_organization_doc. unfold_M. simpl.
    repeat case_match; simplify_eq; done.
  - split; [|done]. split; [|done]. intros _. done.
Qed.

Lemma add_organization_member_permission_witness :
  ((add_organization_member 5 1 {| ma_email := "nobody@acme.io"; ma_role := MEMBER |}
      (Scenario.token Scenario.bob) Scenario.db).1
   = Raise (HTTPException 403 "User does not have permission to add members.")
   ↔ ¬ listed_admin_or_owner (user_id_ Scenario.bob) (members Scenario.acme))
  ∧ (¬ listed_admin_or_owner (user_id_ Scenario.bob) (members Scenario.acme) →
     (add_organization_member 5 1 {| ma_email := "nobody@acme.io"; ma_role := MEMBER |}
        (Scenario.token Scenario.bob) Scenario.db).2 = Scenario.db).
Proof.
  apply (add_organization_member_permission 5 1
           {| ma_email := "nobody@acme.io"; ma_role := MEMBER |}
           (Scenario.token Scenario.bob) Scenario.db Scenario.bob Scenario.acme);
    reflexivity.
Defined.
End add_organization_member.

(** ** Team members *)

Section team_members.
Import Organizations Teams.

Lemma add_team_member_Ok_inv utcnow team_id_ member_data payload db team1 db1 :
  add_team_member utcnow team_id_ member_data payload db = (Ok team1, db1) →
  ∃ team,
    team_by_id team_id_ db = Some team
    ∧ is_Some (organization_by_id (organization_id team) db)
    ∧ team1 = set_team_updated_at utcnow
                (set_team_members
                   (team_members team
                    ++ [ {| user_id := tm_user_id member_data;
                            role := tm_role member_data |} ]) team)
    ∧ db1 = set_teams
              (update_first (λ t, bool_decide (team_id t = team_id_))
                 (λ t, set_team_updated_at utcnow
                         (set_team_members
                            (team_members t
                             ++ [ {| user_id := tm_user_id member_data;
                                     role := tm_role member_data |} ]) t))
                 (teams db)) db.
Proof.
  unfold add_team_member, update_team_doc. unfold_M.
  destruct (truthy (sub payload)); simpl; [|done].
  destruct (user_by_auth0_id (sub payload) db) as [requester|]; [|done].
  destruct (team_by_id team_id_ db) as [team|] eqn:Hteam; [|done].
  destruct (organization_by_id (organization_id team) db) as [org|] eqn:Horg; [|done].
  destruct (negb _); [done|].
  destruct (user_by_id _ _); [|done].
  destruct (negb _); [done|].
  destruct (is_member _ (team_members team)); [done|].
  simpl.
  destruct (bool_decide _); [done|].
  unfold team_by_id in *. simpl.
  erewrite find_one_update_first; [|exact Hteam|].
  2:{ simpl. by apply find_one_Some in Hteam as [_ ?]. }
  intros [= <- <-]. exists team. split_and!; [done|by eexists|done|done].
Qed.

Lemma num_admins_app ms ms' : num_admins (ms ++ ms') = (num_admins ms + num_admins ms')%nat.
Proof. unfold num_admins. by rewrite filter_app, length_app. Qed.

Lemma any_member_app uid roles ms ms' :
  any_member uid roles (ms ++ ms') = any_member uid roles ms || any_member uid roles ms'.
Proof. unfold any_member. apply existsb_app. Qed.

Lemma pull_member_shorter uid ms m :
  find_one (λ m, bool_decide (user_id m = uid)) ms = Some m →
  pull_member uid ms ≠ ms.
Proof.
  intros [Hin Hid%bool_decide_eq_true]%find_one_Some Heq.
  rewrite <-Heq in Hin. unfold pull_member in Hin.
  apply list_elem_of_filter in Hin as [Hne _]. done.
Qed.

(** The successful path of [remove_team_member]. *)
Lemma remove_team_member_Ok utcnow team_id_ target payload db requester team org m :
  truthy (sub payload) = true →
  user_by_auth0_id (sub payload) db = Some requester →
  team_by_id team_id_ db = Some team →
  organization_by_id (organization_id team) db = Some org →
  find_one (λ m, bool_decide (user_id m = target)) (team_members team) = Some m →
  let is_org_owner_or_admin :=
    bool_decide (owner_id org = user_id_ requester)
    || any_member (user_id_ requester) [ADMIN] (members org) in
  let is_team_admin := any_member (user_id_ requester) [ADMIN] (team_members team) in
  is_org_owner_or_admin || is_team_admin = true →
  bool_decide (target = user_id_ requester) && bool_decide (role m = ADMIN)
  && (num_admins (team_members team) <=? 1)%nat = false →
  negb is_org_owner_or_admin && is_team_admin && bool_decide (role m = ADMIN)
  && bool_decide (target ≠ user_id_ requester) = false →
  let f := λ t, set_team_updated_at utcnow
                  (set_team_members (pull_member target (team_members t)) t) in
  remove_team_member utcnow team_id_ target payload db
  = (Ok (f team),
     set_teams (update_first (λ t, bool_decide (team_id t = team_id_)) f (teams db)) db)
  ∧ team_by_id team_id_
      (set_teams (update_first (λ t, bool_decide (team_id t = team_id_)) f (teams db)) db)
    = Some (f team).
Proof.
  intros Hsub Hreq Hteam Horg Hm owner_or_admin team_admin Hauth Hd1 Hd2 f.
  assert (Hmod : f team ≠ team).
  { intros Heq. apply (f_equal team_members) in Heq. simpl in Heq.
    by apply pull_member_shorter in Hm. }
  assert (Hafter : team_by_id team_id_
                     (set_teams (update_first (λ t, bool_decide (team_id t = team_id_)) f
                                   (teams db)) db) = Some (f team)).
  { unfold team_by_id. simpl.
    erewrite find_one_update_first; [reflexivity|exact Hteam|].
    simpl. by apply find_one_Some in Hteam as [_ ?]. }
  split; [|done].
  unfold remove_team_member, update_team_doc. unfold_M. rewrite Hsub. simpl.
  rewrite Hreq, Hteam, Horg. fold owner_or_admin team_admin. rewrite Hauth. simpl.
  rewrite Hm, Hd1, Hd2. fold f. clearbody f.
  unfold update_result. unfold team_by_id in Hteam. rewrite Hteam.
  rewrite decide_False by done. simpl.
  by rewrite Hafter.
Qed.

(** C5. For a requester who passes the permission check of
    [remove_team_member] (organization owner, organization ADMIN or team
    ADMIN): removing oneself while being the team's only ADMIN fails with the
    400 of the validation and leaves the database unchanged; a team ADMIN
    who is neither the owner nor an ADMIN of the organization is refused with
    403 when removing another member whose role is ADMIN; and once a second
    ADMIN has been added to the team, the first admin removes themself
    successfully. *)
Theorem remove_team_member_admin_rules
    utcnow team_id_ target payload db requester team org m :
  truthy (sub payload) = true →
  user_by_auth0_id (sub payload) db = Some requester →
  team_by_id team_id_ db = Some team →
  organization_by_id (organization_id team) db = Some org →
  find_one (λ m, bool_decide (user_id m = target)) (team_members team) = Some m →
  role m = ADMIN →
  let is_org_owner_or_admin :=
    bool_decide (owner_id org = user_id_ requester)
    || any_member (user_id_ requester) [ADMIN] (members org) in
  let is_team_admin := any_member (user_id_ requester) [ADMIN] (team_members team) in
  is_org_owner_or_admin || is_team_admin = true →
  (target = user_id_ requester → (num_admins (team_members team) ≤ 1)%nat →
   remove_team_member utcnow team_id_ target payload db
   = (Raise (HTTPException 400
               "Cannot remove the only admin from the team. Assign another admin first or delete the team."),
      db))
  ∧ (is_team_admin = true → is_org_owner_or_admin = false →
     target ≠ user_id_ requester →
     remove_team_member utcnow team_id_ target payload db
     = (Raise (HTTPException 403
                 "Team admins cannot remove other team admins. This requires organization level admin rights."),
        db))
  ∧ (target = user_id_ requester →
     ∀ now1 second payload1 team1 db1,
       second ≠ user_id_ requester →
       add_team_member now1 team_id_ {| tm_user_id := second; tm_role := ADMIN |}
         payload1 db = (Ok team1, db1) →
       ∃ team2 db2,
         remove_team_member utcnow team_id_ target payload db1 = (Ok team2, db2)
         ∧ team_by_id team_id_ db2 = Some team2
         ∧ team_members team2 = pull_member target (team_members team1)).
Proof.
  intros Hsub Hreq Hteam Horg Hm Hrole owner_or_admin team_admin Hauth.
  split_and!.
  - intros -> Hlone. unfold remove_team_member. unfold_M. rewrite Hsub. simpl.
    rewrite Hreq, Hteam, Horg. fold owner_or_admin team_admin. rewrite Hauth. simpl.
    rewrite Hm, Hrole. rewrite !bool_decide_true by done. simpl.
    apply Nat.leb_le in Hlone. by rewrite Hlone.
  - intros Hta Hnot Hother. unfold remove_team_member. unfold_M. rewrite Hsub. simpl.
    rewrite Hreq, Hteam, Horg. fold owner_or_admin team_admin. rewrite Hauth. simpl.
    rewrite Hm, Hrole. rewrite (bool_decide_false (target = _)) by done. simpl.
    rewrite Hnot, Hta. simpl. by rewrite !bool_decide_true by done.
  - intros -> now1 second payload1 team1 db1 Hsecond Hadd.
    apply add_team_member_Ok_inv in Hadd as (team' & Hteam' & _ & -> & ->).
    rewrite Hteam in Hteam'. injection Hteam' as <-. simpl.
    set (new := {| user_id := second; role := ADMIN |}).
    set (team1 := set_team_updated_at now1
                    (set_team_members (team_members team ++ [new]) team)).
    set (db1 := set_teams _ db).
    assert (Hteam1 : team_by_id team_id_ db1 = Some team1).
    { unfold team_by_id, db1. simpl.
      erewrite find_one_update_first; [done|exact Hteam|].
      simpl. by apply find_one_Some in Hteam as [_ ?]. }
    assert (Hm1 : find_one (λ m, bool_decide (user_id m = user_id_ requester))
                    (team_members team1) = Some m).
    { simpl. by apply find_one_app_old. }
    assert (Hadmins : (num_admins (team_members team1) <=? 1)%nat = false).
    { apply Nat.leb_gt. simpl. rewrite num_admins_app.
      assert (1 ≤ num_admins (team_members team))%nat.
      { unfold num_admins.
        apply find_one_Some in Hm as [Hin _].
        assert (m ∈ filter (λ m, role m = ADMIN) (team_members team)) as Hf
          by (by apply list_elem_of_filter).
        destruct (filter _ (team_members team)); [by apply elem_of_nil in Hf|simpl; lia]. }
      change (num_admins [new]) with 1%nat. lia. }
    assert (Hauth1 : owner_or_admin
                     || any_member (user_id_ requester) [ADMIN] (team_members team1) = true).
    { simpl. rewrite any_member_app. fold team_admin.
      destruct owner_or_admin, team_admin; done. }
    destruct (remove_team_member_Ok utcnow team_id_ (user_id_ requester) payload db1
                requester team1 org m) as [Hremove Hafter]; try done.
    + by rewrite Hadmins, andb_false_r.
    + rewrite (bool_decide_false (user_id_ requester ≠ user_id_ requester))
        by (intros H; done).
      by rewrite andb_false_r.
    + eexists _, _. split_and!; [exact Hremove|exact Hafter|done].
Qed.
Lemma remove_team_member_admin_rules_witness :
  (11 = user_id_ Scenario.bob →
   (num_admins (team_members Scenario.sre) ≤ 1)%nat →
   remove_team_member 5 3 11 (Scenario.token Scenario.bob) Scenario.db
   = (Raise (HTTPException 400
               "Cannot remove the only admin from the team. Assign another admin first or delete the team."),
      Scenario.db))
  ∧ (any_member (user_id_ Scenario.bob) [ADMIN] (team_members Scenario.sre) = true →
     bool_decide (owner_id Scenario.acme = user_id_ Scenario.bob)
     || any_member (user_id_ Scenario.bob) [ADMIN] (members Scenario.acme) = false →
     11 ≠ user_id_ Scenario.bob →
     remove_team_member 5 3 11 (Scenario.token Scenario.bob) Scenario.db
     = (Raise (HTTPException 403
                 "Team admins cannot remove other team admins. This requires organization level admin rights."),
        Scenario.db))
  ∧ (11 = user_id_ Scenario.bob →
     ∀ now1 second payload1 team1 db1,
       second ≠ user_id_ Scenario.bob →
       add_team_member now1 3 {| tm_user_id := second; tm_role := ADMIN |}
         payload1 Scenario.db = (Ok team1, db1) →
       ∃ team2 db2,
         remove_team_member 5 3 11 (Scenario.token Scenario.bob) db1 = (Ok team2, db2)
         ∧ team_by_id 3 db2 = Some team2
         ∧ team_members team2 = pull_member 11 (team_members team1)).
Proof.
  apply (remove_team_member_admin_rules 5 3 11 (Scenario.token Scenario.bob) Scenario.db
           Scenario.bob Scenario.sre Scenario.acme {| user_id := 11; role := ADMIN |});
    reflexivity.
Defined.

(** The scenario of the third rule, run: Bob, the only admin of the team,
    cannot leave; Alice adds Carol as a second admin; Bob then leaves. *)
Lemma lone_admin_then_second_admin :
  ∃ team1 db1 team2 db2,
    (remove_team_member 5 3 11 (Scenario.token Scenario.bob) Scenario.db).1
    = Raise (HTTPException 400
               "Cannot remove the only admin from the team. Assign another admin first or delete the team.")
    ∧ add_team_member 6 3 {| tm_user_id := 12; tm_role := ADMIN |}
        (Scenario.token Scenario.alice) Scenario.db = (Ok team1, db1)
    ∧ remove_team_member 7 3 11 (Scenario.token Scenario.bob) db1 = (Ok team2, db2)
    ∧ team_members team2 = [ {| user_id := 12; role := ADMIN |} ].
Proof. eexists _, _, _, _. split_and!; vm_compute; reflexivity. Qed.
End team_members.

(** ** Updating a service *)

Section update_service.
Import Services.

Lemma get_organization_if_member_state org_id_ user db :
  (get_organization_if_member org_id_ user db).2 = db.
Proof.
  unfold get_organization_if_member, except_reraise. unfold_M.
  destruct (find_one _ (organizations db)); [done|].
  by destruct (Organizations.organization_by_id org_id_ db).
Qed.

Lemma get_organization_if_member_result org_id_ user db :
  (∃ org, get_organization_if_member org_id_ user db = (Ok org, db))
  ∨ (∃ code detail,
       get_organization_if_member org_id_ user db
       = (Raise (HTTPException code detail), db)).
Proof.
  unfold get_organization_if_member, except_reraise. unfold_M.
  destruct (find_one _ (organizations db)); [left; by eexists|].
  destruct (Organizations.organization_by_id org_id_ db); right; by eexists _, _.
Qed.

(** The update of the stored service. *)
Lemma service_by_id_update sid f db svc :
  service_by_id sid db = Some svc →
  service_id_ (f svc) = service_id_ svc →
  service_by_id sid
    (set_services (update_first (λ s, bool_decide (service_id_ s = sid)) f (services db)) db)
  = Some (f svc).
Proof.
  intros Hsvc Hid. unfold service_by_id in *. simpl.
  erewrite find_one_update_first; [done|exact Hsvc|].
  rewrite Hid. by apply find_one_Some in Hsvc as [_ ?].
Qed.

(** What [update_service] does once the service is found and the user is
    allowed: nothing for an empty payload, the update otherwise. *)
Lemma update_service_authorized now_entry now_update sid u user db svc org :
  service_by_id sid db = Some svc →
  get_organization_if_member (service_org_id svc) user db = (Ok org, db) →
  let push :=
    match su_status u with
    | Some new =>
        if bool_decide (new ≠ status svc) then
          Some {| old_status := Some (status svc); new_status := new;
                  timestamp := now_entry |}
        else None
    | None => None
    end in
  update_service now_entry now_update sid u user db
  = if bool_decide (su_name u = None) && bool_decide (su_status u = None)
    then (Ok svc, db)
    else (Ok (apply_service_update push u now_update svc),
          set_services
            (update_first (λ s, bool_decide (service_id_ s = sid))
               (apply_service_update push u now_update) (services db)) db).
Proof.
  intros Hsvc Hauth push.
  unfold update_service, except_reraise.
  erewrite M_bind_Ok; [|reflexivity]. rewrite Hsvc.
  erewrite M_bind_Ok; [|exact Hauth].
  destruct (bool_decide (su_name u = None) && bool_decide (su_status u = None)); [done|].
  fold push. unfold_M.
  by rewrite (service_by_id_update sid _ db svc Hsvc).
Qed.

Lemma update_service_unauthorized now_entry now_update sid u user db svc code detail :
  service_by_id sid db = Some svc →
  get_organization_if_member (service_org_id svc) user db
  = (Raise (HTTPException code detail), db) →
  update_service now_entry now_update sid u user db
  = (Raise (HTTPException code detail), db).
Proof.
  intros Hsvc Hauth.
  unfold update_service, except_reraise.
  erewrite M_bind_Ok; [|reflexivity]. rewrite Hsvc.
  by erewrite M_bind_Raise; [|exact Hauth].
Qed.

(** C7. When [update_service] reaches its update (the service exists and the
    user belongs to its organization) with a payload whose status differs
    from the current one, the stored service has exactly one new entry at the
    end of [status_history], with the previous status as [old_status], the
    incoming status as [new_status] and the time of the call as [timestamp];
    the entries it had are unchanged.  When the payload has no status, or the
    current status, [status_history] is unchanged, whatever the outcome of the
    call. *)
Theorem update_service_status_history now_entry now_update sid u user db svc :
  service_by_id sid db = Some svc →
  (∀ new org,
     su_status u = Some new → new ≠ status svc →
     get_organization_if_member (service_org_id svc) user db = (Ok org, db) →
     ∃ svc' db',
       update_service now_entry now_update sid u user db = (Ok svc', db')
       ∧ service_by_id sid db' = Some svc'
       ∧ status_history svc'
         = status_history svc
           ++ [ {| old_status := Some (status svc); new_status := new;
                   timestamp := now_entry |} ])
  ∧ (su_status u = None ∨ su_status u = Some (status svc) →
     ∃ svc', service_by_id sid (update_service now_entry now_update sid u user db).2
             = Some svc'
             ∧ status_history svc' = status_history svc).
Proof.
  intros Hsvc. split.
  - intros new org Hnew Hdiff Hauth.
    rewrite (update_service_authorized _ _ _ _ _ _ _ _ Hsvc Hauth).
    rewrite Hnew. rewrite (bool_decide_false (Some new = None)) by done.
    rewrite andb_false_r. rewrite bool_decide_true by done.
    eexists _, _. split_and!; [reflexivity| |done].
    by apply service_by_id_update.
  - intros Hsame.
    destruct (get_organization_if_member_result (service_org_id svc) user db)
      as [[org Hauth]|(code & detail & Hauth)].
    + rewrite (update_service_authorized _ _ _ _ _ _ _ _ Hsvc Hauth).
      destruct (bool_decide (su_name u = None) && bool_decide (su_status u = None));
        [by exists svc|].
      eexists. split; [by apply service_by_id_update|]. simpl.
      destruct Hsame as [-> | ->]; [done|].
      by rewrite bool_decide_false by (intros H; done).
    + rewrite (update_service_unauthorized _ _ _ _ _ _ _ _ _ Hsvc Hauth).
      by exists svc.
Qed.

Lemma update_service_status_history_witness :
  (∀ new org,
     su_status {| su_name := None; su_status := Some OPERATIONAL |} = Some new →
     new ≠ status Scenario.api →
     get_organization_if_member (service_org_id Scenario.api) Scenario.alice Scenario.db
     = (Ok org, Scenario.db) →
     ∃ svc' db',
       update_service 8 9 7 {| su_name := None; su_status := Some OPERATIONAL |}
         Scenario.alice Scenario.db = (Ok svc', db')
       ∧ service_by_id 7 db' = Some svc'
       ∧ status_history svc'
         = status_history Scenario.api
           ++ [ {| old_status := Some (status Scenario.api); new_status := new;
                   timestamp := 8 |} ])
  ∧ (su_status {| su_name := None; su_status := Some OPERATIONAL |} = None
     ∨ su_status {| su_name := None; su_status := Some OPERATIONAL |}
       = Some (status Scenario.api) →
     ∃ svc',
       service_by_id 7
         (update_service 8 9 7 {| su_name := None; su_status := Some OPERATIONAL |}
            Scenario.alice Scenario.db).2 = Some svc'
       ∧ status_history svc' = status_history Scenario.api).
Proof.
  apply (update_service_status_history 8 9 7
           {| su_name := None; su_status := Some OPERATIONAL |}
           Scenario.alice Scenario.db Scenario.api).
  reflexivity.
Defined.

(** The recovery of the service of [Scenario], run. *)
Lemma update_service_recovery :
  ∃ svc' db',
    update_service 8 9 7 {| su_name := None; su_status := Some OPERATIONAL |}
      Scenario.alice Scenario.db = (Ok svc', db')
    ∧ status svc' = OPERATIONAL
    ∧ status_history svc'
      = [ {| old_status := Some MAJOR_OUTAGE; new_status := OPERATIONAL; timestamp := 8 |} ].
Proof. eexists _, _. split_and!; vm_compute; reflexivity. Qed.
End update_service.

(** ** The slug loop of [create_organization] terminates *)

Section slug_loop.
Import Organizations.

Lemma slug_taken_spec s orgs : slug_taken s orgs = true ↔ s ∈ slug <$> orgs.
Proof.
  unfold slug_taken. rewrite bool_decide_eq_true. split.
  - intros [o [Hin Ho%bool_decide_eq_true]%find_one_Some]. rewrite <-Ho.
    by apply list_elem_of_fmap_2.
  - intros (o & -> & Hin)%list_elem_of_fmap.
    destruct (find_one _ orgs) eqn:Hfind; [by eexists|].
    rewrite find_one_None in Hfind. specialize (Hfind o Hin).
    by rewrite bool_decide_true in Hfind.
Qed.

Lemma string_app_nil_r (s : string) : s +:+ "" = s.
Proof.
  induction s as [|a s IH]; [done|].
  change (String a (s +:+ "") = String a s). by rewrite IH.
Qed.

Lemma slug_candidate_inj base_slug j k :
  slug_candidate base_slug j = slug_candidate base_slug k → j = k.
Proof.
  destruct j as [|j], k as [|k]; simpl; [done| | |].
  - intros H. rewrite <-(string_app_nil_r base_slug) in H at 1.
    by apply (inj (String.app base_slug)) in H.
  - intros H. rewrite <-(string_app_nil_r base_slug) in H at 2.
    by apply (inj (String.app base_slug)) in H.
  - intros H. apply (inj (String.app base_slug)) in H.
    apply (inj (String.app "-")) in H. by apply (inj pretty) in H.
Qed.

Lemma slug_loop_None fuel base_slug k orgs :
  slug_loop fuel base_slug (slug_candidate base_slug k) (S k) orgs = None →
  ∀ j, (k ≤ j ≤ k + fuel)%nat → slug_candidate base_slug j ∈ slug <$> orgs.
Proof.
  revert k. induction fuel as [|fuel IH]; intros k; simpl.
  - destruct (slug_taken _ orgs) eqn:Htaken; [|done].
    intros _ j Hj. replace j with k by lia. by apply slug_taken_spec.
  - destruct (slug_taken _ orgs) eqn:Htaken; [|done].
    intros Hloop j Hj. destruct (decide (j = k)) as [->|Hne].
    + by apply slug_taken_spec.
    + apply (IH (S k)); [exact Hloop|lia].
Qed.

Lemma slug_loop_fuel base_slug orgs :
  is_Some (slug_loop (length orgs) base_slug base_slug 1 orgs).
Proof.
  destruct (slug_loop _ _ _ _ _) eqn:Hloop; [by eexists|]. exfalso.
  pose proof (slug_loop_None (length orgs) base_slug 0 orgs Hloop) as Hall.
  assert (slug_candidate base_slug <$> seq 0 (S (length orgs)) ⊆+ slug <$> orgs) as Hsub.
  { apply NoDup_submseteq.
    - apply NoDup_fmap_2_strong; [|apply NoDup_seq].
      intros j k _ _. apply slug_candidate_inj.
    - intros s (j & -> & Hj%elem_of_seq)%list_elem_of_fmap. apply Hall. lia. }
  apply submseteq_length in Hsub. rewrite !length_fmap, length_seq in Hsub. lia.
Qed.

(** The slug of a new organization is held by no organization yet. *)
Lemma unique_slug_free base_slug orgs :
  unique_slug base_slug orgs ∉ slug <$> orgs.
Proof.
  unfold unique_slug.
  destruct (slug_loop_fuel base_slug orgs) as [s Hs]. rewrite Hs. simpl.
  assert (∀ fuel cur counter, slug_loop fuel base_slug cur counter orgs = Some s →
                              slug_taken s orgs = false) as Hfree.
  { induction fuel as [|fuel IH]; intros cur counter; simpl.
    - destruct (slug_taken cur orgs) eqn:Ht; [done|]. by intros [= <-].
    - destruct (slug_taken cur orgs) eqn:Ht; [apply IH|]. by intros [= <-]. }
  specialize (Hfree _ _ _ Hs). intros Hin%slug_taken_spec. congruence.
Qed.
End slug_loop.

(** ** Updates with an empty payload *)

Section empty_payload.
Import Organizations Teams Services.

(** The claim as it is stated fails for [update_service]: with an empty
    payload the call succeeds and returns the service it found. *)
Lemma update_service_empty_payload_succeeds :
  update_service 8 9 7 {| su_name := None; su_status := None |}
    Scenario.alice Scenario.db
  = (Ok Scenario.api, Scenario.db).
Proof. by vm_compute. Qed.

(** C8, amended. With a payload in which no field is set,
    [update_organization] and [update_team] raise the 400 "no update data"
    error and leave the database unchanged.  [update_service] leaves the
    database unchanged as well ([updated_at] is not re-stamped), but the
    empty payload is no error there: when the service exists and the user
    belongs to its organization, the call returns the stored service. *)
Theorem empty_payload_updates :
  (∀ utcnow org_id_ payload db,
     update_organization utcnow org_id_ {| ou_name := None; ou_logo_url := None |}
       payload db
     = (Raise (HTTPException 400 "No update data provided."), db))
  ∧ (∀ utcnow team_id_ payload db,
       update_team utcnow team_id_ {| tu_name := None; tu_description := None |}
         payload db
       = (Raise (HTTPException 400 "No update data provided"), db))
  ∧ (∀ now_entry now_update sid user db,
       (update_service now_entry now_update sid {| su_name := None; su_status := None |}
          user db).2 = db
       ∧ ∀ svc org,
           service_by_id sid db = Some svc →
           get_organization_if_member (service_org_id svc) user db = (Ok org, db) →
           update_service now_entry now_update sid
             {| su_name := None; su_status := None |} user db
           = (Ok svc, db)).
Proof.
  split_and!.
  - done.
  - done.
  - intros now_entry now_update sid user db. split.
    + destruct (service_by_id sid db) as [svc|] eqn:Hsvc.
      * destruct (get_organization_if_member_result (service_org_id svc) user db)
          as [[org Hauth]|(code & detail & Hauth)].
        -- by rewrite (update_service_authorized _ _ _ _ _ _ _ _ Hsvc Hauth).
        -- by rewrite (update_service_unauthorized _ _ _ _ _ _ _ _ _ Hsvc Hauth).
      * unfold update_service, except_reraise.
        erewrite M_bind_Ok; [|reflexivity]. by rewrite Hsvc.
    + intros svc org Hsvc Hauth.
      by rewrite (update_service_authorized _ _ _ _ _ _ _ _ Hsvc Hauth).
Qed.

Lemma empty_payload_updates_witness :
  update_organization 5 1 {| ou_name := None; ou_logo_url := None |}
    (Scenario.token Scenario.alice) Scenario.db
  = (Raise (HTTPException 400 "No update data provided."), Scenario.db)
  ∧ update_team 5 3 {| tu_name := None; tu_description := None |}
      (Scenario.token Scenario.bob) Scenario.db
    = (Raise (HTTPException 400 "No update data provided"), Scenario.db)
  ∧ update_service 8 9 7 {| su_name := None; su_status := None |}
      Scenario.alice Scenario.db
    = (Ok Scenario.api, Scenario.db).
Proof.
  destruct empty_payload_updates as (Horg & Hteam & Hsvc). split_and!.
  - apply Horg.
  - apply Hteam.
  - apply (proj2 (Hsvc 8 9 7 Scenario.alice Scenario.db) Scenario.api Scenario.acme);
      reflexivity.
Defined.
End empty_payload.

(** * Further properties of the endpoints *)

(** ** The uptime percentage stays between 0 and 100 *)

Section uptime_range.
Import Public UptimeSpec.

(** X1. Whenever [get_service_uptime] returns, its percentage lies between 0
    and 100. *)
Theorem get_service_uptime_percentage_range utcnow slug_ sid db r :
  get_service_uptime utcnow slug_ sid db = Ok r →
  (0 <= overall_uptime_percentage r)%Q ∧ (overall_uptime_percentage r <= 100)%Q.
Proof.
  intros Hr.
  apply get_service_uptime_Ok_inv in Hr
    as (org & svc & events & Horg & Hsvc & Hev & _ & ->).
  apply build_events_timeline in Hev. subst events.
  apply overall_percentage_range, durations_ordered, intervals_nonneg.
  apply (timeline_sorted _ _ _ (service_status_history db)).
  - apply initial_status_doc_carry_in.
  - apply history_in_window.
Qed.

Lemma get_service_uptime_percentage_range_witness :
  ∃ r, get_service_uptime Scenario.utcnow "acme" 7 Scenario.db = Ok r
       ∧ (0 <= overall_uptime_percentage r)%Q ∧ (overall_uptime_percentage r <= 100)%Q.
Proof.
  eexists. split; [vm_compute; reflexivity|].
  apply (get_service_uptime_percentage_range Scenario.utcnow "acme" 7 Scenario.db).
  vm_compute. reflexivity.
Defined.
End uptime_range.

(** ** A service without events *)

Section uptime_no_history.
Import Public UptimeSpec.

Lemma find_nil {A} (p : A → bool) (c : list A) :
  (∀ d, d ∈ c → p d = false) → find p c = [].
Proof.
  intros Hp. unfold find. induction c as [|d c IH]; [done|].
  rewrite filter_cons. rewrite Hp by left. simpl.
  apply IH. intros d' Hd'. apply Hp. by right.
Qed.

Lemma events_of_no_history sid svc utcnow db :
  (∀ e, e ∈ service_status_history db → ev_service_id e ≠ sid) →
  events_of sid svc utcnow db
  = [ {| ev_service_id := sid; ev_status := Value (status svc);
         ev_timestamp := utcnow - days 90 |};
      {| ev_service_id := sid; ev_status := Value (status svc);
         ev_timestamp := utcnow |} ].
Proof.
  intros Hnone. unfold events_of, history_query, initial_query.
  rewrite !find_nil; [done|..].
  - intros e He. rewrite (bool_decide_false _ (Hnone e He)). done.
  - intros e He. rewrite (bool_decide_false _ (Hnone e He)). done.
Qed.

(** The timeline of a service without events: its current status from the
    start of the window to its end. *)
Lemma constant_timeline_percentage utcnow sid svc :
  let events :=
    [ {| ev_service_id := sid; ev_status := Value (status svc);
         ev_timestamp := utcnow - days 90 |};
      {| ev_service_id := sid; ev_status := Value (status svc);
         ev_timestamp := utcnow |} ] in
  round4 (overall_percentage svc (upDuration (intervals events))
            (totalDuration (intervals events)))
  == (if decide (is_up (status svc)) then 100 else 0).
Proof.
  intros events. unfold overall_percentage, events. simpl intervals.
  replace (utcnow - (utcnow - days 90)) with (days 90) by lia.
  destruct (status svc); by vm_compute.
Qed.

Lemma constant_timeline_daily utcnow sid st :
  Forall (λ d, du_status d = st)
    (daily_entries (utcnow - days 90) utcnow
       [ {| ev_service_id := sid; ev_status := Value st;
            ev_timestamp := utcnow - days 90 |};
         {| ev_service_id := sid; ev_status := Value st; ev_timestamp := utcnow |} ]
       st).
Proof.
  unfold daily_entries. apply Forall_fmap, Forall_forall.
  intros x Hx%elem_of_seqZ. simpl. case_bool_decide as Hlt; [|done].
  unfold running_worst, bucket_end, worst_step. simpl.
  set (day_end := utcnow - days 90 + days (x - (date_of utcnow - 90) + 1)).
  assert ((utcnow - days 90 <? day_end) = true) as ->
    by (apply Z.ltb_lt; unfold day_end, days, usec_per_day; lia).
  assert ((utcnow <? day_end) = false) as ->
    by (apply Z.ltb_ge; unfold day_end, days, usec_per_day; lia).
  by destruct st.
Qed.

(** X2. Without any event of the service in the log, the percentage is 100
    when the current status is Operational or Degraded Performance and 0
    otherwise (Maintenance included), and every daily entry carries the
    current status. *)
Theorem get_service_uptime_no_history utcnow slug_ sid db org svc :
  org_by_slug slug_ db = Some org →
  service_of_org sid org db = Some svc →
  (∀ e, e ∈ service_status_history db → ev_service_id e ≠ sid) →
  ∃ r, get_service_uptime utcnow slug_ sid db = Ok r
       ∧ overall_uptime_percentage r == (if decide (is_up (status svc)) then 100 else 0)
       ∧ Forall (λ d, du_status d = status svc) (daily_statuses r).
Proof.
  intros Horg Hsvc Hnone.
  destruct (get_service_uptime_returns utcnow slug_ sid db org svc Horg Hsvc)
    as (init & Hinit & ->).
  { intros e He Hsid. by destruct (Hnone e He). }
  rewrite (events_of_no_history sid svc utcnow db Hnone) in *.
  simpl in Hinit. injection Hinit as <-.
  eexists. split; [reflexivity|]. split.
  - apply constant_timeline_percentage.
  - apply constant_timeline_daily.
Qed.

Lemma get_service_uptime_no_history_witness :
  ∃ r, get_service_uptime Scenario.utcnow "acme" 7 Scenario.db_no_history = Ok r
       ∧ overall_uptime_percentage r
         == (if decide (is_up (status Scenario.api)) then 100 else 0)
       ∧ Forall (λ d, du_status d = status Scenario.api) (daily_statuses r).
Proof.
  apply (get_service_uptime_no_history Scenario.utcnow "acme" 7 Scenario.db_no_history
           Scenario.acme Scenario.api).
  - reflexivity.
  - reflexivity.
  - intros e He. by apply elem_of_nil in He.
Defined.
End uptime_no_history.

(** ** Failures of [get_service_uptime] *)

Section uptime_failures.
Import Public UptimeSpec.

Lemma get_service_uptime_Ok_or_500 utcnow slug_ sid db :
  (∃ r, get_service_uptime utcnow slug_ sid db = Ok r)
  ∨ get_service_uptime utcnow slug_ sid db
    = Raise (HTTPException 500 "Internal Server Error").
Proof.
  unfold get_service_uptime, except_Exception.
  match goal with |- context [match ?c with Ok _ => _ | Raise _ => _ end] =>
    destruct c end; [left; by eexists|by right].
Qed.

(** X3. The 404 responses that the endpoint raises for an unknown organization
    or service never reach the caller: the surrounding [except Exception]
    turns them into the 500 "Internal Server Error", like every other failure.
    *)
Theorem get_service_uptime_never_404 utcnow slug_ sid db :
  (org_by_slug slug_ db = None →
   get_service_uptime utcnow slug_ sid db
   = Raise (HTTPException 500 "Internal Server Error"))
  ∧ (∀ org, org_by_slug slug_ db = Some org → service_of_org sid org db = None →
            get_service_uptime utcnow slug_ sid db
            = Raise (HTTPException 500 "Internal Server Error"))
  ∧ ∀ detail, get_service_uptime utcnow slug_ sid db ≠ Raise (HTTPException 404 detail).
Proof.
  split_and!.
  - unfold org_by_slug, get_service_uptime. by intros ->.
  - unfold org_by_slug, service_of_org, get_service_uptime.
    intros org -> Hsvc. simpl. by rewrite Hsvc.
  - intros detail.
    destruct (get_service_uptime_Ok_or_500 utcnow slug_ sid db) as [[r ->]| ->]; done.
Qed.

Lemma get_service_uptime_never_404_witness :
  get_service_uptime Scenario.utcnow "nowhere" 7 Scenario.db
  = Raise (HTTPException 500 "Internal Server Error")
  ∧ get_service_uptime Scenario.utcnow "legacy" 7 Scenario.db
    = Raise (HTTPException 500 "Internal Server Error").
Proof.
  destruct (get_service_uptime_never_404 Scenario.utcnow "nowhere" 7 Scenario.db)
    as (Hnone & _ & _).
  destruct (get_service_uptime_never_404 Scenario.utcnow "legacy" 7 Scenario.db)
    as (_ & Hsvc & _).
  split.
  - apply Hnone. reflexivity.
  - apply (Hsvc Scenario.legacy); reflexivity.
Defined.

Lemma timeline_head_real sid live start_date end_date carry_in in_window e :
  head (option_list carry_in ++ in_window) = Some e →
  head (timeline sid live start_date end_date carry_in in_window) = Some e.
Proof.
  unfold timeline. by destruct (option_list carry_in ++ in_window).
Qed.

Lemma build_events_Ok_last sid svc start_date end_date isd history events e :
  build_events sid svc start_date end_date isd history = Ok events →
  last (option_list (head isd) ++ history) = Some e →
  ev_status e ≠ Absent.
Proof.
  unfold build_events.
  assert (match isd with d :: _ => [] ++ [d] | [] => [] end = option_list (head isd))
    as -> by (by destruct isd).
  set (L := option_list (head isd) ++ history).
  intros Hb Hlast. clearbody L. destruct L as [|x rest]; [done|].
  revert Hb. unfold getitem. rewrite Nat.sub_1_r, <-last_lookup, Hlast.
  rewrite bind_Ok. unfold getitem_status. intros Hb Habs. by rewrite Habs in Hb.
Qed.

(** X4. A document of the log without the key [status], or with a status the
    enum refuses, is tolerated in the middle of the timeline (it counts as
    Operational) but not at its ends: the call fails with the 500 when the
    newest event of the service has no [status] key, and when its oldest event
    (carry-in event included) has no status that the enum accepts. *)
Theorem get_service_uptime_bad_status utcnow slug_ sid db e :
  let real := option_list (head (initial_query sid utcnow db))
              ++ history_query sid utcnow db in
  (last real = Some e ∧ ev_status e = Absent)
  ∨ (head real = Some e ∧ ∀ s, ev_status e ≠ Value s) →
  get_service_uptime utcnow slug_ sid db
  = Raise (HTTPException 500 "Internal Server Error").
Proof.
  intros real Hbad.
  destruct (get_service_uptime_Ok_or_500 utcnow slug_ sid db) as [[r Hr]|]; [|done].
  exfalso. destruct Hbad as [[Hlast Habs]|[Hhead Hbad]].
  - apply get_service_uptime_Ok_inv in Hr
      as (org & svc & events & _ & _ & Hev & _ & _).
    by apply (build_events_Ok_last _ _ _ _ _ _ _ e Hev).
  - apply get_service_uptime_daily in Hr as (org & svc & init & _ & _ & Hinit & _).
    unfold events_of in Hinit.
    rewrite (timeline_head_real _ _ _ _ _ _ e Hhead) in Hinit.
    simpl in Hinit. injection Hinit as Hinit. by apply (Hbad init).
Qed.

Lemma get_service_uptime_bad_status_witness :
  get_service_uptime Scenario.utcnow "acme" 7 Cases.db_garbled
  = Raise (HTTPException 500 "Internal Server Error").
Proof.
  apply (get_service_uptime_bad_status Scenario.utcnow "acme" 7 Cases.db_garbled
           Cases.garbled).
  right. split; [by vm_compute|]. intros s. discriminate.
Defined.

(** The dates of the daily statuses: the ninety-one consecutive days that end
    with the date of the query, in ascending order. *)
Lemma get_service_uptime_daily_dates utcnow slug_ sid db r :
  get_service_uptime utcnow slug_ sid db = Ok r →
  du_date <$> daily_statuses r = seqZ (date_of utcnow - 90) 91.
Proof.
  intros Hr.
  apply get_service_uptime_daily in Hr as (org & svc & init & _ & _ & _ & ->).
  unfold daily_entries. rewrite <-list_fmap_compose. apply list_fmap_id.
Qed.

End uptime_failures.

(** ** Updates of a collection and properties of its documents *)

Section update_facts.
Context {A : Type}.

Lemma update_first_Forall (P : A → Prop) (p : A → bool) (f : A → A) c :
  Forall P c → (∀ d, find_one p c = Some d → P (f d)) → Forall P (update_first p f c).
Proof.
  induction 1 as [|x c Hx Hc IH]; simpl; [constructor|].
  destruct (p x) eqn:Hp; intros Hf.
  - constructor; [by apply Hf|done].
  - constructor; [done|]. by apply IH.
Qed.

Lemma update_first_fmap {B} (key : A → B) (p : A → bool) (f : A → A) c :
  (∀ d, key (f d) = key d) → key <$> update_first p f c = key <$> c.
Proof.
  intros Hkey. induction c as [|x c IH]; simpl; [done|].
  destruct (p x); rewrite !fmap_cons; [by rewrite Hkey|by rewrite IH].
Qed.

Lemma delete_first_sublist (p : A → bool) c :
  sublist (OrganizationsAdmin.delete_first p c) c.
Proof.
  induction c as [|x c IH]; simpl; [done|].
  destruct (p x); [by apply sublist_cons|by apply sublist_skip].
Qed.

Lemma find_one_ext (p q : A → bool) c :
  (∀ d, d ∈ c → p d = q d) → find_one p c = find_one q c.
Proof.
  induction c as [|x c IH]; intros Hpq; simpl; [done|].
  rewrite <-(Hpq x) by left. destruct (p x); [done|].
  apply IH. intros d Hd. apply Hpq. by right.
Qed.

Lemma update_first_ext (p q : A → bool) (f : A → A) c :
  (∀ d, d ∈ c → p d = q d) → update_first p f c = update_first q f c.
Proof.
  induction c as [|x c IH]; intros Hpq; simpl; [done|].
  rewrite <-(Hpq x) by left. destruct (p x); [done|].
  f_equal. apply IH. intros d Hd. apply Hpq. by right.
Qed.
End update_facts.

(** ** Effects of the organization member endpoints *)

Section organization_member_effects.
Import Organizations OrganizationsAdmin.

Lemma is_member_app uid ms ms' :
  is_member uid (ms ++ ms') = is_member uid ms || is_member uid ms'.
Proof. unfold is_member. apply existsb_app. Qed.

Lemma any_member_is_member uid roles ms :
  any_member uid roles ms = true → is_member uid ms = true.
Proof.
  rewrite any_member_spec, is_member_spec. intros (m & ? & ? & _). by exists m.
Qed.

Lemma is_member_pull uid target ms :
  uid ≠ target → is_member uid (pull_member target ms) = is_member uid ms.
Proof.
  intros Hne. apply eq_true_iff_eq. rewrite !is_member_spec. unfold pull_member.
  split; intros (m & Hin & Hid).
  - apply list_elem_of_filter in Hin as [_ Hin]. by exists m.
  - exists m. split; [|done]. apply list_elem_of_filter. split; [congruence|done].
Qed.

Lemma is_member_pull_self target ms : is_member target (pull_member target ms) = false.
Proof.
  apply not_true_is_false. rewrite is_member_spec. unfold pull_member.
  intros (m & Hin & Hid). by apply list_elem_of_filter in Hin as [Hne _].
Qed.

Lemma any_member_pull uid roles target ms :
  uid ≠ target → any_member uid roles (pull_member target ms) = any_member uid roles ms.
Proof.
  intros Hne. apply eq_true_iff_eq. rewrite !any_member_spec. unfold pull_member.
  split; intros (m & Hin & Hid & Hrole).
  - apply list_elem_of_filter in Hin as [_ Hin]. by exists m.
  - exists m. split_and!; [|done..]. apply list_elem_of_filter. split; [congruence|done].
Qed.

Lemma pull_member_id uid ms : is_member uid ms = false → pull_member uid ms = ms.
Proof.
  intros Hnot. unfold pull_member. induction ms as [|m ms IH]; [done|].
  simpl in Hnot. apply orb_false_iff in Hnot as [Hm Hms].
  apply bool_decide_eq_false in Hm. rewrite filter_cons, decide_True by done.
  f_equal. by apply IH.
Qed.

(** The response of [get_organization] for a member of the stored
    organization. *)
Lemma get_organization_member org_id_ payload db requester org :
  user_by_auth0_id (sub payload) db = Some requester →
  organization_by_id org_id_ db = Some org →
  is_member (user_id_ requester) (members org) = true →
  get_organization org_id_ payload db = (Ok org, db).
Proof.
  intros Hreq Horg Hmem. unfold get_organization. unfold_M. rewrite Hreq.
  unfold organization_by_id in Horg.
  assert (find_one (λ o, bool_decide (org_id o = org_id_)
                         && is_member (user_id_ requester) (members o))
            (organizations db) = Some org) as ->; [|done].
  induction (organizations db) as [|x c IH]; simpl in *; [done|].
  destruct (bool_decide (org_id x = org_id_)); simpl.
  - injection Horg as ->. by rewrite Hmem.
  - by apply IH.
Qed.

(** ... and for a user who is not listed in it, when ids are unique. *)
Lemma get_organization_not_member org_id_ payload db requester org :
  NoDup (org_id <$> organizations db) →
  user_by_auth0_id (sub payload) db = Some requester →
  organization_by_id org_id_ db = Some org →
  is_member (user_id_ requester) (members org) = false →
  get_organization org_id_ payload db
  = (Raise (HTTPException 404 "Organization not found or user is not a member."), db).
Proof.
  intros Hnd Hreq Horg Hmem. unfold get_organization. unfold_M. rewrite Hreq.
  destruct (find_one _ (organizations db)) as [o|] eqn:Hfind; [|done].
  exfalso. apply find_one_Some in Hfind as [Hin Ho].
  apply andb_true_iff in Ho as [Hid%bool_decide_eq_true Hm].
  apply find_one_Some in Horg as [Hin' Hid'%bool_decide_eq_true].
  assert (o = org) as ->
    by (apply (NoDup_key_eq org_id (organizations db)); [done..|congruence]).
  congruence.
Qed.

Lemma organization_by_id_update org_id_ f db org :
  organization_by_id org_id_ db = Some org →
  org_id (f org) = org_id org →
  organization_by_id org_id_
    (set_organizations
       (update_first (λ o, bool_decide (org_id o = org_id_)) f (organizations db)) db)
  = Some (f org).
Proof.
  intros Horg Hid. unfold organization_by_id in *. simpl.
  erewrite find_one_update_first; [done|exact Horg|].
  rewrite Hid. by apply find_one_Some in Horg as [_ ?].
Qed.

(** [add_organization_member]: the successful call. *)
Lemma add_organization_member_Ok utcnow org_id_ member_data payload db
    requester org user_to_add :
  truthy (sub payload) = true →
  user_by_auth0_id (sub payload) db = Some requester →
  organization_by_id org_id_ db = Some org →
  any_member (user_id_ requester) [ADMIN; OWNER] (members org) = true →
  user_by_email (ma_email member_data) db = Some user_to_add →
  is_member (user_id_ user_to_add) (members org) = false →
  let f := λ o, set_org_updated_at utcnow
                  (set_members
                     (members o ++ [ {| user_id := user_id_ user_to_add;
                                        role := ma_role member_data |} ]) o) in
  add_organization_member utcnow org_id_ member_data payload db
  = (Ok (f org),
     set_organizations
       (update_first (λ o, bool_decide (org_id o = org_id_)) f (organizations db)) db).
Proof.
  intros Hsub Hreq Horg Hperm Hadd Hnew f.
  unfold add_organization_member. unfold_M. rewrite Hsub. simpl.
  rewrite Hreq, Horg, Hperm, Hadd, Hnew. simpl.
  unfold update_organization_doc. fold f.
  apply (get_organization_member org_id_ payload _ requester).
  - done.
  - by apply organization_by_id_update.
  - simpl. rewrite is_member_app.
    by rewrite (any_member_is_member _ _ _ Hperm).
Qed.

(** [add_organization_member] writes on its successful path only. *)
Lemma add_organization_member_cases utcnow org_id_ member_data payload db :
  (∃ e, add_organization_member utcnow org_id_ member_data payload db = (Raise e, db))
  ∨ ∃ requester org user_to_add,
      truthy (sub payload) = true
      ∧ user_by_auth0_id (sub payload) db = Some requester
      ∧ organization_by_id org_id_ db = Some org
      ∧ any_member (user_id_ requester) [ADMIN; OWNER] (members org) = true
      ∧ user_by_email (ma_email member_data) db = Some user_to_add
      ∧ is_member (user_id_ user_to_add) (members org) = false.
Proof.
  assert (Hraise : ∀ r, add_organization_member utcnow org_id_ member_data payload db = r →
                        (∃ e, r = (Raise e, db)) →
                        ∃ e, add_organization_member utcnow org_id_ member_data payload db
                             = (Raise e, db)) by (by intros r ->).
  destruct (truthy (sub payload)) eqn:Hsub.
  2:{ left. eapply Hraise; [unfold add_organization_member; by rewrite Hsub|by eexists]. }
  destruct (user_by_auth0_id (sub payload) db) as [requester|] eqn:Hreq.
  2:{ left. eapply Hraise; [|by eexists]. unfold add_organization_member. unfold_M.
      rewrite Hsub. cbn [negb]. by rewrite Hreq. }
  destruct (organization_by_id org_id_ db) as [org|] eqn:Horg.
  2:{ left. eapply Hraise; [|by eexists]. unfold add_organization_member. unfold_M.
      rewrite Hsub. cbn [negb]. by rewrite Hreq, Horg. }
  destruct (any_member (user_id_ requester) [ADMIN; OWNER] (members org)) eqn:Hperm.
  2:{ left. eapply Hraise; [|by eexists]. unfold add_organization_member. unfold_M.
      rewrite Hsub. cbn [negb]. by rewrite Hreq, Horg, Hperm. }
  destruct (user_by_email (ma_email member_data) db) as [user_to_add|] eqn:Hadd.
  2:{ left. eapply Hraise; [|by eexists]. unfold add_organization_member. unfold_M.
      rewrite Hsub. cbn [negb]. rewrite Hreq, Horg, Hperm. cbn [negb]. by rewrite Hadd. }
  destruct (is_member (user_id_ user_to_add) (members org)) eqn:Hnew.
  { left. eapply Hraise; [|by eexists]. unfold add_organization_member. unfold_M.
    rewrite Hsub. cbn [negb]. rewrite Hreq, Horg, Hperm. cbn [negb].
    by rewrite Hadd, Hnew. }
  right. by exists requester, org, user_to_add.
Qed.

Lemma set_organizations_id db : set_organizations (organizations db) db = db.
Proof. by destruct db. Qed.

Lemma update_first_id {A} (p : A → bool) (f : A → A) c :
  (∀ d, find_one p c = Some d → f d = d) → update_first p f c = c.
Proof.
  induction c as [|x c IH]; simpl; [done|].
  destruct (p x); intros Hf; [by rewrite Hf|]. by rewrite IH.
Qed.

(** The first organization with the id is also the first one with the id and
    a given member, when it has this member. *)
Lemma find_organization_with_member org_id_ uid db org :
  organization_by_id org_id_ db = Some org →
  is_member uid (members org) = true →
  find_one (λ o, bool_decide (org_id o = org_id_) && is_member uid (members o))
    (organizations db) = Some org
  ∧ ∀ f, update_first (λ o, bool_decide (org_id o = org_id_) && is_member uid (members o))
           f (organizations db)
         = update_first (λ o, bool_decide (org_id o = org_id_)) f (organizations db).
Proof.
  unfold organization_by_id. intros Horg Hmem.
  induction (organizations db) as [|x c IH]; simpl in *; [done|].
  destruct (bool_decide (org_id x = org_id_)); simpl.
  - injection Horg as ->. by rewrite Hmem.
  - destruct (IH Horg) as [IH1 IH2]. split; [done|]. intros f. by rewrite IH2.
Qed.

Lemma find_organization_without_member org_id_ uid db org :
  NoDup (org_id <$> organizations db) →
  organization_by_id org_id_ db = Some org →
  is_member uid (members org) = false →
  find_one (λ o, bool_decide (org_id o = org_id_) && is_member uid (members o))
    (organizations db) = None.
Proof.
  intros Hnd Horg Hmem.
  destruct (find_one _ (organizations db)) as [o|] eqn:Hfind; [|done].
  exfalso. apply find_one_Some in Hfind as [Hin Ho].
  apply andb_true_iff in Ho as [Hid%bool_decide_eq_true Hm].
  apply find_one_Some in Horg as [Hin' Hid'%bool_decide_eq_true].
  assert (o = org) as ->
    by (apply (NoDup_key_eq org_id (organizations db)); [done..|congruence]).
  congruence.
Qed.

(** [remove_organization_member] once its four checks are passed. *)
Lemma remove_organization_member_run org_id_ target payload db requester org :
  truthy (sub payload) = true →
  user_by_auth0_id (sub payload) db = Some requester →
  organization_by_id org_id_ db = Some org →
  bool_decide (owner_id org = user_id_ requester)
  || any_member (user_id_ requester) [ADMIN] (members org) = true →
  target ≠ owner_id org →
  (owner_id org ≠ user_id_ requester → target ≠ user_id_ requester) →
  let f := λ o, set_members (pull_member target (members o)) o in
  remove_organization_member org_id_ target payload db
  = if is_member target (members org)
    then get_organization org_id_ payload
           (set_organizations
              (update_first (λ o, bool_decide (org_id o = org_id_)) f (organizations db)) db)
    else (Raise (HTTPException 404 "Member not found."), db).
Proof.
  intros Hsub Hreq Horg Hperm Howner Hself f.
  unfold remove_organization_member. unfold_M. rewrite Hsub. cbn [negb].
  rewrite Hreq, Horg, Hperm. cbn [negb].
  rewrite (bool_decide_false (target = owner_id org)) by done.
  assert (negb (bool_decide (owner_id org = user_id_ requester))
          && bool_decide (target = user_id_ requester) = false) as ->.
  { case_bool_decide as Ho; [done|]. simpl. apply bool_decide_eq_false. by apply Hself. }
  unfold update_organization_doc, update_result. fold f.
  unfold organization_by_id in Horg. rewrite Horg.
  destruct (is_member target (members org)) eqn:Hmem.
  - rewrite decide_False; [done|].
    intros Heq. apply (f_equal members) in Heq. simpl in Heq.
    assert (is_member target (members org) = false) as Hnot
      by (rewrite <-Heq; apply is_member_pull_self).
    congruence.
  - rewrite decide_True.
    2:{ unfold f. rewrite pull_member_id by done. by destruct org. }
    simpl. rewrite update_first_id; [by rewrite set_organizations_id|].
    intros d Hd. rewrite Horg in Hd. injection Hd as <-.
    unfold f. rewrite pull_member_id by done. by destruct org.
Qed.

Lemma remove_organization_member_cases org_id_ target payload db :
  (∃ e, remove_organization_member org_id_ target payload db = (Raise e, db))
  ∨ ∃ requester org,
      truthy (sub payload) = true
      ∧ user_by_auth0_id (sub payload) db = Some requester
      ∧ organization_by_id org_id_ db = Some org
      ∧ bool_decide (owner_id org = user_id_ requester)
        || any_member (user_id_ requester) [ADMIN] (members org) = true
      ∧ target ≠ owner_id org
      ∧ (owner_id org ≠ user_id_ requester → target ≠ user_id_ requester)
      ∧ is_member target (members org) = true.
Proof.
  assert (Hraise : ∀ r, remove_organization_member org_id_ target payload db = r →
                        (∃ e, r = (Raise e, db)) →
                        ∃ e, remove_organization_member org_id_ target payload db
                             = (Raise e, db)) by (by intros r ->).
  destruct (truthy (sub payload)) eqn:Hsub.
  2:{ left. eapply Hraise; [unfold remove_organization_member; by rewrite Hsub|by eexists]. }
  destruct (user_by_auth0_id (sub payload) db) as [requester|] eqn:Hreq.
  2:{ left. eapply Hraise; [|by eexists]. unfold remove_organization_member. unfold_M.
      rewrite Hsub. cbn [negb]. by rewrite Hreq. }
  destruct (organization_by_id org_id_ db) as [org|] eqn:Horg.
  2:{ left. eapply Hraise; [|by eexists]. unfold remove_organization_member. unfold_M.
      rewrite Hsub. cbn [negb]. by rewrite Hreq, Horg. }
  destruct (bool_decide (owner_id org = user_id_ requester)
            || any_member (user_id_ requester) [ADMIN] (members org)) eqn:Hperm.
  2:{ left. eapply Hraise; [|by eexists]. unfold remove_organization_member. unfold_M.
      rewrite Hsub. cbn [negb]. by rewrite Hreq, Horg, Hperm. }
  destruct (decide (target = owner_id org)) as [Howner|Howner].
  { left. eapply Hraise; [|by eexists]. unfold remove_organization_member. unfold_M.
    rewrite Hsub. cbn [negb]. rewrite Hreq, Horg, Hperm. cbn [negb].
    by rewrite bool_decide_true. }
  destruct (negb (bool_decide (owner_id org = user_id_ requester))
            && bool_decide (target = user_id_ requester)) eqn:Hself.
  { left. eapply Hraise; [|by eexists]. unfold remove_organization_member. unfold_M.
    rewrite Hsub. cbn [negb]. rewrite Hreq, Horg, Hperm. cbn [negb].
    rewrite (bool_decide_false (target = owner_id org)) by done. by rewrite Hself. }
  assert (owner_id org ≠ user_id_ requester → target ≠ user_id_ requester) as Hself'.
  { intros Ho Ht. rewrite (bool_decide_false _ Ho), (bool_decide_true _ Ht) in Hself.
    done. }
  destruct (is_member target (members org)) eqn:Hmem.
  - right. by exists requester, org.
  - left. rewrite (remove_organization_member_run _ _ _ _ requester org) by done.
    rewrite Hmem. by eexists.
Qed.

(** [update_organization_member_role] once its five checks are passed. *)
Lemma update_organization_member_role_run utcnow org_id_ target role_data payload db
    requester org :
  truthy (sub payload) = true →
  user_by_auth0_id (sub payload) db = Some requester →
  organization_by_id org_id_ db = Some org →
  bool_decide (owner_id org = user_id_ requester)
  || any_member (user_id_ requester) [ADMIN] (members org) = true →
  role_data ≠ OWNER →
  target ≠ owner_id org →
  (owner_id org ≠ user_id_ requester → target ≠ user_id_ requester) →
  is_member target (members org) = true →
  let f := λ o, set_org_updated_at utcnow
                  (set_members (set_member_role target role_data (members o)) o) in
  update_organization_member_role utcnow org_id_ target role_data payload db
  = get_organization org_id_ payload
      (set_organizations
         (update_first (λ o, bool_decide (org_id o = org_id_)) f (organizations db)) db).
Proof.
  intros Hsub Hreq Horg Hperm Hrole Howner Hself Hmem f.
  unfold update_organization_member_role. unfold_M. rewrite Hsub. cbn [negb].
  rewrite Hreq, Horg, Hperm. cbn [negb].
  rewrite (bool_decide_false (role_data = OWNER)) by done.
  rewrite (bool_decide_false (target = owner_id org)) by done.
  assert (negb (bool_decide (owner_id org = user_id_ requester))
          && bool_decide (target = user_id_ requester) = false) as ->.
  { case_bool_decide as Ho; [done|]. simpl. apply bool_decide_eq_false. by apply Hself. }
  unfold update_organization_doc, update_result. fold f.
  destruct (find_organization_with_member org_id_ target db org Horg Hmem) as [-> ->].
  done.
Qed.

Lemma update_organization_member_role_cases utcnow org_id_ target role_data payload db :
  NoDup (org_id <$> organizations db) →
  (∃ e, update_organization_member_role utcnow org_id_ target role_data payload db
        = (Raise e, db))
  ∨ ∃ requester org,
      truthy (sub payload) = true
      ∧ user_by_auth0_id (sub payload) db = Some requester
      ∧ organization_by_id org_id_ db = Some org
      ∧ bool_decide (owner_id org = user_id_ requester)
        || any_member (user_id_ requester) [ADMIN] (members org) = true
      ∧ role_data ≠ OWNER
      ∧ target ≠ owner_id org
      ∧ (owner_id org ≠ user_id_ requester → target ≠ user_id_ requester)
      ∧ is_member target (members org) = true.
Proof.
  intros Hnd.
  assert (Hraise : ∀ r,
            update_organization_member_role utcnow org_id_ target role_data payload db = r →
            (∃ e, r = (Raise e, db)) →
            ∃ e, update_organization_member_role utcnow org_id_ target role_data payload db
                 = (Raise e, db)) by (by intros r ->).
  destruct (truthy (sub payload)) eqn:Hsub.
  2:{ left. eapply Hraise; [unfold update_organization_member_role; by rewrite Hsub|].
      by eexists. }
  destruct (user_by_auth0_id (sub payload) db) as [requester|] eqn:Hreq.
  2:{ left. eapply Hraise; [|by eexists]. unfold update_organization_member_role.
      unfold_M. rewrite Hsub. cbn [negb]. by rewrite Hreq. }
  destruct (organization_by_id org_id_ db) as [org|] eqn:Horg.
  2:{ left. eapply Hraise; [|by eexists]. unfold update_organization_member_role.
      unfold_M. rewrite Hsub. cbn [negb]. by rewrite Hreq, Horg. }
  destruct (bool_decide (owner_id org = user_id_ requester)
            || any_member (user_id_ requester) [ADMIN] (members org)) eqn:Hperm.
  2:{ left. eapply Hraise; [|by eexists]. unfold update_organization_member_role.
      unfold_M. rewrite Hsub. cbn [negb]. by rewrite Hreq, Horg, Hperm. }
  destruct (decide (role_data = OWNER)) as [Hrole|Hrole].
  { left. eapply Hraise; [|by eexists]. unfold update_organization_member_role.
    unfold_M. rewrite Hsub. cbn [negb]. rewrite Hreq, Horg, Hperm. cbn [negb].
    by rewrite bool_decide_true. }
  destruct (decide (target = owner_id org)) as [Howner|Howner].
  { left. eapply Hraise; [|by eexists]. unfold update_organization_member_role.
    unfold_M. rewrite Hsub. cbn [negb]. rewrite Hreq, Horg, Hperm. cbn [negb].
    rewrite (bool_decide_false (role_data = OWNER)) by done.
    by rewrite bool_decide_true. }
  destruct (negb (bool_decide (owner_id org = user_id_ requester))
            && bool_decide (target = user_id_ requester)) eqn:Hself.
  { left. eapply Hraise; [|by eexists]. unfold update_organization_member_role.
    unfold_M. rewrite Hsub. cbn [negb]. rewrite Hreq, Horg, Hperm. cbn [negb].
    rewrite (bool_decide_false (role_data = OWNER)) by done.
    rewrite (bool_decide_false (target = owner_id org)) by done. by rewrite Hself. }
  assert (owner_id org ≠ user_id_ requester → target ≠ user_id_ requester) as Hself'.
  { intros Ho Ht. rewrite (bool_decide_false _ Ho), (bool_decide_true _ Ht) in Hself.
    done. }
  destruct (is_member target (members org)) eqn:Hmem.
  - right. by exists requester, org.
  - left. eapply Hraise; [|by eexists]. unfold update_organization_member_role.
    unfold_M. rewrite Hsub. cbn [negb]. rewrite Hreq, Horg, Hperm. cbn [negb].
    rewrite (bool_decide_false (role_data = OWNER)) by done.
    rewrite (bool_decide_false (target = owner_id org)) by done. rewrite Hself.
    unfold update_organization_doc, update_result.
    rewrite (find_organization_without_member org_id_ target db org Hnd Horg Hmem).
    simpl. rewrite update_first_None
      by (by apply (find_organization_without_member org_id_ target db org)).
    by rewrite set_organizations_id.
Qed.
End organization_member_effects.

(** ** The invariant of the organization endpoints *)

Section organization_invariant.
Import Organizations OrganizationsAdmin.

Lemma get_organization_db org_id_ payload db :
  (get_organization org_id_ payload db).2 = db.
Proof.
  unfold get_organization. unfold_M.
  destruct (user_by_auth0_id _ _); [|done]. by destruct (find_one _ _).
Qed.

Lemma NoDup_member_app ms m :
  NoDup (user_id <$> ms) → is_member (user_id m) ms = false →
  NoDup (user_id <$> ms ++ [m]).
Proof.
  intros Hnd Hnot. rewrite fmap_app. apply NoDup_app. split_and!; [done| |].
  - intros uid (m' & Hm' & Hin)%list_elem_of_fmap Huid.
    apply list_elem_of_singleton in Huid.
    assert (is_member (user_id m) ms = true)
      by (apply is_member_spec; exists m'; split; [done|congruence]).
    congruence.
  - apply NoDup_singleton.
Qed.

Lemma NoDup_member_pull target ms :
  NoDup (user_id <$> ms) → NoDup (user_id <$> pull_member target ms).
Proof.
  intros Hnd. eapply sublist_NoDup; [exact Hnd|].
  apply fmap_sublist, sublist_filter.
Qed.

Lemma set_member_role_ids target r ms :
  user_id <$> set_member_role target r ms = user_id <$> ms.
Proof. unfold set_member_role. by apply update_first_fmap. Qed.

Lemma any_member_set_member_role uid roles target r ms :
  uid ≠ target →
  any_member uid roles (set_member_role target r ms) = any_member uid roles ms.
Proof.
  intros Hne. unfold set_member_role, any_member.
  induction ms as [|m ms IH]; simpl; [done|].
  destruct (bool_decide (user_id m = target)) eqn:Hm; simpl.
  - apply bool_decide_eq_true in Hm.
    by rewrite !(bool_decide_false (user_id m = uid)) by congruence.
  - by rewrite IH.
Qed.

Lemma is_member_set_member_role uid target r ms :
  is_member uid (set_member_role target r ms) = is_member uid ms.
Proof.
  unfold set_member_role, is_member.
  induction ms as [|m ms IH]; simpl; [done|].
  destruct (bool_decide (user_id m = target)); simpl; [done|]. by rewrite IH.
Qed.

(** An update that keeps id and slug of the document, and the two properties
    of its member list. *)
Lemma organizations_wf_update db p f :
  organizations_wf db →
  (∀ o, org_id (f o) = org_id o) →
  (∀ o, slug (f o) = slug o) →
  (∀ o, find_one p (organizations db) = Some o →
        NoDup (user_id <$> members o) → owner_listed o →
        NoDup (user_id <$> members (f o)) ∧ owner_listed (f o)) →
  organizations_wf (set_organizations (update_first p f (organizations db)) db).
Proof.
  intros [Hids Hslugs Hms Hown] Hid Hslug Hf.
  assert (∀ o, find_one p (organizations db) = Some o →
               NoDup (user_id <$> members (f o)) ∧ owner_listed (f o)) as Hf'.
  { intros o Ho. pose proof Ho as [Hin _]%find_one_Some.
    rewrite Forall_forall in Hms, Hown. apply Hf; auto. }
  split; simpl.
  - by rewrite update_first_fmap.
  - by rewrite update_first_fmap.
  - apply update_first_Forall; [done|]. intros o Ho. by apply Hf'.
  - apply update_first_Forall; [done|]. intros o Ho. by apply Hf'.
Qed.

Lemma organizations_wf_delete db p :
  organizations_wf db →
  organizations_wf (set_organizations (delete_first p (organizations db)) db).
Proof.
  intros [Hids Hslugs Hms Hown].
  pose proof (delete_first_sublist p (organizations db)) as Hsub.
  split; simpl.
  - eapply sublist_NoDup; [exact Hids|]. by apply fmap_sublist.
  - eapply sublist_NoDup; [exact Hslugs|]. by apply fmap_sublist.
  - rewrite Forall_forall in Hms |- *. intros o Ho. apply Hms.
    by eapply elem_of_sublist.
  - rewrite Forall_forall in Hown |- *. intros o Ho. apply Hown.
    by eapply elem_of_sublist.
Qed.

(** *** The slug backfill of [list_organizations] *)

Lemma slug_taken_by_other_spec s id orgs :
  slug_taken_by_other s id orgs = true
  ↔ s ∈ slug <$> filter (λ o, org_id o ≠ id) orgs.
Proof.
  unfold slug_taken_by_other. rewrite bool_decide_eq_true. split.
  - intros [o [Hin Ho]%find_one_Some].
    apply andb_true_iff in Ho as [Hs%bool_decide_eq_true Hid%bool_decide_eq_true].
    rewrite <-Hs. apply list_elem_of_fmap_2. by apply list_elem_of_filter.
  - intros (o & -> & [Hid Hin]%list_elem_of_filter)%list_elem_of_fmap.
    destruct (find_one _ orgs) eqn:Hfind; [by eexists|].
    rewrite find_one_None in Hfind. specialize (Hfind o Hin). simpl in Hfind.
    by rewrite !bool_decide_true in Hfind.
Qed.

Lemma backfill_loop_None fuel base_slug k id orgs :
  backfill_loop fuel base_slug (slug_candidate base_slug k) (S k) id orgs = None →
  ∀ j, (k ≤ j ≤ k + fuel)%nat →
       slug_candidate base_slug j ∈ slug <$> filter (λ o, org_id o ≠ id) orgs.
Proof.
  revert k. induction fuel as [|fuel IH]; intros k; simpl.
  - destruct (slug_taken_by_other _ id orgs) eqn:Htaken; [|done].
    intros _ j Hj. replace j with k by lia. by apply slug_taken_by_other_spec.
  - destruct (slug_taken_by_other _ id orgs) eqn:Htaken; [|done].
    intros Hloop j Hj. destruct (decide (j = k)) as [->|Hne].
    + by apply slug_taken_by_other_spec.
    + apply (IH (S k)); [exact Hloop|lia].
Qed.

(** The loop ends within as many iterations as there are organizations. *)
Lemma backfill_loop_fuel base_slug id orgs :
  is_Some (backfill_loop (length orgs) base_slug base_slug 1 id orgs).
Proof.
  destruct (backfill_loop _ _ _ _ _ _) eqn:Hloop; [by eexists|]. exfalso.
  pose proof (backfill_loop_None (length orgs) base_slug 0 id orgs Hloop) as Hall.
  assert (slug_candidate base_slug <$> seq 0 (S (length orgs))
          ⊆+ slug <$> filter (λ o, org_id o ≠ id) orgs) as Hsub.
  { apply NoDup_submseteq.
    - apply NoDup_fmap_2_strong; [|apply NoDup_seq].
      intros j k _ _. apply slug_candidate_inj.
    - intros s (j & -> & Hj%elem_of_seq)%list_elem_of_fmap. apply Hall. lia. }
  apply submseteq_length in Hsub. rewrite !length_fmap, length_seq in Hsub.
  pose proof (length_filter (λ o, org_id o ≠ id) orgs). lia.
Qed.

Lemma backfill_slug_free base_slug id orgs :
  backfill_slug base_slug id orgs ∉ slug <$> filter (λ o, org_id o ≠ id) orgs.
Proof.
  unfold backfill_slug.
  destruct (backfill_loop_fuel base_slug id orgs) as [s Hs]. rewrite Hs. simpl.
  assert (∀ fuel cur counter,
            backfill_loop fuel base_slug cur counter id orgs = Some s →
            slug_taken_by_other s id orgs = false) as Hfree.
  { induction fuel as [|fuel IH]; intros cur counter; simpl.
    - destruct (slug_taken_by_other cur id orgs) eqn:Ht; [done|]. by intros [= <-].
    - destruct (slug_taken_by_other cur id orgs) eqn:Ht; [apply IH|]. by intros [= <-]. }
  specialize (Hfree _ _ _ Hs). intros Hin%slug_taken_by_other_spec. congruence.
Qed.

Lemma elem_of_update_first {A} (p : A → bool) (f : A → A) c y :
  y ∈ update_first p f c → y ∈ c ∨ ∃ d, d ∈ c ∧ p d = true ∧ y = f d.
Proof.
  induction c as [|x c IH]; simpl; [by left|].
  destruct (p x) eqn:Hp.
  - intros [->|Hy]%elem_of_cons.
    + right. exists x. split_and!; [left|done|done].
    + left. by right.
  - intros [->|Hy]%elem_of_cons; [left; left|].
    destruct (IH Hy) as [Hin|(d & Hin & Hd & ->)]; [left; by right|].
    right. exists d. split_and!; [by right|done|done].
Qed.

Lemma NoDup_slug_update id s f orgs :
  NoDup (org_id <$> orgs) → NoDup (slug <$> orgs) →
  s ∉ slug <$> filter (λ o, org_id o ≠ id) orgs →
  (∀ o, slug (f o) = s) →
  NoDup (slug <$> update_first (λ o, bool_decide (org_id o = id)) f orgs).
Proof.
  intros Hids Hslugs Hs Hf. induction orgs as [|x c IH]; simpl; [constructor|].
  rewrite fmap_cons in Hids. rewrite fmap_cons in Hslugs.
  apply NoDup_cons in Hids as [Hx Hids]. apply NoDup_cons in Hslugs as [Hsx Hslugs].
  case_bool_decide as Hid; rewrite fmap_cons; apply NoDup_cons.
  - split; [|done]. rewrite Hf. intros (o & Ho & Hin)%list_elem_of_fmap.
    apply Hs. rewrite Ho. apply list_elem_of_fmap_2, list_elem_of_filter.
    split; [|by right]. intros Heq. apply Hx. rewrite Hid, <-Heq.
    by apply list_elem_of_fmap_2.
  - assert (s ∉ slug <$> filter (λ o, org_id o ≠ id) c) as Hs'.
    { intros (o & Ho & [Hne Hin]%list_elem_of_filter)%list_elem_of_fmap.
      apply Hs. rewrite Ho. apply list_elem_of_fmap_2, list_elem_of_filter.
      split; [done|by right]. }
    split; [|by apply IH].
    intros (y & Hy & Hin)%list_elem_of_fmap.
    apply elem_of_update_first in Hin as [Hin|(d & Hin & _ & ->)].
    + apply Hsx. rewrite Hy. by apply list_elem_of_fmap_2.
    + rewrite Hf in Hy. apply Hs. rewrite <-Hy.
      apply list_elem_of_fmap_2, list_elem_of_filter. split; [done|left].
Qed.

Lemma for_each_invariant {A B} (P : Database → Prop) (f : B → A → M B) b l db :
  (∀ b x db, P db → P (f b x db).2) → P db → P (for_each f b l db).2.
Proof.
  intros Hf. revert b db. induction l as [|x l IH]; intros b db HP; simpl; [done|].
  unfold mbind, M_bind. specialize (Hf b x db HP).
  destruct (f b x db) as [[b'|e] db']; simpl in *; [by apply IH|done].
Qed.

Lemma backfill_wf utcnow updated_orgs doc db :
  organizations_wf db → organizations_wf (backfill utcnow updated_orgs doc db).2.
Proof.
  intros Hwf. unfold backfill. case_bool_decide; [|done].
  unfold_M. unfold update_organization_doc. simpl.
  destruct Hwf as [Hids Hslugs Hms Hown]. split; simpl.
  - by rewrite update_first_fmap.
  - apply (NoDup_slug_update _
             (backfill_slug (slugify (org_name doc)) (org_id doc) (organizations db)));
      [done|done|apply backfill_slug_free|done].
  - apply update_first_Forall; [done|]. intros o [Hin _]%find_one_Some. simpl.
    rewrite Forall_forall in Hms. by apply Hms.
  - apply update_first_Forall; [done|]. intros o [Hin _]%find_one_Some.
    rewrite Forall_forall in Hown. by apply (Hown o).
Qed.

Lemma list_organizations_wf utcnow payload db :
  organizations_wf db → organizations_wf (list_organizations utcnow payload db).2.
Proof.
  intros Hwf. unfold list_organizations. destruct (negb _); [done|].
  unfold mbind at 1, M_bind at 1, get_db.
  destruct (user_by_auth0_id _ _); [|done].
  apply for_each_invariant; [|done]. intros. by apply backfill_wf.
Qed.

(** *** The other endpoints *)

Lemma create_organization_effect valid_user utcnow org_in payload db :
  truthy (sub payload) = true → truthy (tp_email payload) = true →
  valid_user = true ∨ user_by_auth0_id (sub payload) db ≠ None →
  ∃ db1 u,
    find_or_create_user valid_user utcnow payload db = (Ok (user_id_ u), db1)
    ∧ user_by_auth0_id (sub payload) db1 = Some u
    ∧ organizations db1 = organizations db
    ∧ let org := {| org_id := fresh_id (org_id <$> organizations db);
                    org_name := oc_name org_in;
                    logo_url := oc_logo_url org_in;
                    slug := unique_slug (slugify (oc_name org_in)) (organizations db);
                    owner_id := user_id_ u;
                    members := [ {| user_id := user_id_ u; role := ADMIN |} ];
                    org_created_at := utcnow;
                    org_updated_at := utcnow |} in
      create_organization valid_user utcnow org_in payload db
      = (Ok org, set_organizations (organizations db ++ [org]) db1).
Proof.
  intros Hsub Hemail Hvalid.
  destruct (find_or_create_user_spec valid_user utcnow payload db Hsub Hvalid)
    as (db1 & u & Hfc & Hu & Horgs & Hold).
  exists db1, u. split_and!; [done..|]. intros org.
  unfold create_organization.
  erewrite M_bind_Ok; [|reflexivity]. rewrite Hsub, Hemail. cbn [negb orb].
  erewrite M_bind_Ok; [|exact Hfc]. unfold_M. rewrite Horgs. fold org.
  assert (Hfind : organization_by_id (org_id org)
                    (set_organizations (organizations db ++ [org]) db1) = Some org).
  { unfold organization_by_id. simpl. apply find_one_app_fresh.
    - apply find_one_None. intros o Ho. apply bool_decide_eq_false. intros Heq.
      apply (fresh_id_fresh (org_id <$> organizations db)). rewrite <-Heq.
      by apply list_elem_of_fmap_2.
    - by apply bool_decide_eq_true. }
  simpl in Hfind. by rewrite Hfind.
Qed.

(** A call that the model [User] stops leaves the database as it was. *)
Lemma create_organization_refused utcnow org_in payload db :
  truthy (sub payload) = true → truthy (tp_email payload) = true →
  user_by_auth0_id (sub payload) db = None →
  create_organization false utcnow org_in payload db
  = (Raise (HTTPException 400 "Invalid user data from token"), db).
Proof.
  intros Hsub Hemail Hnone. unfold create_organization.
  erewrite M_bind_Ok; [|reflexivity]. rewrite Hsub, Hemail. cbn [negb orb].
  erewrite M_bind_Raise; [done|]. by apply find_or_create_user_refused.
Qed.

Lemma user_accepted_dec (valid_user : bool) (o : option User) :
  (valid_user = false ∧ o = None) ∨ (valid_user = true ∨ o ≠ None).
Proof. destruct valid_user; [right; by left|]. destruct o; [right; by right|by left]. Qed.

Lemma create_organization_wf valid_user utcnow org_in payload db :
  organizations_wf db →
  organizations_wf (create_organization valid_user utcnow org_in payload db).2.
Proof.
  intros Hwf.
  destruct (negb (truthy (sub payload)) || negb (truthy (tp_email payload))) eqn:Hpay.
  { unfold create_organization. unfold_M. by rewrite Hpay. }
  apply orb_false_iff in Hpay as [Hsub%negb_false_iff Hemail%negb_false_iff].
  destruct (user_accepted_dec valid_user (user_by_auth0_id (sub payload) db))
    as [[-> Hnone]|Hvalid].
  { by rewrite create_organization_refused. }
  destruct (create_organization_effect valid_user utcnow org_in payload db
              Hsub Hemail Hvalid)
    as (db1 & u & _ & _ & _ & ->). clear Hvalid.
  destruct Hwf as [Hids Hslugs Hms Hown]. split; simpl.
  - rewrite fmap_app. apply NoDup_app. split_and!; [done| |apply NoDup_singleton].
    intros id Hid ->%list_elem_of_singleton. by apply fresh_id_fresh in Hid.
  - rewrite fmap_app. apply NoDup_app. split_and!; [done| |apply NoDup_singleton].
    intros s Hs ->%list_elem_of_singleton. by apply unique_slug_free in Hs.
  - apply Forall_app. split; [done|]. repeat constructor. simpl. set_solver.
  - apply Forall_app. split; [done|]. repeat constructor.
    unfold owner_listed. apply any_member_spec.
    eexists. split_and!; [by left|done|set_solver].
Qed.

Lemma update_organization_db utcnow org_id_ org_in payload db :
  (update_organization utcnow org_id_ org_in payload db).2 = db
  ∨ (update_organization utcnow org_id_ org_in payload db).2
    = set_organizations
        (update_first (λ o, bool_decide (org_id o = org_id_))
           (λ o, set_org_updated_at utcnow (set_org_fields org_in o))
           (organizations db)) db.
Proof.
  unfold update_organization. destruct (_ && _); [by left|right].
  unfold_M. unfold update_organization_doc.
  destruct (bool_decide (matched_count _ = 0%nat)); [done|].
  by destruct (organization_by_id _ _).
Qed.

Lemma organization_call_wf c payload db :
  organizations_wf db → organizations_wf (after c payload db).
Proof.
  intros Hwf. destruct c as [valid_user utcnow org_in|utcnow|utcnow id org_in|id
                            |utcnow id member_data|id target|utcnow id target r]; simpl.
  - by apply create_organization_wf.
  - by apply list_organizations_wf.
  - destruct (update_organization_db utcnow id org_in payload db) as [->| ->]; [done|].
    apply organizations_wf_update; done.
  - unfold delete_organization. unfold_M. simpl.
    destruct (bool_decide _); by apply organizations_wf_delete.
  - destruct (add_organization_member_cases utcnow id member_data payload db)
      as [[e ->]|(requester & org & u & Hsub & Hreq & Horg & Hperm & Hu & Hnew)];
      [done|].
    rewrite (add_organization_member_Ok _ _ _ _ _ requester org u) by done.
    apply organizations_wf_update; [done..|].
    intros o Ho Hnd Hlisted. unfold organization_by_id in Horg.
    rewrite Horg in Ho. injection Ho as <-. simpl. split.
    + by apply NoDup_member_app.
    + unfold owner_listed in *. simpl. by rewrite any_member_app, Hlisted.
  - destruct (remove_organization_member_cases id target payload db)
      as [[e ->]|(requester & org & Hsub & Hreq & Horg & Hperm & Hown & Hself & Hmem)];
      [done|].
    rewrite (remove_organization_member_run _ _ _ _ requester org) by done.
    rewrite Hmem, get_organization_db.
    apply organizations_wf_update; [done..|].
    intros o Ho Hnd Hlisted. unfold organization_by_id in Horg.
    rewrite Horg in Ho. injection Ho as <-. simpl. split.
    + by apply NoDup_member_pull.
    + unfold owner_listed in *. simpl. rewrite any_member_pull; [done|congruence].
  - destruct (update_organization_member_role_cases utcnow id target r payload db)
      as [[e ->]|(requester & org & Hsub & Hreq & Horg & Hperm & Hr & Hown & Hself & Hmem)];
      [apply Hwf|done|].
    rewrite (update_organization_member_role_run _ _ _ _ _ _ requester org) by done.
    rewrite get_organization_db.
    apply organizations_wf_update; [done..|].
    intros o Ho Hnd Hlisted. unfold organization_by_id in Horg.
    rewrite Horg in Ho. injection Ho as <-. simpl. split.
    + by rewrite set_member_role_ids.
    + unfold owner_listed in *. simpl.
      rewrite any_member_set_member_role; [done|congruence].
Qed.

End organization_invariant.

(** ** The organization endpoints on well-formed databases *)

Section organization_endpoints.
Import Organizations OrganizationsAdmin.

(** X5. Whatever the sequence of calls of the organization endpoints, starting
    from a database without organizations and interleaved with writes that
    leave the organizations alone: organization ids and slugs stay unique, no
    member list names a user twice, and every owner stays listed as an ADMIN
    member of the organization. *)
Theorem reachable_organizations_wf db : reachable db → organizations_wf db.
Proof.
  induction 1 as [db Hnone|db c payload _ IH|db db' _ IH Hsame].
  - split; rewrite Hnone; constructor.
  - by apply organization_call_wf.
  - destruct IH as [Hids Hslugs Hms Hown]. split; by rewrite Hsame.
Qed.

Lemma reachable_organizations_wf_witness :
  let db := after (CreateOrganization true 5
                     {| oc_name := "Acme"; oc_logo_url := None |})
              (Scenario.token Scenario.alice) empty_db in
  organizations db ≠ [] ∧ organizations_wf db.
Proof.
  intros db. split; [by vm_compute|].
  apply (reachable_organizations_wf db). apply reachable_call, reachable_init.
  reflexivity.
Defined.

Lemma acme_db_wf : organizations_wf Cases.acme_db.
Proof.
  split; simpl.
  - apply NoDup_singleton.
  - apply NoDup_singleton.
  - constructor; [compute_done|constructor].
  - by repeat constructor.
Qed.

Lemma organizations_wf_lookup org_id_ db org :
  organizations_wf db → organization_by_id org_id_ db = Some org →
  NoDup (user_id <$> members org) ∧ owner_listed org.
Proof.
  intros [_ _ Hms Hown] [Hin _]%find_one_Some.
  rewrite Forall_forall in Hms, Hown. split; [by apply Hms|by apply Hown].
Qed.

Lemma any_member_roles uid roles roles' ms :
  roles ⊆ roles' → any_member uid roles ms = true → any_member uid roles' ms = true.
Proof.
  intros Hsub. rewrite !any_member_spec. intros (m & ? & ? & ?).
  exists m. split_and!; [done..|]. by apply Hsub.
Qed.

(** On a well-formed database the owner and the admins are members. *)
Lemma permitted_is_member org_id_ db org uid :
  organizations_wf db → organization_by_id org_id_ db = Some org →
  bool_decide (owner_id org = uid) || any_member uid [ADMIN] (members org) = true →
  any_member uid [ADMIN] (members org) = true.
Proof.
  intros Hwf Horg Hperm. destruct (organizations_wf_lookup _ _ _ Hwf Horg) as [_ Hown].
  apply orb_true_iff in Hperm as [<-%bool_decide_eq_true|?]; done.
Qed.

(** X6. The owner of an organization and its admins can add members: on a
    well-formed database the call of the owner is never refused for a lack of
    permission, and the new member is appended with the requested role. *)
Theorem owner_or_admin_adds_member utcnow org_id_ member_data payload db
    requester org user_to_add :
  organizations_wf db →
  truthy (sub payload) = true →
  user_by_auth0_id (sub payload) db = Some requester →
  organization_by_id org_id_ db = Some org →
  owner_id org = user_id_ requester
  ∨ any_member (user_id_ requester) [ADMIN] (members org) = true →
  user_by_email (ma_email member_data) db = Some user_to_add →
  is_member (user_id_ user_to_add) (members org) = false →
  ∃ org' db',
    add_organization_member utcnow org_id_ member_data payload db = (Ok org', db')
    ∧ organization_by_id org_id_ db' = Some org'
    ∧ members org'
      = members org ++ [ {| user_id := user_id_ user_to_add;
                            role := ma_role member_data |} ]
    ∧ org_updated_at org' = utcnow.
Proof.
  intros Hwf Hsub Hreq Horg Hperm Hu Hnew.
  assert (any_member (user_id_ requester) [ADMIN] (members org) = true) as Hadmin.
  { apply (permitted_is_member org_id_ db); [done..|].
    destruct Hperm as [->| ->]; [by rewrite bool_decide_true|apply orb_true_r]. }
  pose proof (add_organization_member_Ok utcnow org_id_ member_data payload db
                requester org user_to_add Hsub Hreq Horg) as Hadd.
  simpl in Hadd. rewrite Hadd; [|revert Hadmin|done..].
  2:{ apply any_member_roles. intros x ->%list_elem_of_singleton. left. }
  eexists _, _. split_and!; [done| |done..].
  by apply (organization_by_id_update org_id_
              (λ o, set_org_updated_at utcnow (set_members (members o ++ [_]) o))).
Qed.

Lemma acme_created_db_wf : organizations_wf Cases.acme_created_db.
Proof.
  split; simpl.
  - apply NoDup_singleton.
  - apply NoDup_singleton.
  - constructor; [apply NoDup_singleton|constructor].
  - by repeat constructor.
Qed.

Lemma owner_or_admin_adds_member_witness :
  ∃ org' db',
    add_organization_member 5 1 {| ma_email := "carol@acme.io"; ma_role := VIEWER |}
      (Scenario.token Scenario.alice) Cases.acme_created_db
    = (Ok org', db')
    ∧ members org' = [ {| user_id := 10; role := ADMIN |};
                       {| user_id := 12; role := VIEWER |} ].
Proof.
  destruct (owner_or_admin_adds_member 5 1
              {| ma_email := "carol@acme.io"; ma_role := VIEWER |}
              (Scenario.token Scenario.alice) Cases.acme_created_db
              Scenario.alice Cases.acme_created Scenario.carol)
    as (org' & db' & Hadd & _ & Hms & _).
  - exact acme_created_db_wf.
  - reflexivity.
  - reflexivity.
  - reflexivity.
  - by left.
  - reflexivity.
  - reflexivity.
  - by exists org', db'.
Defined.

(** *** Successful removals and role changes *)

Lemma remove_organization_member_Ok org_id_ target payload db requester org :
  truthy (sub payload) = true →
  user_by_auth0_id (sub payload) db = Some requester →
  organization_by_id org_id_ db = Some org →
  bool_decide (owner_id org = user_id_ requester)
  || any_member (user_id_ requester) [ADMIN] (members org) = true →
  target ≠ owner_id org →
  (owner_id org ≠ user_id_ requester → target ≠ user_id_ requester) →
  is_member target (members org) = true →
  is_member (user_id_ requester) (members org) = true →
  target ≠ user_id_ requester →
  let f := λ o, set_members (pull_member target (members o)) o in
  remove_organization_member org_id_ target payload db
  = (Ok (f org),
     set_organizations
       (update_first (λ o, bool_decide (org_id o = org_id_)) f (organizations db)) db).
Proof.
  intros Hsub Hreq Horg Hperm Hown Hself Hmem Hreqmem Hne f.
  rewrite (remove_organization_member_run _ _ _ _ requester org) by done.
  rewrite Hmem. fold f.
  apply (get_organization_member _ _ _ requester (f org)); [done| |].
  - by apply organization_by_id_update.
  - simpl. rewrite is_member_pull; done.
Qed.

Lemma update_organization_member_role_Ok utcnow org_id_ target r payload db
    requester org :
  truthy (sub payload) = true →
  user_by_auth0_id (sub payload) db = Some requester →
  organization_by_id org_id_ db = Some org →
  bool_decide (owner_id org = user_id_ requester)
  || any_member (user_id_ requester) [ADMIN] (members org) = true →
  r ≠ OWNER →
  target ≠ owner_id org →
  (owner_id org ≠ user_id_ requester → target ≠ user_id_ requester) →
  is_member target (members org) = true →
  is_member (user_id_ requester) (members org) = true →
  let f := λ o, set_org_updated_at utcnow
                  (set_members (set_member_role target r (members o)) o) in
  update_organization_member_role utcnow org_id_ target r payload db
  = (Ok (f org),
     set_organizations
       (update_first (λ o, bool_decide (org_id o = org_id_)) f (organizations db)) db).
Proof.
  intros Hsub Hreq Horg Hperm Hr Hown Hself Hmem Hreqmem f.
  rewrite (update_organization_member_role_run _ _ _ _ _ _ requester org) by done.
  fold f.
  apply (get_organization_member _ _ _ requester (f org)); [done| |].
  - by apply organization_by_id_update.
  - simpl. by rewrite is_member_set_member_role.
Qed.

Lemma requester_not_target org uid target :
  target ≠ owner_id org →
  (owner_id org ≠ uid → target ≠ uid) →
  target ≠ uid.
Proof.
  intros Hown Hself. destruct (decide (owner_id org = uid)) as [<-|Hne]; auto.
Qed.

(** X7. A member call that ends in an error has changed nothing, on a
    well-formed database: there the requester who passes the permission check
    is still a member when the organization is read again for the response. *)
Theorem organization_member_calls_atomic utcnow org_id_ uid member_data r payload
    db e db' :
  organizations_wf db →
  add_organization_member utcnow org_id_ member_data payload db = (Raise e, db')
  ∨ remove_organization_member org_id_ uid payload db = (Raise e, db')
  ∨ update_organization_member_role utcnow org_id_ uid r payload db = (Raise e, db') →
  db' = db.
Proof.
  intros Hwf [Hcall|[Hcall|Hcall]].
  - destruct (add_organization_member_cases utcnow org_id_ member_data payload db)
      as [[e0 He]|(requester & org & u & Hsub & Hreq & Horg & Hperm & Hu & Hnew)];
      [congruence|].
    rewrite (add_organization_member_Ok _ _ _ _ _ requester org u) in Hcall by done.
    done.
  - destruct (remove_organization_member_cases org_id_ uid payload db)
      as [[e0 He]|(requester & org & Hsub & Hreq & Horg & Hperm & Hown & Hself & Hmem)];
      [congruence|].
    rewrite (remove_organization_member_Ok _ _ _ _ requester org) in Hcall;
      [done..| |by eapply requester_not_target].
    eapply any_member_is_member, permitted_is_member; done.
  - destruct (update_organization_member_role_cases utcnow org_id_ uid r payload db)
      as [[e0 He]|(requester & org & Hsub & Hreq & Horg & Hperm & Hr & Hown & Hself
                   & Hmem)]; [apply Hwf|congruence|].
    rewrite (update_organization_member_role_Ok _ _ _ _ _ _ requester org) in Hcall;
      [done..|].
    eapply any_member_is_member, permitted_is_member; done.
Qed.

Lemma organization_member_calls_atomic_witness :
  remove_organization_member 1 13 (Scenario.token Scenario.alice) Cases.acme_db
  = (Raise (HTTPException 404 "Member not found."), Cases.acme_db).
Proof.
  destruct (remove_organization_member 1 13 (Scenario.token Scenario.alice)
              Cases.acme_db) as [res db'] eqn:Hcall.
  assert (res = Raise (HTTPException 404 "Member not found.")) as Hres
    by (by vm_compute in Hcall; injection Hcall as <- _).
  rewrite Hres in *. f_equal.
  apply (organization_member_calls_atomic 0 1 13
           {| ma_email := ""; ma_role := MEMBER |} MEMBER
           (Scenario.token Scenario.alice) Cases.acme_db
           (HTTPException 404 "Member not found.") db' acme_db_wf).
  right. left. exact Hcall.
Defined.

(** X8. Where the owner is not listed among the members, their removal of a
    member and their change of a role are carried out, and yet answered with
    the 404 of [get_organization]. *)
Theorem unlisted_owner_write_then_404 utcnow org_id_ target r payload db requester org :
  NoDup (org_id <$> organizations db) →
  truthy (sub payload) = true →
  user_by_auth0_id (sub payload) db = Some requester →
  organization_by_id org_id_ db = Some org →
  owner_id org = user_id_ requester →
  is_member (user_id_ requester) (members org) = false →
  is_member target (members org) = true →
  r ≠ OWNER →
  let e := HTTPException 404 "Organization not found or user is not a member." in
  (∃ db', remove_organization_member org_id_ target payload db = (Raise e, db')
          ∧ ∃ org', organization_by_id org_id_ db' = Some org'
                    ∧ is_member target (members org') = false)
  ∧ (∃ db', update_organization_member_role utcnow org_id_ target r payload db
            = (Raise e, db')
            ∧ ∃ org', organization_by_id org_id_ db' = Some org'
                      ∧ any_member target [r] (members org') = true).
Proof.
  intros Hnd Hsub Hreq Horg Howner Hunlisted Hmem Hr e.
  assert (target ≠ user_id_ requester) as Hne by (intros ->; congruence).
  assert (bool_decide (owner_id org = user_id_ requester)
          || any_member (user_id_ requester) [ADMIN] (members org) = true) as Hperm
    by (by rewrite bool_decide_true).
  split.
  - rewrite (remove_organization_member_run _ _ _ _ requester org);
      [|done..|congruence|done].
    rewrite Hmem.
    set (f := λ o, set_members (pull_member target (members o)) o).
    assert (organization_by_id org_id_
              (set_organizations
                 (update_first (λ o, bool_decide (org_id o = org_id_)) f
                    (organizations db)) db) = Some (f org)) as Horg'
      by (by apply organization_by_id_update).
    eexists. split.
    + apply (get_organization_not_member _ _ _ requester (f org)); [|done..|].
      * simpl. by rewrite update_first_fmap.
      * simpl. by rewrite is_member_pull.
    + exists (f org). split; [done|]. apply is_member_pull_self.
  - rewrite (update_organization_member_role_run _ _ _ _ _ _ requester org);
      [|done..|congruence|done|done].
    set (f := λ o, set_org_updated_at utcnow
                     (set_members (set_member_role target r (members o)) o)).
    assert (organization_by_id org_id_
              (set_organizations
                 (update_first (λ o, bool_decide (org_id o = org_id_)) f
                    (organizations db)) db) = Some (f org)) as Horg'
      by (by apply organization_by_id_update).
    eexists. split.
    + apply (get_organization_not_member _ _ _ requester (f org)); [|done..|].
      * simpl. by rewrite update_first_fmap.
      * simpl. by rewrite is_member_set_member_role.
    + exists (f org). split; [done|]. simpl.
      clear -Hmem. unfold set_member_role, any_member, is_member in *.
      induction (members org) as [|m ms IH]; simpl in *; [done|].
      destruct (bool_decide (user_id m = target)) eqn:Hm; simpl.
      * rewrite Hm. simpl. rewrite bool_decide_true; [done|left].
      * rewrite Hm. simpl. by apply IH.
Qed.

Lemma unlisted_owner_write_then_404_witness :
  ∃ db', remove_organization_member 2 10 (Scenario.token Scenario.carol) Scenario.db
         = (Raise (HTTPException 404 "Organization not found or user is not a member."),
            db')
         ∧ ∃ org', organization_by_id 2 db' = Some org'
                   ∧ is_member 10 (members org') = false.
Proof.
  apply (unlisted_owner_write_then_404 0 2 10 MEMBER (Scenario.token Scenario.carol)
           Scenario.db Scenario.carol Scenario.legacy).
  - compute_done.
  - reflexivity.
  - reflexivity.
  - reflexivity.
  - reflexivity.
  - reflexivity.
  - reflexivity.
  - discriminate.
Defined.

Lemma any_member_set_member_role_self target r roles ms :
  NoDup (user_id <$> ms) → is_member target ms = true →
  any_member target roles (set_member_role target r ms) = bool_decide (r ∈ roles).
Proof.
  unfold set_member_role, any_member, is_member.
  induction ms as [|m ms IH]; simpl; [done|].
  intros [Hm Hnd]%NoDup_cons.
  destruct (bool_decide (user_id m = target)) eqn:Hid; simpl.
  - intros _. rewrite Hid. simpl. apply bool_decide_eq_true in Hid.
    assert (existsb (λ m0, bool_decide (user_id m0 = target) && bool_decide (role m0 ∈ roles))
              ms = false) as ->; [|apply orb_false_r].
    apply not_true_is_false. intros Hex. apply Hm. rewrite Hid.
    change (any_member target roles ms = true) in Hex.
    apply any_member_spec in Hex as (m' & Hin & <- & _). by apply list_elem_of_fmap_2.
  - intros Hmem. rewrite Hid. simpl. by apply IH.
Qed.

(** X9. A successful removal: the user is no longer a member, every other
    member keeps their role, and the teams of the organization are left as
    they were. *)
Theorem remove_organization_member_effect org_id_ target payload db org' db' :
  organizations_wf db →
  remove_organization_member org_id_ target payload db = (Ok org', db') →
  ∃ org,
    organization_by_id org_id_ db = Some org
    ∧ organization_by_id org_id_ db' = Some org'
    ∧ is_member target (members org) = true
    ∧ is_member target (members org') = false
    ∧ (∀ uid roles, uid ≠ target →
         any_member uid roles (members org') = any_member uid roles (members org))
    ∧ owner_id org' = owner_id org
    ∧ teams db' = teams db.
Proof.
  intros Hwf Hcall.
  destruct (remove_organization_member_cases org_id_ target payload db)
    as [[e0 He]|(requester & org & Hsub & Hreq & Horg & Hperm & Hown & Hself & Hmem)];
    [congruence|].
  rewrite (remove_organization_member_Ok _ _ _ _ requester org) in Hcall;
    [|done..| |by eapply requester_not_target].
  2:{ eapply any_member_is_member, permitted_is_member; done. }
  injection Hcall as <- <-. exists org. split_and!; [done| |done| | |done..].
  - by apply (organization_by_id_update org_id_
                (λ o, set_members (pull_member target (members o)) o)).
  - apply is_member_pull_self.
  - intros uid roles Hne. simpl. by apply any_member_pull.
Qed.

Lemma remove_organization_member_effect_witness :
  ∃ org' db',
    remove_organization_member 1 11 (Scenario.token Scenario.alice) Cases.acme_db
    = (Ok org', db')
    ∧ is_member 11 (members org') = false
    ∧ teams db' = [Scenario.sre].
Proof.
  destruct (remove_organization_member 1 11 (Scenario.token Scenario.alice)
              Cases.acme_db) as [[org'|e] db'] eqn:Hcall; [|by vm_compute in Hcall].
  destruct (remove_organization_member_effect 1 11 (Scenario.token Scenario.alice)
              Cases.acme_db org' db' acme_db_wf Hcall)
    as (org & _ & _ & _ & Hgone & _ & _ & Hteams).
  by exists org', db'.
Defined.

(** X10. A successful change of role: the member has the new role, which is
    not OWNER, and every other member keeps theirs. *)
Theorem update_organization_member_role_effect utcnow org_id_ target r payload db
    org' db' :
  organizations_wf db →
  update_organization_member_role utcnow org_id_ target r payload db = (Ok org', db') →
  ∃ org,
    organization_by_id org_id_ db = Some org
    ∧ organization_by_id org_id_ db' = Some org'
    ∧ r ≠ OWNER
    ∧ target ≠ owner_id org
    ∧ (∀ roles, any_member target roles (members org') = bool_decide (r ∈ roles))
    ∧ (∀ uid roles, uid ≠ target →
         any_member uid roles (members org') = any_member uid roles (members org))
    ∧ user_id <$> members org' = user_id <$> members org.
Proof.
  intros Hwf Hcall.
  destruct (update_organization_member_role_cases utcnow org_id_ target r payload db)
    as [[e0 He]|(requester & org & Hsub & Hreq & Horg & Hperm & Hr & Hown & Hself
                 & Hmem)]; [apply Hwf|congruence|].
  rewrite (update_organization_member_role_Ok _ _ _ _ _ _ requester org) in Hcall;
    [|done..|].
  2:{ eapply any_member_is_member, permitted_is_member; done. }
  injection Hcall as <- <-. exists org.
  destruct (organizations_wf_lookup _ _ _ Hwf Horg) as [Hnd _].
  split_and!; [done| |done|done| | |].
  - by apply (organization_by_id_update org_id_
                (λ o, set_org_updated_at utcnow
                        (set_members (set_member_role target r (members o)) o))).
  - intros roles. simpl. by apply any_member_set_member_role_self.
  - intros uid roles Hne. simpl. by apply any_member_set_member_role.
  - simpl. apply set_member_role_ids.
Qed.

Lemma update_organization_member_role_effect_witness :
  ∃ org' db',
    update_organization_member_role 5 1 11 ADMIN (Scenario.token Scenario.alice)
      Cases.acme_db = (Ok org', db')
    ∧ any_member 11 [ADMIN] (members org') = true
    ∧ any_member 11 [MEMBER] (members org') = false.
Proof.
  destruct (update_organization_member_role 5 1 11 ADMIN (Scenario.token Scenario.alice)
              Cases.acme_db) as [[org'|e] db'] eqn:Hcall; [|by vm_compute in Hcall].
  destruct (update_organization_member_role_effect 5 1 11 ADMIN
              (Scenario.token Scenario.alice) Cases.acme_db org' db' acme_db_wf Hcall)
    as (org & _ & _ & _ & _ & Hrole & _ & _).
  exists org', db'. by rewrite !Hrole.
Defined.

(** *** Deleting, renaming and listing organizations *)

Lemma find_one_delete_first_same {A} (key : A → Z) k c :
  NoDup (key <$> c) →
  find_one (λ d, bool_decide (key d = k))
    (delete_first (λ d, bool_decide (key d = k)) c) = None.
Proof.
  induction c as [|x c IH]; [done|].
  rewrite fmap_cons. intros [Hx Hnd]%NoDup_cons. simpl.
  case_bool_decide as Hk; simpl.
  - apply find_one_None. intros d Hd. apply bool_decide_eq_false. intros Heq.
    apply Hx. rewrite Hk, <-Heq. by apply list_elem_of_fmap_2.
  - rewrite bool_decide_false by done. by apply IH.
Qed.

Lemma find_one_delete_first_other {A} (key : A → Z) k k' c :
  k' ≠ k →
  find_one (λ d, bool_decide (key d = k'))
    (delete_first (λ d, bool_decide (key d = k)) c)
  = find_one (λ d, bool_decide (key d = k')) c.
Proof.
  intros Hne. induction c as [|x c IH]; [done|]. simpl.
  case_bool_decide as Hk; simpl.
  - by rewrite bool_decide_false by congruence.
  - by rewrite IH.
Qed.

Lemma delete_first_None {A} (p : A → bool) c :
  find_one p c = None → delete_first p c = c.
Proof.
  induction c as [|x c IH]; simpl; [done|].
  destruct (p x); [done|]. intros H. by rewrite IH.
Qed.

(** X11. [delete_organization] does not look at the token: whoever calls it,
    an organization that exists is deleted. Nothing else is: its services,
    teams and subscribers stay in the database. For an unknown id the answer
    is the 404 and nothing changes. *)
Theorem delete_organization_unguarded org_id_ payload db :
  NoDup (org_id <$> organizations db) →
  (is_Some (organization_by_id org_id_ db) →
   ∃ db', delete_organization org_id_ payload db = (Ok (), db')
          ∧ organization_by_id org_id_ db' = None
          ∧ (∀ id, id ≠ org_id_ → organization_by_id id db' = organization_by_id id db)
          ∧ services db' = services db
          ∧ teams db' = teams db
          ∧ subscribers db' = subscribers db)
  ∧ (organization_by_id org_id_ db = None →
     delete_organization org_id_ payload db
     = (Raise (HTTPException 404 "Organization not found"), db)).
Proof.
  intros Hnd. split.
  - intros [org Horg]. unfold delete_organization. unfold_M. rewrite Horg. simpl.
    eexists. split_and!; [done| |  |done..].
    + unfold organization_by_id. simpl. by apply find_one_delete_first_same.
    + intros id Hne. unfold organization_by_id. simpl.
      by apply (find_one_delete_first_other org_id).
  - intros Horg. unfold delete_organization. unfold_M. rewrite Horg. simpl.
    rewrite delete_first_None by done. by rewrite set_organizations_id.
Qed.

Lemma delete_organization_unguarded_witness :
  ∃ db', delete_organization 1
           {| sub := None; tp_email := None; tp_name := None; tp_picture := None |}
           Scenario.db = (Ok (), db')
         ∧ organization_by_id 1 db' = None
         ∧ services db' = [Scenario.api].
Proof.
  destruct (delete_organization_unguarded 1
              {| sub := None; tp_email := None; tp_name := None; tp_picture := None |}
              Scenario.db) as [Hdel _]; [compute_done|].
  destruct Hdel as (db' & Hcall & Hgone & _ & Hsvc & _); [by eexists|].
  by exists db'.
Defined.

(** X12. [update_organization] does not look at the token either. A new name
    leaves the slug as it is, so the address of the public status page does
    not change; owner and members are kept as well. *)
Theorem update_organization_unguarded utcnow org_id_ org_in payload db org :
  organization_by_id org_id_ db = Some org →
  ou_name org_in ≠ None ∨ ou_logo_url org_in ≠ None →
  ∃ org' db',
    update_organization utcnow org_id_ org_in payload db = (Ok org', db')
    ∧ organization_by_id org_id_ db' = Some org'
    ∧ org_name org' = default (org_name org) (ou_name org_in)
    ∧ slug org' = slug org
    ∧ owner_id org' = owner_id org
    ∧ members org' = members org
    ∧ org_updated_at org' = utcnow.
Proof.
  intros Horg Hdata. unfold update_organization.
  assert (bool_decide (ou_name org_in = None) && bool_decide (ou_logo_url org_in = None)
          = false) as ->.
  { apply andb_false_iff.
    destruct Hdata; [left|right]; by apply bool_decide_eq_false. }
  unfold_M. unfold update_organization_doc, update_result.
  unfold organization_by_id in Horg. rewrite Horg. simpl.
  set (f := λ o, set_org_updated_at utcnow (set_org_fields org_in o)).
  assert (organization_by_id org_id_
            (set_organizations
               (update_first (λ o, bool_decide (org_id o = org_id_)) f
                  (organizations db)) db) = Some (f org)) as Horg'
    by (by apply organization_by_id_update).
  rewrite Horg'. by eexists _, _.
Qed.

Lemma update_organization_unguarded_witness :
  ∃ org' db',
    update_organization 5 1 {| ou_name := Some "Acme Corporation"; ou_logo_url := None |}
      {| sub := None; tp_email := None; tp_name := None; tp_picture := None |}
      Scenario.db = (Ok org', db')
    ∧ org_name org' = "Acme Corporation"
    ∧ slug org' = "acme".
Proof.
  destruct (update_organization_unguarded 5 1
              {| ou_name := Some "Acme Corporation"; ou_logo_url := None |}
              {| sub := None; tp_email := None; tp_name := None; tp_picture := None |}
              Scenario.db Scenario.acme)
    as (org' & db' & Hcall & _ & Hname & Hslug & _).
  - reflexivity.
  - by left.
  - by exists org', db'.
Defined.

Lemma backfill_Ok utcnow updated_orgs doc db :
  ∃ o db', backfill utcnow updated_orgs doc db = (Ok (updated_orgs ++ [o]), db')
           ∧ listed o doc ∧ users db' = users db.
Proof.
  unfold backfill. destruct (bool_decide (slug doc = "")) eqn:Hslug.
  - unfold_M. unfold update_organization_doc. eexists _, _. split_and!; [done| |done].
    split_and!; [done..|]. apply bool_decide_eq_true in Hslug. by intros ?.
  - exists doc, db. split_and!; [done| |done]. by split_and!.
Qed.

Lemma for_each_backfill utcnow docs updated_orgs db :
  ∃ l db',
    for_each (backfill utcnow) updated_orgs docs db = (Ok (updated_orgs ++ l), db')
    ∧ Forall2 listed l docs
    ∧ users db' = users db.
Proof.
  revert updated_orgs db. induction docs as [|doc docs IH]; intros updated_orgs db.
  - exists [], db. by rewrite app_nil_r.
  - destruct (backfill_Ok utcnow updated_orgs doc db) as (o & db1 & Hb & Ho & Hu1).
    destruct (IH (updated_orgs ++ [o]) db1) as (l & db' & Hl & HF & Hu).
    exists (o :: l), db'. split_and!; [|by constructor|congruence].
    cbn [for_each]. erewrite M_bind_Ok; [|exact Hb]. rewrite Hl.
    by rewrite <-app_assoc.
Qed.

(** X13. [list_organizations] answers with the organizations that list the
    user as a member, at most a hundred of them, in the order of the
    collection; an organization that the user owns without being listed in it
    is left out. *)
Theorem list_organizations_members_only utcnow payload db u :
  truthy (sub payload) = true →
  user_by_auth0_id (sub payload) db = Some u →
  ∃ l db',
    list_organizations utcnow payload db = (Ok l, db')
    ∧ Forall2 listed l
        (take 100 (find (λ o, is_member (user_id_ u) (members o)) (organizations db)))
    ∧ (length l ≤ 100)%nat
    ∧ Forall (λ o, is_member (user_id_ u) (members o) = true) l.
Proof.
  intros Hsub Hu. unfold list_organizations. rewrite Hsub. cbn [negb].
  unfold mbind at 1, M_bind at 1, get_db. rewrite Hu.
  set (docs := take 100 _).
  destruct (for_each_backfill utcnow docs [] db) as (l & db' & -> & Hl & _).
  exists l, db'. split_and!; [done|done| |].
  - rewrite (Forall2_length _ _ _ Hl). unfold docs. rewrite length_take. lia.
  - assert (Forall (λ o, is_member (user_id_ u) (members o) = true) docs) as Hdocs.
    { apply Forall_forall. intros o (i & Ho%list_elem_of_lookup_2 & _)%elem_of_take.
      unfold find in Ho. apply list_elem_of_filter in Ho as [Ho _].
      by apply Is_true_true. }
    clear -Hl Hdocs. induction Hl as [|o d l docs (_ & _ & _ & Hms & _) Hl IH];
      [constructor|].
    apply Forall_cons in Hdocs as [Hd Hdocs]. constructor; [by rewrite Hms|by apply IH].
Qed.

Lemma list_organizations_members_only_witness :
  ∃ l db',
    list_organizations 5 (Scenario.token Scenario.carol) Scenario.db = (Ok l, db')
    ∧ org_id <$> l = [1].
Proof.
  destruct (list_organizations_members_only 5 (Scenario.token Scenario.carol)
              Scenario.db Scenario.carol) as (l & db' & Hcall & _ & _ & _);
    [reflexivity..|].
  exists l, db'. split; [done|].
  vm_compute in Hcall. by injection Hcall as <- _.
Defined.
End organization_endpoints.

(** ** The team endpoints *)

Section team_endpoints.
Import Organizations Teams OrganizationsAdmin TeamsAdmin.

Lemma find_or_create_user_frame valid_user utcnow payload db :
  let db' := (find_or_create_user valid_user utcnow payload db).2 in
  organizations db' = organizations db ∧ teams db' = teams db
  ∧ services db' = services db ∧ subscribers db' = subscribers db
  ∧ service_status_history db' = service_status_history db.
Proof.
  unfold find_or_create_user. unfold_M.
  destruct (user_by_auth0_id (sub payload) db); [|by destruct valid_user].
  by destruct (_ || _).
Qed.

Lemma team_by_id_update team_id_ f db team :
  team_by_id team_id_ db = Some team →
  team_id (f team) = team_id team →
  team_by_id team_id_
    (set_teams (update_first (λ t, bool_decide (team_id t = team_id_)) f (teams db)) db)
  = Some (f team).
Proof.
  intros Hteam Hid. unfold team_by_id in *. simpl.
  erewrite find_one_update_first; [done|exact Hteam|].
  rewrite Hid. by apply find_one_Some in Hteam as [_ ?].
Qed.

(** Without the organization of a team, [add_team_member] ends in an
    error and leaves the database as it was. *)
Lemma add_team_member_without_organization utcnow team_id_ member_data payload db team :
  team_by_id team_id_ db = Some team →
  organization_by_id (organization_id team) db = None →
  ∃ e, add_team_member utcnow team_id_ member_data payload db = (Raise e, db).
Proof.
  intros Hteam Hnone. unfold add_team_member. unfold_M.
  destruct (negb (truthy (sub payload))); [by eexists|].
  destruct (user_by_auth0_id (sub payload) _); [|by eexists].
  rewrite Hteam, Hnone. by eexists.
Qed.

(** X14. [create_team] checks neither that the organization exists nor that
    the creator belongs to it.  With a token that carries [sub] and [email]
    one refusal is left: the model [User] does not accept the data of a user
    who is not yet known; the call then ends in the 400 "Invalid user data
    from token" and the database is as it was.  In every other case the team
    is created, with its creator as only member and ADMIN.  In whatever
    database the team is stored while its organization is missing, nobody
    can add a member to it. *)
Theorem create_team_unchecked valid_user now_created now_updated utcnow team_in payload db :
  truthy (sub payload) = true → truthy (tp_email payload) = true →
  (valid_user = false → user_by_auth0_id (sub payload) db = None →
   create_team valid_user now_created now_updated utcnow team_in payload db
   = (Raise (HTTPException 400 "Invalid user data from token"), db))
  ∧ (valid_user = true ∨ user_by_auth0_id (sub payload) db ≠ None →
     ∃ team db' u,
       create_team valid_user now_created now_updated utcnow team_in payload db
       = (Ok team, db')
       ∧ user_by_auth0_id (sub payload) db' = Some u
       ∧ team_by_id (team_id team) db' = Some team
       ∧ organization_id team = tc_organization_id team_in
       ∧ team_members team = [ {| user_id := user_id_ u; role := ADMIN |} ]
       ∧ organizations db' = organizations db
       ∧ ∀ db2, team_by_id (team_id team) db2 = Some team →
                organization_by_id (organization_id team) db2 = None →
                ∀ utcnow' member_data payload',
                  ∃ e, add_team_member utcnow' (team_id team) member_data payload' db2
                       = (Raise e, db2)).
Proof.
  intros Hsub Hemail. split.
  - intros -> Hnone. unfold create_team. rewrite Hsub, Hemail. cbn [negb orb].
    erewrite M_bind_Raise; [done|]. by apply find_or_create_user_refused.
  - intros Hvalid.
    destruct (find_or_create_user_spec valid_user utcnow payload db Hsub Hvalid)
      as (db1 & u & Hfc & Hu & Horgs & Hold).
    pose proof (find_or_create_user_frame valid_user utcnow payload db) as Hframe.
    rewrite Hfc in Hframe. simpl in Hframe. destruct Hframe as (_ & Hteams & _).
    unfold create_team. rewrite Hsub, Hemail. cbn [negb orb].
    erewrite M_bind_Ok; [|exact Hfc]. unfold_M.
    set (team := {| team_id := fresh_id (team_id <$> teams db1);
                    organization_id := tc_organization_id team_in |}).
    assert (Hfind : team_by_id (team_id team) (set_teams (teams db1 ++ [team]) db1)
                    = Some team).
    { unfold team_by_id. simpl. apply find_one_app_fresh.
      - apply find_one_None. intros o Ho. apply bool_decide_eq_false. intros Heq.
        apply (fresh_id_fresh (team_id <$> teams db1)). rewrite <-Heq.
        by apply list_elem_of_fmap_2.
      - by apply bool_decide_eq_true. }
    pose proof Hfind as Hfind'. simpl in Hfind'. rewrite Hfind'.
    exists team. eexists _, u. split_and!; [reflexivity|done|done|done|done|done|].
    intros db2 Hteam Hnone utcnow' member_data payload'.
    by apply (add_team_member_without_organization _ _ _ _ _ team).
Qed.

Lemma create_team_unchecked_witness :
  ∃ team db',
    create_team true 5 6 7 {| tc_name := "Ghost"; tc_description := None;
                              tc_organization_id := 99 |}
      (Scenario.token Scenario.bob) Scenario.db = (Ok team, db')
    ∧ organization_id team = 99
    ∧ team_members team = [ {| user_id := 11; role := ADMIN |} ]
    ∧ ∀ utcnow' member_data payload',
        ∃ e, add_team_member utcnow' (team_id team) member_data payload' db'
             = (Raise e, db').
Proof.
  destruct (create_team_unchecked true 5 6 7
              {| tc_name := "Ghost"; tc_description := None; tc_organization_id := 99 |}
              (Scenario.token Scenario.bob) Scenario.db)
    as [_ Hcreated]; [reflexivity..|].
  destruct Hcreated as (team & db' & u & Hcall & Hu & Hteam & Horg & Hms & Horgs & Hadd);
    [by left|].
  exists team, db'. split_and!; [done..| |].
  - rewrite Hms. vm_compute in Hcall. injection Hcall as _ <-.
    vm_compute in Hu. by injection Hu as <-.
  - apply Hadd; [done|]. rewrite Horg. unfold organization_by_id. by rewrite Horgs.
Defined.

(** *** Adding a member *)

Lemma add_team_member_Ok utcnow team_id_ member_data payload db requester team org
    user_to_add :
  truthy (sub payload) = true →
  user_by_auth0_id (sub payload) db = Some requester →
  team_by_id team_id_ db = Some team →
  organization_by_id (organization_id team) db = Some org →
  bool_decide (owner_id org = user_id_ requester)
  || any_member (user_id_ requester) [ADMIN] (members org)
  || any_member (user_id_ requester) [ADMIN] (team_members team) = true →
  user_by_id (tm_user_id member_data) db = Some user_to_add →
  bool_decide (owner_id org = tm_user_id member_data)
  || is_member (tm_user_id member_data) (members org) = true →
  is_member (tm_user_id member_data) (team_members team) = false →
  let f := λ t, set_team_updated_at utcnow
                  (set_team_members
                     (team_members t ++ [ {| user_id := tm_user_id member_data;
                                             role := tm_role member_data |} ]) t) in
  add_team_member utcnow team_id_ member_data payload db
  = (Ok (f team),
     set_teams (update_first (λ t, bool_decide (team_id t = team_id_)) f (teams db)) db).
Proof.
  intros Hsub Hreq Hteam Horg Hperm Hu Hin Hnew f.
  unfold add_team_member. unfold_M. rewrite Hsub. cbn [negb].
  rewrite Hreq, Hteam, Horg, Hperm. cbn [negb]. rewrite Hu, Hin. cbn [negb].
  rewrite Hnew. unfold update_team_doc, update_result. fold f.
  pose proof Hteam as Hteam'. unfold team_by_id in Hteam'. rewrite Hteam'.
  rewrite decide_False.
  2:{ intros Heq. apply (f_equal (λ t, length (team_members t))) in Heq.
      simpl in Heq. rewrite length_app in Heq. simpl in Heq. lia. }
  simpl. by rewrite (team_by_id_update team_id_ f db team).
Qed.

(** X15. A successful [add_team_member] has checked that the new member is a
    user and belongs to the organization of the team, as a member or as its
    owner, and that the requester is an admin of the team or of the
    organization, or the owner; the team lists its former members and then the
    new one. *)
Theorem add_team_member_effect utcnow team_id_ member_data payload db team' db' :
  add_team_member utcnow team_id_ member_data payload db = (Ok team', db') →
  ∃ requester team org,
    user_by_auth0_id (sub payload) db = Some requester
    ∧ team_by_id team_id_ db = Some team
    ∧ organization_by_id (organization_id team) db = Some org
    ∧ (owner_id org = user_id_ requester
       ∨ any_member (user_id_ requester) [ADMIN] (members org) = true
       ∨ any_member (user_id_ requester) [ADMIN] (team_members team) = true)
    ∧ is_Some (user_by_id (tm_user_id member_data) db)
    ∧ (owner_id org = tm_user_id member_data
       ∨ is_member (tm_user_id member_data) (members org) = true)
    ∧ is_member (tm_user_id member_data) (team_members team) = false
    ∧ team_members team'
      = team_members team ++ [ {| user_id := tm_user_id member_data;
                                  role := tm_role member_data |} ]
    ∧ team_by_id team_id_ db' = Some team'.
Proof.
  intros Hcall. pose proof Hcall as Hcall'. revert Hcall'.
  unfold add_team_member. unfold_M.
  destruct (truthy (sub payload)) eqn:Hsub; simpl; [|done].
  destruct (user_by_auth0_id (sub payload) db) as [requester|] eqn:Hreq; [|done].
  destruct (team_by_id team_id_ db) as [team|] eqn:Hteam; [|done].
  destruct (organization_by_id (organization_id team) db) as [org|] eqn:Horg; [|done].
  destruct (_ || _ || _) eqn:Hperm; simpl; [|done].
  destruct (user_by_id _ _) as [u|] eqn:Hu; [|done].
  destruct (bool_decide (owner_id org = tm_user_id member_data) || _) eqn:Hin;
    simpl; [|done].
  destruct (is_member _ (team_members team)) eqn:Hnew; [done|].
  intros _.
  rewrite (add_team_member_Ok _ _ _ _ _ requester team org u) in Hcall by done.
  injection Hcall as <- <-. exists requester, team, org.
  split_and!; [done..| | |by eexists| |done|done|].
  - done.
  - apply orb_true_iff in Hperm as [Hperm|?]; [|by right; right].
    apply orb_true_iff in Hperm as [?%bool_decide_eq_true|?]; [by left|by right; left].
  - apply orb_true_iff in Hin as [?%bool_decide_eq_true|?]; [by left|by right].
  - by apply (team_by_id_update team_id_
                (λ t, set_team_updated_at utcnow
                        (set_team_members (team_members t ++ [_]) t))).
Qed.

Lemma add_team_member_effect_witness :
  ∃ team' db',
    add_team_member 5 3 {| tm_user_id := 12; tm_role := MEMBER |}
      (Scenario.token Scenario.bob) Scenario.db = (Ok team', db')
    ∧ team_members team' = [ {| user_id := 11; role := ADMIN |};
                             {| user_id := 12; role := MEMBER |} ].
Proof.
  destruct (add_team_member 5 3 {| tm_user_id := 12; tm_role := MEMBER |}
              (Scenario.token Scenario.bob) Scenario.db)
    as [[team'|e] db'] eqn:Hcall; [|by vm_compute in Hcall].
  destruct (add_team_member_effect 5 3 {| tm_user_id := 12; tm_role := MEMBER |}
              (Scenario.token Scenario.bob) Scenario.db team' db' Hcall)
    as (requester & team & org & _ & Hteam & _ & _ & _ & _ & _ & Hms & _).
  exists team', db'. split; [done|]. rewrite Hms.
  vm_compute in Hteam. by injection Hteam as <-.
Defined.

(** *** Changing a role *)

Lemma find_one_refine {A} (p q : A → bool) c d :
  find_one p c = Some d → q d = true →
  find_one (λ x, p x && q x) c = Some d
  ∧ ∀ f, update_first (λ x, p x && q x) f c = update_first p f c.
Proof.
  intros Hd Hq. induction c as [|x c IH]; simpl in *; [done|].
  destruct (p x); simpl.
  - injection Hd as ->. by rewrite Hq.
  - destruct (IH Hd) as [IH1 IH2]. split; [done|]. intros f. by rewrite IH2.
Qed.

Lemma list_find_member target ms i m :
  list_find (λ m, user_id m = target) ms = Some (i, m) →
  ms !! i = Some m ∧ user_id m = target ∧ is_member target ms = true.
Proof.
  intros (Hi & Hm & _)%list_find_Some. split_and!; [done..|].
  apply is_member_spec. exists m. split; [|done]. by eapply list_elem_of_lookup_2.
Qed.

Lemma list_find_member_None target ms :
  list_find (λ m, user_id m = target) ms = None → is_member target ms = false.
Proof.
  intros Hnone. apply not_true_is_false. intros (m & Hin & Hm)%is_member_spec.
  rewrite list_find_None, Forall_forall in Hnone. by apply (Hnone m).
Qed.

Lemma any_member_alter_self target r i m ms :
  ms !! i = Some m → user_id m = target →
  any_member target [r] (alter (set_role r) i ms) = true.
Proof.
  intros Hi Hm. apply any_member_spec. exists (set_role r m). split_and!.
  - apply (list_elem_of_lookup_2 _ i).
    rewrite list_lookup_alter, decide_True by done. by rewrite Hi.
  - done.
  - simpl. left.
Qed.

Lemma any_member_alter_other uid roles target r i m ms :
  ms !! i = Some m → user_id m = target → uid ≠ target →
  any_member uid roles (alter (set_role r) i ms) = any_member uid roles ms.
Proof.
  intros Hi Hm Hne. revert i Hi. unfold any_member.
  induction ms as [|x ms IH]; intros [|i] Hi; simpl in *; try done.
  - injection Hi as ->.
    by rewrite !(bool_decide_false (user_id m = uid)) by congruence.
  - f_equal. by apply IH.
Qed.

Lemma alter_set_role_ids r (i : nat) (ms : list Member) :
  user_id <$> alter (set_role r) i ms = user_id <$> ms.
Proof.
  revert i. induction ms as [|x ms IH]; intros [|i]; simpl; try done.
  f_equal. apply IH.
Qed.

Lemma update_team_member_role_Ok utcnow team_id_ target r payload db requester team
    org i m :
  truthy (sub payload) = true →
  user_by_auth0_id (sub payload) db = Some requester →
  team_by_id team_id_ db = Some team →
  organization_by_id (organization_id team) db = Some org →
  let is_org_owner_or_admin :=
    bool_decide (owner_id org = user_id_ requester)
    || any_member (user_id_ requester) [ADMIN] (members org) in
  is_org_owner_or_admin
  || any_member (user_id_ requester) [ADMIN] (team_members team) = true →
  r ≠ OWNER →
  list_find (λ m, user_id m = target) (team_members team) = Some (i, m) →
  (is_org_owner_or_admin = false → target ≠ user_id_ requester ∧ role m ≠ ADMIN) →
  let f := λ t, set_team_updated_at utcnow
                  (set_team_members (alter (set_role r) i (team_members t)) t) in
  update_team_member_role utcnow team_id_ target r payload db
  = (Ok (f team),
     set_teams (update_first (λ t, bool_decide (team_id t = team_id_)) f (teams db)) db).
Proof.
  intros Hsub Hreq Hteam Horg is_org Hperm Hr Hfind Hlimits f.
  unfold update_team_member_role. unfold_M. rewrite Hsub. cbn [negb].
  rewrite Hreq, Hteam, Horg. fold is_org. rewrite Hperm. cbn [negb].
  rewrite (bool_decide_false (r = OWNER)) by done. rewrite Hfind.
  assert (negb is_org && bool_decide (target = user_id_ requester) = false) as ->.
  { destruct is_org; [done|]. simpl. apply bool_decide_eq_false. by apply Hlimits. }
  assert (negb is_org && bool_decide (role m = ADMIN) = false) as ->.
  { destruct is_org; [done|]. simpl. apply bool_decide_eq_false. by apply Hlimits. }
  unfold update_team_doc, update_result. fold f.
  destruct (list_find_member _ _ _ _ Hfind) as (_ & _ & Hmem).
  destruct (find_one_refine (λ t, bool_decide (team_id t = team_id_))
              (λ t, is_member target (team_members t)) (teams db) team Hteam Hmem)
    as [-> ->].
  simpl. by rewrite (team_by_id_update team_id_ f db team).
Qed.

Lemma update_team_member_role_cases utcnow team_id_ target r payload db :
  (∃ e, update_team_member_role utcnow team_id_ target r payload db = (Raise e, db))
  ∨ ∃ requester team org i m,
      truthy (sub payload) = true
      ∧ user_by_auth0_id (sub payload) db = Some requester
      ∧ team_by_id team_id_ db = Some team
      ∧ organization_by_id (organization_id team) db = Some org
      ∧ bool_decide (owner_id org = user_id_ requester)
        || any_member (user_id_ requester) [ADMIN] (members org)
        || any_member (user_id_ requester) [ADMIN] (team_members team) = true
      ∧ r ≠ OWNER
      ∧ list_find (λ m, user_id m = target) (team_members team) = Some (i, m)
      ∧ (bool_decide (owner_id org = user_id_ requester)
         || any_member (user_id_ requester) [ADMIN] (members org) = false →
         target ≠ user_id_ requester ∧ role m ≠ ADMIN).
Proof.
  unfold update_team_member_role. unfold_M.
  destruct (truthy (sub payload)) eqn:Hsub; simpl; [|left; by eexists].
  destruct (user_by_auth0_id (sub payload) db) as [requester|] eqn:Hreq;
    [|left; by eexists].
  destruct (team_by_id team_id_ db) as [team|] eqn:Hteam; [|left; by eexists].
  destruct (organization_by_id (organization_id team) db) as [org|] eqn:Horg;
    [|left; by eexists].
  set (is_org := bool_decide (owner_id org = user_id_ requester)
                 || any_member (user_id_ requester) [ADMIN] (members org)).
  destruct (is_org || _) eqn:Hperm; simpl; [|left; by eexists].
  destruct (bool_decide (r = OWNER)) eqn:Hr; [left; by eexists|].
  apply bool_decide_eq_false in Hr.
  destruct (list_find _ (team_members team)) as [[i m]|] eqn:Hfind; [|left; by eexists].
  destruct (negb is_org && bool_decide (target = user_id_ requester)) eqn:Hself;
    [left; by eexists|].
  destruct (negb is_org && bool_decide (role m = ADMIN)) eqn:Hadmin;
    [left; by eexists|].
  right. exists requester, team, org, i, m. split_and!; [done..|].
  intros His. change (is_org = false) in His. rewrite His in Hself, Hadmin.
  simpl in *.
  by apply bool_decide_eq_false in Hself, Hadmin.
Qed.

(** X16. A successful change of role in a team: the new role is not OWNER, the
    member has it afterwards, and the other members keep theirs. A team admin
    without rights in the organization has changed neither their own role nor
    the role of another admin. *)
Theorem update_team_member_role_effect utcnow team_id_ target r payload db team' db' :
  update_team_member_role utcnow team_id_ target r payload db = (Ok team', db') →
  ∃ requester team org,
    user_by_auth0_id (sub payload) db = Some requester
    ∧ team_by_id team_id_ db = Some team
    ∧ organization_by_id (organization_id team) db = Some org
    ∧ team_by_id team_id_ db' = Some team'
    ∧ r ≠ OWNER
    ∧ is_member target (team_members team) = true
    ∧ any_member target [r] (team_members team') = true
    ∧ (∀ uid roles, uid ≠ target →
         any_member uid roles (team_members team')
         = any_member uid roles (team_members team))
    ∧ user_id <$> team_members team' = user_id <$> team_members team
    ∧ (owner_id org ≠ user_id_ requester →
       any_member (user_id_ requester) [ADMIN] (members org) = false →
       target ≠ user_id_ requester
       ∧ ∀ i m, list_find (λ m, user_id m = target) (team_members team) = Some (i, m) →
                role m ≠ ADMIN).
Proof.
  intros Hcall.
  destruct (update_team_member_role_cases utcnow team_id_ target r payload db)
    as [[e He]|(requester & team & org & i & m & Hsub & Hreq & Hteam & Horg & Hperm
                & Hr & Hfind & Hlimits)]; [congruence|].
  rewrite (update_team_member_role_Ok _ _ _ _ _ _ requester team org i m) in Hcall
    by done.
  injection Hcall as <- <-.
  destruct (list_find_member _ _ _ _ Hfind) as (Hi & Hm & Hmem).
  exists requester, team, org. split_and!; [done..| |done|done| | | |].
  - by apply (team_by_id_update team_id_
                (λ t, set_team_updated_at utcnow
                        (set_team_members (alter (set_role r) i (team_members t)) t))).
  - simpl. by apply (any_member_alter_self target r i m).
  - intros uid roles Hne. simpl. by apply (any_member_alter_other _ _ target r i m).
  - simpl. apply alter_set_role_ids.
  - intros Hown Hadm.
    destruct Hlimits as [Hself Hrole].
    { by rewrite (bool_decide_false _ Hown), Hadm. }
    split; [done|]. intros i' m' Hfind'. rewrite Hfind in Hfind'.
    by injection Hfind' as _ <-.
Qed.

Lemma update_team_member_role_effect_witness :
  ∃ team' db',
    update_team_member_role 5 3 11 VIEWER (Scenario.token Scenario.alice) Scenario.db
    = (Ok team', db')
    ∧ any_member 11 [VIEWER] (team_members team') = true
    ∧ num_admins (team_members team') = 0%nat.
Proof.
  destruct (update_team_member_role 5 3 11 VIEWER (Scenario.token Scenario.alice)
              Scenario.db) as [[team'|e] db'] eqn:Hcall; [|by vm_compute in Hcall].
  destruct (update_team_member_role_effect 5 3 11 VIEWER (Scenario.token Scenario.alice)
              Scenario.db team' db' Hcall)
    as (requester & team & org & _ & _ & _ & _ & _ & _ & Hrole & _).
  exists team', db'. split_and!; [done|done|].
  vm_compute in Hcall. by injection Hcall as <- _.
Defined.

(** X17. [add_team_member] does not look at the requested role: it lists a
    member as OWNER of the team, the role that [update_team_member_role]
    refuses to assign, whoever asks and whoever the member is. *)
Theorem add_team_member_accepts_owner_role utcnow team_id_ uid payload db requester
    team org :
  truthy (sub payload) = true →
  user_by_auth0_id (sub payload) db = Some requester →
  team_by_id team_id_ db = Some team →
  organization_by_id (organization_id team) db = Some org →
  bool_decide (owner_id org = user_id_ requester)
  || any_member (user_id_ requester) [ADMIN] (members org)
  || any_member (user_id_ requester) [ADMIN] (team_members team) = true →
  is_Some (user_by_id uid db) →
  bool_decide (owner_id org = uid) || is_member uid (members org) = true →
  is_member uid (team_members team) = false →
  ∃ team' db',
    add_team_member utcnow team_id_ {| tm_user_id := uid; tm_role := OWNER |} payload db
    = (Ok team', db')
    ∧ any_member uid [OWNER] (team_members team') = true
    ∧ ∀ utcnow' target payload',
        ∃ e, update_team_member_role utcnow' team_id_ target OWNER payload' db'
             = (Raise e, db').
Proof.
  intros Hsub Hreq Hteam Horg Hperm [u Hu] Hin Hnew.
  rewrite (add_team_member_Ok _ _ {| tm_user_id := uid; tm_role := OWNER |} _ _
             requester team org u) by done.
  eexists _, _. split_and!; [done| |].
  - simpl. rewrite any_member_app. apply orb_true_iff. right.
    apply any_member_spec. eexists. split_and!; [by left|done|by left].
  - intros utcnow' target payload'.
    match goal with |- ∃ e, update_team_member_role _ _ _ _ _ ?db1 = _ =>
      destruct (update_team_member_role_cases utcnow' team_id_ target OWNER payload' db1)
        as [?|(? & ? & ? & ? & ? & _ & _ & _ & _ & _ & Hr & _)] end; done.
Qed.

Lemma add_team_member_accepts_owner_role_witness :
  ∃ team' db',
    add_team_member 5 3 {| tm_user_id := 12; tm_role := OWNER |}
      (Scenario.token Scenario.bob) Scenario.db = (Ok team', db')
    ∧ any_member 12 [OWNER] (team_members team') = true.
Proof.
  destruct (add_team_member_accepts_owner_role 5 3 12 (Scenario.token Scenario.bob)
              Scenario.db Scenario.bob Scenario.sre Scenario.acme)
    as (team' & db' & Hcall & Hrole & _); [reflexivity..|by eexists|reflexivity
                                          |reflexivity|].
  by exists team', db'.
Defined.

(** X18. The rule that protects the only admin of a team stops the admin
    themselves only: the owner or an admin of the organization removes the
    only admin of a team, which is left without admin. *)
Theorem organization_admin_removes_only_team_admin utcnow team_id_ target payload db
    requester team org :
  truthy (sub payload) = true →
  user_by_auth0_id (sub payload) db = Some requester →
  team_by_id team_id_ db = Some team →
  organization_by_id (organization_id team) db = Some org →
  bool_decide (owner_id org = user_id_ requester)
  || any_member (user_id_ requester) [ADMIN] (members org) = true →
  target ≠ user_id_ requester →
  is_member target (team_members team) = true →
  (∀ uid, any_member uid [ADMIN] (team_members team) = true → uid = target) →
  ∃ team' db',
    remove_team_member utcnow team_id_ target payload db = (Ok team', db')
    ∧ team_by_id team_id_ db' = Some team'
    ∧ is_member target (team_members team') = false
    ∧ ∀ uid, any_member uid [ADMIN] (team_members team') = false.
Proof.
  intros Hsub Hreq Hteam Horg Hperm Hne Hmem Honly.
  destruct (find_one (λ m, bool_decide (user_id m = target)) (team_members team))
    as [m|] eqn:Hm.
  2:{ rewrite find_one_None in Hm. apply is_member_spec in Hmem as (m & Hin & Hid).
      specialize (Hm m Hin). simpl in Hm. by rewrite bool_decide_true in Hm. }
  destruct (remove_team_member_Ok utcnow team_id_ target payload db requester team org m)
    as [Hcall Hafter]; try done.
  - by rewrite Hperm.
  - by rewrite (bool_decide_false (target = user_id_ requester)).
  - by rewrite Hperm.
  - eexists _, _. split_and!; [exact Hcall|exact Hafter| |].
    + simpl. apply is_member_pull_self.
    + intros uid. simpl. destruct (decide (uid = target)) as [->|Hneq].
      * apply not_true_is_false. intros Hadm%any_member_is_member.
        by rewrite is_member_pull_self in Hadm.
      * rewrite any_member_pull by done. apply not_true_is_false.
        intros Hadm. by apply Hneq, Honly.
Qed.

Lemma organization_admin_removes_only_team_admin_witness :
  ∃ team' db',
    remove_team_member 5 3 11 (Scenario.token Scenario.alice) Scenario.db
    = (Ok team', db')
    ∧ team_members team' = [].
Proof.
  destruct (organization_admin_removes_only_team_admin 5 3 11
              (Scenario.token Scenario.alice) Scenario.db Scenario.alice Scenario.sre
              Scenario.acme) as (team' & db' & Hcall & _); [reflexivity..|done| | |].
  - reflexivity.
  - intros uid Hadm. apply any_member_spec in Hadm as (m & Hin & <- & _).
    by apply list_elem_of_singleton in Hin as ->.
  - exists team', db'. split; [done|].
    vm_compute in Hcall. by injection Hcall as <- _.
Defined.

(** X19. [delete_team] does not look at the token; the team is gone
    afterwards, and the other teams are as before. For an unknown id the
    answer is the 404 and nothing changes. *)
Theorem delete_team_unguarded team_id_ payload db :
  NoDup (team_id <$> teams db) →
  (is_Some (team_by_id team_id_ db) →
   ∃ db', delete_team team_id_ payload db = (Ok (), db')
          ∧ (∀ payload', get_team team_id_ payload' db'
                         = (Raise (HTTPException 404 "Team not found"), db'))
          ∧ (∀ id, id ≠ team_id_ → team_by_id id db' = team_by_id id db)
          ∧ organizations db' = organizations db)
  ∧ (team_by_id team_id_ db = None →
     delete_team team_id_ payload db = (Raise (HTTPException 404 "Team not found"), db)).
Proof.
  intros Hnd. split.
  - intros [team Hteam]. unfold delete_team. unfold_M. rewrite Hteam. simpl.
    eexists. split_and!; [done| | |done].
    + intros payload'. unfold get_team. unfold_M. unfold team_by_id. simpl.
      by rewrite (find_one_delete_first_same team_id).
    + intros id Hne. unfold team_by_id. simpl.
      by apply (find_one_delete_first_other team_id).
  - intros Hteam. unfold delete_team. unfold_M. rewrite Hteam. simpl.
    rewrite delete_first_None by done. by destruct db.
Qed.

Lemma delete_team_unguarded_witness :
  ∃ db', delete_team 3
           {| sub := None; tp_email := None; tp_name := None; tp_picture := None |}
           Scenario.db = (Ok (), db')
         ∧ teams db' = [].
Proof.
  destruct (delete_team_unguarded 3
              {| sub := None; tp_email := None; tp_name := None; tp_picture := None |}
              Scenario.db) as [Hdel _]; [apply NoDup_singleton|].
  destruct Hdel as (db' & Hcall & _); [by eexists|].
  exists db'. split; [done|]. vm_compute in Hcall. by injection Hcall as <-.
Defined.
End team_endpoints.

(** ** The service endpoints *)

Section service_endpoints.
Import Organizations Services OrganizationsAdmin ServicesAdmin.

(** The user may act on the organization: as its owner or as a member,
    whatever the role. *)
Lemma get_organization_if_member_Ok_inv org_id_ user db org db' :
  get_organization_if_member org_id_ user db = (Ok org, db') →
  db' = db ∧ org ∈ organizations db ∧ org_id org = org_id_
  ∧ (owner_id org = user_id_ user ∨ is_member (user_id_ user) (members org) = true).
Proof.
  unfold get_organization_if_member, except_reraise. unfold_M.
  destruct (find_one _ (organizations db)) as [o|] eqn:Hfind.
  - intros [= <- <-]. apply find_one_Some in Hfind as [Hin Ho].
    apply andb_true_iff in Ho as [Hid%bool_decide_eq_true Hauth].
    split_and!; [done..|].
    apply orb_true_iff in Hauth as [?%bool_decide_eq_true|?]; [by left|by right].
  - by destruct (organization_by_id org_id_ db).
Qed.

Lemma get_organization_if_member_Ok org_id_ user db org :
  organization_by_id org_id_ db = Some org →
  bool_decide (owner_id org = user_id_ user) || is_member (user_id_ user) (members org)
  = true →
  get_organization_if_member org_id_ user db = (Ok org, db).
Proof.
  intros Horg Hauth. unfold get_organization_if_member, except_reraise. unfold_M.
  destruct (find_one_refine (λ o, bool_decide (org_id o = org_id_))
              (λ o, bool_decide (owner_id o = user_id_ user)
                    || is_member (user_id_ user) (members o))
              (organizations db) org Horg Hauth) as [-> _].
  done.
Qed.

(** Only HTTP errors leave the endpoints, and the check of the membership
    answers 404 for an unknown organization and 403 for a stranger. *)
Lemma get_organization_if_member_Raise org_id_ user db e db' :
  get_organization_if_member org_id_ user db = (Raise e, db') →
  db' = db
  ∧ (organization_by_id org_id_ db = None
     ∧ e = HTTPException 404 "Organization not found."
     ∨ is_Some (organization_by_id org_id_ db)
       ∧ e = HTTPException 403 "User not authorized for organization.").
Proof.
  unfold get_organization_if_member, except_reraise. unfold_M.
  destruct (find_one _ (organizations db)) as [o|] eqn:Hfind; [done|].
  destruct (organization_by_id org_id_ db) eqn:Horg; intros [= <- <-].
  - split; [done|]. right. split; [by eexists|done].
  - split; [done|]. by left.
Qed.

Lemma linked_app previous history current new t :
  linked previous history current →
  linked previous
    (history ++ [ {| old_status := Some current; new_status := new; timestamp := t |} ])
    new.
Proof.
  revert previous. induction history as [|entry history IH]; intros previous; simpl.
  - by intros ->.
  - intros [Hold Hl]. split; [done|]. by apply IH.
Qed.

(** The update of [update_service] keeps the history a chain. *)
Lemma apply_service_update_linked now_entry now_update u svc :
  let push :=
    match su_status u with
    | Some new =>
        if bool_decide (new ≠ status svc) then
          Some {| old_status := Some (status svc); new_status := new;
                  timestamp := now_entry |}
        else None
    | None => None
    end in
  history_linked svc → history_linked (apply_service_update push u now_update svc).
Proof.
  unfold history_linked. simpl. intros Hl.
  destruct (su_status u) as [new|]; simpl; [|done].
  case_bool_decide as Hnew; simpl.
  - by apply linked_app.
  - by rewrite Hnew.
Qed.

(** What [update_service] leaves in the database. *)
Lemma update_service_db now_entry now_update sid u user db :
  (update_service now_entry now_update sid u user db).2 = db
  ∨ ∃ svc,
      service_by_id sid db = Some svc
      ∧ (∃ org, get_organization_if_member (service_org_id svc) user db = (Ok org, db))
      ∧ let push :=
          match su_status u with
          | Some new =>
              if bool_decide (new ≠ status svc) then
                Some {| old_status := Some (status svc); new_status := new;
                        timestamp := now_entry |}
              else None
          | None => None
          end in
        (update_service now_entry now_update sid u user db).2
        = set_services
            (update_first (λ s, bool_decide (service_id_ s = sid))
               (apply_service_update push u now_update) (services db)) db.
Proof.
  destruct (service_by_id sid db) as [svc|] eqn:Hsvc.
  2:{ left. unfold update_service, except_reraise. unfold_M. by rewrite Hsvc. }
  destruct (get_organization_if_member_result (service_org_id svc) user db)
    as [[org Hauth]|(code & detail & Hauth)].
  - rewrite (update_service_authorized _ _ _ _ _ _ svc org Hsvc Hauth).
    destruct (_ && _); [by left|]. right. exists svc. split_and!; [done|by eexists|done].
  - left. by rewrite (update_service_unauthorized _ _ _ _ _ _ svc code detail Hsvc Hauth).
Qed.

Lemma create_service_run current_time service_data user db :
  let new :=
    {| service_id_ := fresh_id (service_id_ <$> services db);
       service_org_id := sc_organization_id service_data;
       service_name := sc_name service_data;
       status := sc_status service_data;
       status_history := [ {| old_status := None; new_status := sc_status service_data;
                              timestamp := current_time |} ];
       service_created_at := current_time;
       service_updated_at := current_time |} in
  (∃ org, get_organization_if_member (sc_organization_id service_data) user db
          = (Ok org, db)
          ∧ create_service current_time service_data user db
            = (Ok new, set_services (services db ++ [new]) db))
  ∨ (∃ code detail,
       get_organization_if_member (sc_organization_id service_data) user db
       = (Raise (HTTPException code detail), db)
       ∧ create_service current_time service_data user db
         = (Raise (HTTPException code detail), db)).
Proof.
  intros new.
  destruct (get_organization_if_member_result (sc_organization_id service_data) user db)
    as [[org Hauth]|(code & detail & Hauth)].
  - left. exists org. split; [done|]. unfold create_service, except_reraise.
    erewrite M_bind_Ok; [|exact Hauth]. unfold_M. fold new.
    assert (service_by_id (service_id_ new) (set_services (services db ++ [new]) db)
            = Some new) as Hfind.
    { unfold service_by_id. simpl. apply find_one_app_fresh.
      - apply find_one_None. intros o Ho. apply bool_decide_eq_false. intros Heq.
        apply (fresh_id_fresh (service_id_ <$> services db)). rewrite <-Heq.
        by apply list_elem_of_fmap_2.
      - by apply bool_decide_eq_true. }
    simpl in Hfind. by rewrite Hfind.
  - right. exists code, detail. split; [done|]. unfold create_service, except_reraise.
    by erewrite M_bind_Raise; [|exact Hauth].
Qed.

Lemma delete_service_run sid user db :
  match service_by_id sid db with
  | None => delete_service sid user db = (Ok (), db)
  | Some svc =>
      (∃ org, get_organization_if_member (service_org_id svc) user db = (Ok org, db)
              ∧ delete_service sid user db
                = (Ok (), set_services
                            (delete_first (λ s, bool_decide (service_id_ s = sid))
                               (services db)) db))
      ∨ (∃ code detail,
           get_organization_if_member (service_org_id svc) user db
           = (Raise (HTTPException code detail), db)
           ∧ delete_service sid user db = (Raise (HTTPException code detail), db))
  end.
Proof.
  destruct (service_by_id sid db) as [svc|] eqn:Hsvc.
  2:{ unfold delete_service, except_reraise. unfold_M. by rewrite Hsvc. }
  destruct (get_organization_if_member_result (service_org_id svc) user db)
    as [[org Hauth]|(code & detail & Hauth)].
  - left. exists org. split; [done|]. unfold delete_service, except_reraise.
    erewrite M_bind_Ok; [|reflexivity]. rewrite Hsvc.
    by erewrite M_bind_Ok; [|exact Hauth].
  - right. exists code, detail. split; [done|]. unfold delete_service, except_reraise.
    erewrite M_bind_Ok; [|reflexivity]. rewrite Hsvc.
    by erewrite M_bind_Raise; [|exact Hauth].
Qed.

Lemma update_service_Ok_inv now_entry now_update sid u user db svc' db' :
  update_service now_entry now_update sid u user db = (Ok svc', db') →
  ∃ svc org,
    service_by_id sid db = Some svc
    ∧ get_organization_if_member (service_org_id svc) user db = (Ok org, db)
    ∧ service_by_id sid db' = Some svc'
    ∧ service_org_id svc' = service_org_id svc
    ∧ organizations db' = organizations db
    ∧ service_status_history db' = service_status_history db.
Proof.
  intros Hcall.
  destruct (service_by_id sid db) as [svc|] eqn:Hsvc.
  2:{ revert Hcall. unfold update_service, except_reraise. unfold_M. by rewrite Hsvc. }
  destruct (get_organization_if_member_result (service_org_id svc) user db)
    as [[org Hauth]|(code & detail & Hauth)].
  - rewrite (update_service_authorized _ _ _ _ _ _ svc org Hsvc Hauth) in Hcall.
    exists svc, org. destruct (_ && _); injection Hcall as <- <-.
    + by split_and!.
    + split_and!; [done|done| |done..]. by apply service_by_id_update.
  - by rewrite (update_service_unauthorized _ _ _ _ _ _ svc code detail Hsvc Hauth)
      in Hcall.
Qed.

(** X20. The service endpoints write the history of a status into the document
    of the service, and not into the collection [service_status_history] that
    [get_service_uptime] reads. While this collection has no event of the
    service, the uptime after a change of status is that of a service which
    has had its new status for the ninety days. *)
Theorem status_changes_do_not_reach_uptime now_entry now_update sid u user db svc' db'
    utcnow slug_ org :
  update_service now_entry now_update sid u user db = (Ok svc', db') →
  (∀ e, e ∈ service_status_history db → ev_service_id e ≠ sid) →
  UptimeSpec.org_by_slug slug_ db = Some org →
  service_org_id svc' = org_id org →
  service_status_history db' = service_status_history db
  ∧ ∃ r, Public.get_service_uptime utcnow slug_ sid db' = Ok r
         ∧ Public.overall_uptime_percentage r
           == (if decide (UptimeSpec.is_up (status svc')) then 100 else 0)
         ∧ Forall (λ d, Public.du_status d = status svc') (Public.daily_statuses r).
Proof.
  intros Hcall Hnone Hslug Horg.
  apply update_service_Ok_inv in Hcall
    as (svc & org0 & Hsvc & _ & Hsvc' & _ & Horgs & Hlog).
  split; [done|].
  assert (UptimeSpec.service_of_org sid org db' = Some svc') as Hof.
  { unfold UptimeSpec.service_of_org.
    apply (find_one_refine (λ s, bool_decide (service_id_ s = sid))
             (λ s, bool_decide (service_org_id s = org_id org)) (services db') svc');
      [done|by apply bool_decide_eq_true]. }
  assert (UptimeSpec.org_by_slug slug_ db' = Some org) as Hslug'
    by (unfold UptimeSpec.org_by_slug in *; by rewrite Horgs).
  assert (∀ e, e ∈ service_status_history db' → ev_service_id e ≠ sid) as Hnone'
    by (by rewrite Hlog).
  destruct (get_service_uptime_returns utcnow slug_ sid db' org svc' Hslug' Hof)
    as (init & Hinit & ->).
  { intros e He Hsid. by destruct (Hnone' e He). }
  rewrite (events_of_no_history sid svc' utcnow db' Hnone') in *.
  simpl in Hinit. injection Hinit as <-.
  eexists. split; [reflexivity|]. split.
  - apply constant_timeline_percentage.
  - apply constant_timeline_daily.
Qed.

Lemma status_changes_do_not_reach_uptime_witness :
  ∃ svc' db' r,
    update_service 5 6 7 {| su_name := None; su_status := Some OPERATIONAL |}
      Scenario.alice Scenario.db_no_history = (Ok svc', db')
    ∧ status_history svc'
      = [ {| old_status := Some MAJOR_OUTAGE; new_status := OPERATIONAL;
             timestamp := 5 |} ]
    ∧ Public.get_service_uptime Scenario.utcnow "acme" 7 db' = Ok r
    ∧ Public.overall_uptime_percentage r == 100.
Proof.
  destruct (update_service 5 6 7 {| su_name := None; su_status := Some OPERATIONAL |}
              Scenario.alice Scenario.db_no_history) as [[svc'|e] db'] eqn:Hcall;
    [|by vm_compute in Hcall].
  destruct (status_changes_do_not_reach_uptime 5 6 7
              {| su_name := None; su_status := Some OPERATIONAL |}
              Scenario.alice Scenario.db_no_history svc' db' Scenario.utcnow "acme"
              Scenario.acme Hcall) as (_ & r & Hr & Hpct & _).
  - intros e He. by apply elem_of_nil in He.
  - reflexivity.
  - vm_compute in Hcall. by injection Hcall as <- _.
  - exists svc', db', r. split_and!; [done| |done|].
    + vm_compute in Hcall. by injection Hcall as <- _.
    + rewrite Hpct. vm_compute in Hcall. by injection Hcall as <- _.
Defined.

(** *** The history of a service is a chain *)

Lemma service_call_invariant c user db :
  NoDup (service_id_ <$> services db) ∧ Forall history_linked (services db) →
  NoDup (service_id_ <$> services (after_service_call c user db))
  ∧ Forall history_linked (services (after_service_call c user db)).
Proof.
  intros [Hnd Hl]. destruct c as [current_time d|now_entry now_update sid u|sid]; simpl.
  - destruct (create_service_run current_time d user db)
      as [(org & _ & ->)|(code & detail & _ & ->)]; [|done]. simpl. split.
    + rewrite fmap_app. apply NoDup_app. split_and!; [done| |apply NoDup_singleton].
      intros id Hid ->%list_elem_of_singleton. by apply fresh_id_fresh in Hid.
    + apply Forall_app. split; [done|]. by repeat constructor.
  - destruct (update_service_db now_entry now_update sid u user db)
      as [->|(svc & Hsvc & _ & ->)]; [done|]. simpl. split.
    + by rewrite update_first_fmap.
    + apply update_first_Forall; [done|]. intros s Hs.
      pose proof Hs as [Hin _]%find_one_Some. rewrite Forall_forall in Hl.
      unfold service_by_id in Hsvc. rewrite Hsvc in Hs. injection Hs as <-.
      apply apply_service_update_linked. by apply Hl.
  - pose proof (delete_service_run sid user db) as Hrun.
    destruct (service_by_id sid db) as [svc|]; [|by rewrite Hrun].
    destruct Hrun as [(org & _ & ->)|(code & detail & _ & ->)]; [|done]. simpl.
    pose proof (delete_first_sublist (λ s, bool_decide (service_id_ s = sid))
                  (services db)) as Hsub.
    split.
    + eapply sublist_NoDup; [exact Hnd|]. by apply fmap_sublist.
    + rewrite Forall_forall in Hl |- *. intros s Hs. apply Hl.
      by eapply elem_of_sublist.
Qed.

(** X21. Whatever the calls of [create_service], [update_service] and
    [delete_service], starting from a database without services and
    interleaved with writes that leave the services alone: the services keep
    unique ids, and the history of every service is a chain from its first
    status to its current one. *)
Theorem services_history_linked db :
  services_reachable db →
  NoDup (service_id_ <$> services db) ∧ Forall history_linked (services db).
Proof.
  induction 1 as [db Hempty|db c user _ IH|db db' _ IH Hsame].
  - rewrite Hempty. split; constructor.
  - by apply service_call_invariant.
  - by rewrite Hsame.
Qed.

Lemma services_history_linked_witness :
  let db1 := after_service_call
               (CreateService 5 {| sc_name := "api"; sc_organization_id := 1;
                                   sc_status := OPERATIONAL |})
               Scenario.alice Cases.acme_created_db in
  let db2 := after_service_call
               (UpdateService 6 7 1 {| su_name := None; su_status := Some MAJOR_OUTAGE |})
               Scenario.alice db1 in
  (status_history <$> services db2)
  = [ [ {| old_status := None; new_status := OPERATIONAL; timestamp := 5 |};
        {| old_status := Some OPERATIONAL; new_status := MAJOR_OUTAGE;
           timestamp := 6 |} ] ]
  ∧ Forall history_linked (services db2).
Proof.
  intros db1 db2. split; [by vm_compute|].
  apply (services_history_linked db2).
  apply services_reachable_call, services_reachable_call, services_reachable_init.
  reflexivity.
Defined.

(** *** Who reads and who writes *)

(** X22. A call of a service endpoint that changes the database was made by
    the owner or by a member of the organization of the service. *)
Theorem service_writes_by_members c user db :
  after_service_call c user db ≠ db →
  ∃ org,
    org ∈ organizations db
    ∧ (owner_id org = user_id_ user ∨ is_member (user_id_ user) (members org) = true)
    ∧ match c with
      | CreateService _ service_data => org_id org = sc_organization_id service_data
      | UpdateService _ _ sid _ | DeleteService sid =>
          ∃ svc, service_by_id sid db = Some svc ∧ org_id org = service_org_id svc
      end.
Proof.
  destruct c as [current_time d|now_entry now_update sid u|sid]; simpl.
  - destruct (create_service_run current_time d user db)
      as [(org & Hauth & ->)|(code & detail & _ & ->)]; [|done]. intros _.
    apply get_organization_if_member_Ok_inv in Hauth as (_ & Hin & Hid & Hauth).
    by exists org.
  - destruct (update_service_db now_entry now_update sid u user db)
      as [->|(svc & Hsvc & [org Hauth] & _)]; [done|]. intros _.
    apply get_organization_if_member_Ok_inv in Hauth as (_ & Hin & Hid & Hauth).
    exists org. split_and!; [done..|]. by exists svc.
  - pose proof (delete_service_run sid user db) as Hrun.
    destruct (service_by_id sid db) as [svc|]; [|by rewrite Hrun].
    destruct Hrun as [(org & Hauth & ->)|(code & detail & _ & ->)]; [|done]. intros _.
    apply get_organization_if_member_Ok_inv in Hauth as (_ & Hin & Hid & Hauth).
    exists org. split_and!; [done..|]. by exists svc.
Qed.

Lemma service_writes_by_members_witness :
  ∃ org, org ∈ organizations Scenario.db
         ∧ (owner_id org = 12 ∨ is_member 12 (members org) = true)
         ∧ ∃ svc, service_by_id 7 Scenario.db = Some svc ∧ org_id org = service_org_id svc.
Proof.
  apply (service_writes_by_members (DeleteService 7) Scenario.carol Scenario.db).
  by vm_compute.
Defined.

(** X23. [delete_service] asks for no role: every member of the organization
    deletes its services. The service is gone afterwards, and from then on the
    call succeeds for everybody, since a service that does not exist is
    deleted without an error and without a check. *)
Theorem delete_service_effect sid user db :
  NoDup (service_id_ <$> services db) →
  (∀ svc org m,
     service_by_id sid db = Some svc →
     organization_by_id (service_org_id svc) db = Some org →
     m ∈ members org → user_id m = user_id_ user →
     ∃ db', delete_service sid user db = (Ok (), db')
            ∧ service_by_id sid db' = None
            ∧ (∀ id, id ≠ sid → service_by_id id db' = service_by_id id db)
            ∧ ∀ user', delete_service sid user' db' = (Ok (), db'))
  ∧ (service_by_id sid db = None → delete_service sid user db = (Ok (), db)).
Proof.
  intros Hnd. split.
  - intros svc org m Hsvc Horg Hm Hid.
    pose proof (delete_service_run sid user db) as Hrun. rewrite Hsvc in Hrun.
    assert (get_organization_if_member (service_org_id svc) user db = (Ok org, db))
      as Hauth.
    { apply get_organization_if_member_Ok; [done|]. apply orb_true_iff. right.
      apply is_member_spec. by exists m. }
    destruct Hrun as [(org' & _ & ->)|(code & detail & Hno & _)]; [|congruence].
    assert (service_by_id sid
              (set_services
                 (delete_first (λ s, bool_decide (service_id_ s = sid)) (services db)) db)
            = None) as Hgone
      by (unfold service_by_id; simpl; by apply find_one_delete_first_same).
    eexists. split_and!; [done|done| |].
    + intros id Hne. unfold service_by_id. simpl.
      by apply (find_one_delete_first_other service_id_).
    + intros user'.
      match goal with |- delete_service _ _ ?db1 = _ =>
        pose proof (delete_service_run sid user' db1) as Hrun' end.
      by rewrite Hgone in Hrun'.
  - intros Hsvc. pose proof (delete_service_run sid user db) as Hrun.
    by rewrite Hsvc in Hrun.
Qed.

Lemma delete_service_effect_witness :
  ∃ db', delete_service 7 Scenario.carol Scenario.db = (Ok (), db')
         ∧ services db' = []
         ∧ delete_service 7 Scenario.bob db' = (Ok (), db').
Proof.
  destruct (delete_service_effect 7 Scenario.carol Scenario.db) as [Hdel _];
    [apply NoDup_singleton|].
  destruct (Hdel Scenario.api Scenario.acme {| user_id := 12; role := MEMBER |})
    as (db' & Hcall & _ & _ & Hagain); [reflexivity|reflexivity|compute_done|reflexivity|].
  exists db'. split_and!; [done| |done].
  vm_compute in Hcall. by injection Hcall as <-.
Defined.

Lemma insert_by_name_Permutation {A} (name : A → string) x l :
  insert_by_name name x l ≡ₚ x :: l.
Proof.
  induction l as [|y l IH]; simpl; [done|].
  destruct (String.ltb _ _); [done|]. rewrite IH. apply Permutation_swap.
Qed.

Lemma sort_by_name_Permutation {A} (name : A → string) l : sort_by_name name l ≡ₚ l.
Proof.
  unfold sort_by_name.
  assert (∀ acc, foldl (λ acc x, insert_by_name name x acc) acc l ≡ₚ acc ++ l) as H.
  { induction l as [|x l IH]; intros acc; simpl; [by rewrite app_nil_r|].
    rewrite IH, insert_by_name_Permutation. simpl. apply Permutation_middle. }
  apply (H []).
Qed.

Lemma elem_of_page {A} (name : A → string) skip limit (l : list A) x :
  x ∈ take limit (drop skip (sort_by_name name l)) → x ∈ l.
Proof.
  intros Hx. rewrite <-(sort_by_name_Permutation name l).
  eapply elem_of_sublist; [exact Hx|].
  etrans; [apply sublist_take|apply sublist_drop].
Qed.

Lemma list_services_page skip limit status_filter (q : Service → bool) db s :
  s ∈ take limit (drop skip
        (sort_by_name service_name
           (find (λ s, q s && match status_filter with
                              | Some st => bool_decide (status s = st)
                              | None => true
                              end) (services db)))) →
  s ∈ services db ∧ q s = true ∧ ∀ st, status_filter = Some st → status s = st.
Proof.
  intros Hs%elem_of_page. unfold find in Hs.
  apply list_elem_of_filter in Hs as [Hq Hin]. apply Is_true_true in Hq.
  apply andb_true_iff in Hq as [Hq Hst]. split_and!; [done..|].
  intros st ->. by apply bool_decide_eq_true in Hst.
Qed.

(** X24. The services that [get_service] and [list_services] hand out belong
    to organizations of the user: to organizations that list the user as a
    member, or, where the organization is named in the query, to the one that
    the user owns or is a member of. [list_services] hands out stored
    services, at most [limit] of them, each with the status of the filter. *)
Theorem service_reads_by_members sid organization_id skip limit status_filter user db :
  (∀ s db', get_service sid user db = (Ok s, db') →
     db' = db ∧ service_by_id sid db = Some s
     ∧ ∃ org, org ∈ organizations db ∧ org_id org = service_org_id s
              ∧ (owner_id org = user_id_ user
                 ∨ is_member (user_id_ user) (members org) = true))
  ∧ (∀ l db',
       list_services organization_id skip limit status_filter user db = (Ok l, db') →
       db' = db ∧ (length l ≤ limit)%nat
       ∧ ∀ s, s ∈ l →
           s ∈ services db
           ∧ (∀ st, status_filter = Some st → status s = st)
           ∧ ∃ org, org ∈ organizations db ∧ org_id org = service_org_id s
                    ∧ match organization_id with
                      | Some id =>
                          id = org_id org
                          ∧ (owner_id org = user_id_ user
                             ∨ is_member (user_id_ user) (members org) = true)
                      | None => is_member (user_id_ user) (members org) = true
                      end).
Proof.
  split.
  - intros s db'. unfold get_service, except_reraise.
    erewrite M_bind_Ok; [|reflexivity].
    destruct (service_by_id sid db) as [svc|] eqn:Hsvc; [|done].
    destruct (get_organization_if_member_result (service_org_id svc) user db)
      as [[org Hauth]|(code & detail & Hauth)].
    + erewrite M_bind_Ok; [|exact Hauth]. intros [= <- <-].
      apply get_organization_if_member_Ok_inv in Hauth as (_ & Hin & Hid & Hauth).
      split_and!; [done..|]. by exists org.
    + by erewrite M_bind_Raise; [|exact Hauth].
  - intros l db'. unfold list_services, except_reraise.
    destruct organization_id as [id|].
    + destruct (get_organization_if_member_result id user db)
        as [[org Hauth]|(code & detail & Hauth)].
      2:{ by erewrite M_bind_Raise; [|exact Hauth]. }
      erewrite M_bind_Ok; [|exact Hauth]. unfold_M. intros [= <- <-].
      apply get_organization_if_member_Ok_inv in Hauth as (_ & Hin & Hid & Hauth).
      split_and!; [done|rewrite length_take; lia|].
      intros s (Hs & Hq%bool_decide_eq_true & Hst)%list_services_page.
      split_and!; [done..|]. exists org. split_and!; [done|congruence|done|done].
    + unfold_M. case_bool_decide as Hnone.
      { intros [= <- <-]. split_and!; [done|simpl; lia|].
        intros s Hs. by apply elem_of_nil in Hs. }
      intros [= <- <-]. split_and!; [done|rewrite length_take; lia|].
      intros s (Hs & Hq%bool_decide_eq_true & Hst)%list_services_page.
      split_and!; [done..|].
      apply list_elem_of_fmap in Hq as (org & Hid & Horg). unfold find in Horg.
      apply list_elem_of_filter in Horg as [Hmem Hin]. apply Is_true_true in Hmem.
      by exists org.
Qed.

Lemma service_reads_by_members_witness :
  ∃ l, list_services None 0 10 None Scenario.carol Scenario.db = (Ok l, Scenario.db)
       ∧ l = [Scenario.api]
       ∧ ∀ s, s ∈ l → ∃ org, org ∈ organizations Scenario.db
                             ∧ org_id org = service_org_id s
                             ∧ is_member 12 (members org) = true.
Proof.
  destruct (service_reads_by_members 7 None 0 10 None Scenario.carol Scenario.db)
    as [_ Hlist].
  exists [Scenario.api]. split_and!; [by vm_compute|done|].
  intros s Hs.
  destruct (Hlist [Scenario.api] Scenario.db) as (_ & _ & Hall); [by vm_compute|].
  destruct (Hall s Hs) as (_ & _ & org & Hin & Hid & Hmem). by exists org.
Defined.

(** X25. A new service starts its history with one entry, without old status,
    for the status it is created with; it gets an id that no service has. *)
Theorem create_service_effect current_time service_data user db s db' :
  create_service current_time service_data user db = (Ok s, db') →
  status s = sc_status service_data
  ∧ status_history s
    = [ {| old_status := None; new_status := sc_status service_data;
           timestamp := current_time |} ]
  ∧ service_org_id s = sc_organization_id service_data
  ∧ service_by_id (service_id_ s) db = None
  ∧ services db' = services db ++ [s]
  ∧ service_status_history db' = service_status_history db.
Proof.
  destruct (create_service_run current_time service_data user db)
    as [(org & _ & ->)|(code & detail & _ & ->)]; [|done].
  intros [= <- <-]. split_and!; [done..| |done|done].
  apply find_one_None. intros o Ho. apply bool_decide_eq_false. intros Heq.
  apply (fresh_id_fresh (service_id_ <$> services db)). simpl in Heq. rewrite <-Heq.
  by apply list_elem_of_fmap_2.
Qed.

Lemma create_service_effect_witness :
  ∃ s db',
    create_service 5 {| sc_name := "web"; sc_organization_id := 1;
                        sc_status := MAINTENANCE |} Scenario.bob Scenario.db
    = (Ok s, db')
    ∧ service_id_ s = 8
    ∧ status_history s
      = [ {| old_status := None; new_status := MAINTENANCE; timestamp := 5 |} ].
Proof.
  destruct (create_service 5 {| sc_name := "web"; sc_organization_id := 1;
                                sc_status := MAINTENANCE |} Scenario.bob Scenario.db)
    as [[s|e] db'] eqn:Hcall; [|by vm_compute in Hcall].
  destruct (create_service_effect 5 {| sc_name := "web"; sc_organization_id := 1;
                                       sc_status := MAINTENANCE |}
              Scenario.bob Scenario.db s db' Hcall) as (_ & Hhist & _).
  exists s, db'. split_and!; [done| |done].
  vm_compute in Hcall. by injection Hcall as <- _.
Defined.
End service_endpoints.

(** ** Subscriptions *)

Section subscriptions.
Import Public Organizations Subscriptions.

(** [send_email] never returns: whatever the arguments, the call ends in an
    exception, at the latest where its body asks for the name [fm]. *)
Lemma send_email_fails message_accepted keywords :
  ∃ e, send_email message_accepted keywords = Failed e.
Proof.
  unfold send_email. destruct (find_one _ keywords); [by eexists|].
  destruct (find_one _ send_email_parameters); [by eexists|].
  destruct message_accepted; by eexists.
Qed.

Lemma subscribe_to_updates_run message_accepted slug_ email_ db :
  subscribe_to_updates message_accepted slug_ email_ db
  = match find_one (λ o, bool_decide (slug o = slug_)) (organizations db) with
    | None =>
        (Raise (HTTPException 500
                  "An internal error occurred while processing your subscription."), db)
    | Some organization =>
        match find_one (subscription email_ (org_id organization)) (subscribers db) with
        | Some _ =>
            (Ok {| status_code := 201;
                   message := "You are already subscribed to updates for this organization." |},
             db)
        | None =>
            (Ok {| status_code := 201;
                   message := "Subscription successful, but confirmation email could not be sent." |},
             set_subscribers
               (subscribers db ++ [ {| sub_email := email_;
                                       sub_org_id := org_id organization |} ]) db)
        end
    end.
Proof.
  unfold subscribe_to_updates, except_Exception_500. unfold_M.
  destruct (find_one _ (organizations db)) as [organization|]; [|done].
  destruct (find_one _ (subscribers db)); [done|]. by destruct message_accepted.
Qed.

(** X26. A new subscription is stored, and is always answered with the message
    that the confirmation could not be sent: the call of [send_email] names a
    parameter that the function does not have. The message that announces a
    confirmation is never the answer. For a slug that no organization has, the
    404 of the endpoint is turned into the 500. *)
Theorem subscribe_to_updates_never_confirms message_accepted slug_ email_ db :
  (∀ r db', subscribe_to_updates message_accepted slug_ email_ db = (Ok r, db') →
     message r
     ≠ "You have been successfully subscribed. Please check your email for confirmation.")
  ∧ (∀ org, UptimeSpec.org_by_slug slug_ db = Some org →
       find_one (subscription email_ (org_id org)) (subscribers db) = None →
       subscribe_to_updates message_accepted slug_ email_ db
       = (Ok {| status_code := 201;
                message := "Subscription successful, but confirmation email could not be sent." |},
          set_subscribers
            (subscribers db ++ [ {| sub_email := email_; sub_org_id := org_id org |} ]) db))
  ∧ (UptimeSpec.org_by_slug slug_ db = None →
     subscribe_to_updates message_accepted slug_ email_ db
     = (Raise (HTTPException 500
                 "An internal error occurred while processing your subscription."), db)).
Proof.
  rewrite subscribe_to_updates_run. unfold UptimeSpec.org_by_slug. split_and!.
  - intros r db'. destruct (find_one _ (organizations db)); [|done].
    destruct (find_one _ (subscribers db)); by intros [= <- <-].
  - by intros org -> ->.
  - by intros ->.
Qed.

Lemma subscribe_to_updates_never_confirms_witness :
  subscribe_to_updates true "acme" "erin@example.org" Scenario.db
  = (Ok {| status_code := 201;
           message := "Subscription successful, but confirmation email could not be sent." |},
     set_subscribers
       [Scenario.dan; {| sub_email := "erin@example.org"; sub_org_id := 1 |}] Scenario.db)
  ∧ subscribe_to_updates true "nowhere" "erin@example.org" Scenario.db
    = (Raise (HTTPException 500
                "An internal error occurred while processing your subscription."),
       Scenario.db).
Proof.
  destruct (subscribe_to_updates_never_confirms true "acme" "erin@example.org"
              Scenario.db) as (_ & Hnew & _).
  destruct (subscribe_to_updates_never_confirms true "nowhere" "erin@example.org"
              Scenario.db) as (_ & _ & Hnone).
  split.
  - apply (Hnew Scenario.acme); reflexivity.
  - apply Hnone. reflexivity.
Defined.

Lemma subscription_spec email_ id s :
  subscription email_ id s = true ↔ sub_email s = email_ ∧ sub_org_id s = id.
Proof.
  unfold subscription. by rewrite andb_true_iff, !bool_decide_eq_true.
Qed.

Lemma subscribers_unique_app db email_ id :
  subscribers_unique db →
  find_one (subscription email_ id) (subscribers db) = None →
  subscribers_unique
    (set_subscribers (subscribers db ++ [ {| sub_email := email_; sub_org_id := id |} ]) db).
Proof.
  unfold subscribers_unique. intros Hnd Hnone. simpl. rewrite fmap_app.
  apply NoDup_app. split_and!; [done| |apply NoDup_singleton].
  intros [e i] (s & Hs & Hin)%list_elem_of_fmap Hnew%list_elem_of_singleton.
  rewrite find_one_None in Hnone. specialize (Hnone s Hin).
  apply not_true_iff_false in Hnone. apply Hnone, subscription_spec.
  simpl in Hnew. split; congruence.
Qed.

(** X27. Subscribing twice is subscribing once: the second call finds the
    subscription and changes nothing. Unsubscribing afterwards removes the
    subscription and no other, so that the subscribers are those from before
    that are not this address. No call stores a subscription twice. *)
Theorem subscription_round_trip (message_accepted message_accepted' : bool) slug_ email_
    db org :
  UptimeSpec.org_by_slug slug_ db = Some org →
  let db1 := (subscribe_to_updates message_accepted slug_ email_ db).2 in
  let db2 := (unsubscribe_from_updates slug_ email_ db1).2 in
  is_Some (find_one (subscription email_ (org_id org)) (subscribers db1))
  ∧ subscribe_to_updates message_accepted' slug_ email_ db1
    = (Ok {| status_code := 201;
             message := "You are already subscribed to updates for this organization." |},
       db1)
  ∧ find_one (subscription email_ (org_id org)) (subscribers db2) = None
  ∧ subscribers db2
    = filter (λ s, ¬ subscription email_ (org_id org) s) (subscribers db)
  ∧ (subscribers_unique db → subscribers_unique db1 ∧ subscribers_unique db2).
Proof.
  intros Horg db1 db2. unfold UptimeSpec.org_by_slug in Horg.
  assert (organizations db1 = organizations db) as Horgs1.
  { unfold db1. rewrite subscribe_to_updates_run, Horg.
    by destruct (find_one _ (subscribers db)). }
  assert (is_Some (find_one (subscription email_ (org_id org)) (subscribers db1)))
    as [s1 Hs1].
  { unfold db1. rewrite subscribe_to_updates_run, Horg.
    destruct (find_one _ (subscribers db)) as [s|] eqn:Hs; simpl; [by eexists|].
    exists {| sub_email := email_; sub_org_id := org_id org |}.
    apply find_one_app_fresh; [done|]. by apply subscription_spec. }
  assert (subscribers db2
          = filter (λ s, ¬ subscription email_ (org_id org) s) (subscribers db1)) as Hdb2.
  { unfold db2, unsubscribe_from_updates. unfold_M. rewrite Horgs1, Horg. done. }
  split_and!.
  - by eexists.
  - rewrite subscribe_to_updates_run, Horgs1, Horg, Hs1. done.
  - rewrite Hdb2. apply find_one_None. intros s [Hs _]%list_elem_of_filter.
    apply not_true_is_false. intros Ht. apply Hs. by rewrite Ht.
  - rewrite Hdb2. unfold db1. rewrite subscribe_to_updates_run, Horg.
    destruct (find_one _ (subscribers db)) as [s|] eqn:Hs; simpl; [done|].
    rewrite filter_app, filter_cons, decide_False, filter_nil, app_nil_r; [done|].
    intros Hneg. apply Hneg, Is_true_true, subscription_spec. done.
  - intros Hnd.
    assert (subscribers_unique db1) as Hnd1.
    { unfold db1. rewrite subscribe_to_updates_run, Horg.
      destruct (find_one _ (subscribers db)) as [s|] eqn:Hs; simpl; [done|].
      by apply subscribers_unique_app. }
    split; [done|]. unfold subscribers_unique. rewrite Hdb2.
    eapply sublist_NoDup; [exact Hnd1|]. apply fmap_sublist, sublist_filter.
Qed.

Lemma subscription_round_trip_witness :
  let db1 := (subscribe_to_updates true "acme" "erin@example.org" Scenario.db).2 in
  let db2 := (unsubscribe_from_updates "acme" "erin@example.org" db1).2 in
  subscribers db1 = [Scenario.dan; {| sub_email := "erin@example.org"; sub_org_id := 1 |}]
  ∧ subscribers db2
    = filter (λ s, ¬ subscription "erin@example.org" 1 s) (subscribers Scenario.db).
Proof.
  intros db1 db2. split; [reflexivity|].
  destruct (subscription_round_trip true true "acme" "erin@example.org" Scenario.db
              Scenario.acme) as (_ & _ & _ & Hdb2 & _); [reflexivity|].
  exact Hdb2.
Defined.

(** X28. The endpoint of [subscribers.py], with the unique index that
    [main.py] creates at startup, stores what [subscribe_to_updates] stores,
    and answers otherwise: an address that is subscribed already gets the 409,
    and an unknown organization the 404. *)
Theorem subscribe_to_notifications_effect email_ organization_id_ db :
  (organization_by_id organization_id_ db = None →
   subscribe_to_notifications email_ organization_id_ db
   = (Raise (HTTPException 404 "Organization not found."), db))
  ∧ (is_Some (organization_by_id organization_id_ db) →
     is_Some (find_one (subscription email_ organization_id_) (subscribers db)) →
     subscribe_to_notifications email_ organization_id_ db
     = (Raise (HTTPException 409
                 "This email is already subscribed to this organization's updates."), db))
  ∧ (is_Some (organization_by_id organization_id_ db) →
     find_one (subscription email_ organization_id_) (subscribers db) = None →
     subscribe_to_notifications email_ organization_id_ db
     = (Ok {| sub_email := email_; sub_org_id := organization_id_ |},
        set_subscribers
          (subscribers db ++ [ {| sub_email := email_; sub_org_id := organization_id_ |} ])
          db))
  ∧ (subscribers_unique db →
     subscribers_unique (subscribe_to_notifications email_ organization_id_ db).2)
  ∧ (∀ message_accepted slug_ org,
       UptimeSpec.org_by_slug slug_ db = Some org → org_id org = organization_id_ →
       (subscribe_to_notifications email_ organization_id_ db).2
       = (subscribe_to_updates message_accepted slug_ email_ db).2).
Proof.
  unfold subscribe_to_notifications. unfold_M. split_and!.
  - by intros ->.
  - by intros [org ->] [s ->].
  - by intros [org ->] ->.
  - intros Hnd. destruct (organization_by_id organization_id_ db); [|done].
    destruct (find_one _ (subscribers db)) eqn:Hs; [done|]. simpl.
    by apply subscribers_unique_app.
  - unfold UptimeSpec.org_by_slug. intros message_accepted slug_ org Hslug Hid.
    rewrite subscribe_to_updates_run, Hslug, Hid.
    destruct (organization_by_id organization_id_ db) as [org'|] eqn:Horg.
    + by destruct (find_one _ (subscribers db)).
    + apply find_one_Some in Hslug as [Hin _]. unfold organization_by_id in Horg.
      rewrite find_one_None in Horg. specialize (Horg org Hin). simpl in Horg.
      by rewrite bool_decide_true in Horg.
Qed.

Lemma subscribe_to_notifications_effect_witness :
  subscribe_to_notifications "dan@example.org" 1 Scenario.db
  = (Raise (HTTPException 409
              "This email is already subscribed to this organization's updates."),
     Scenario.db)
  ∧ subscribe_to_notifications "dan@example.org" 9 Scenario.db
    = (Raise (HTTPException 404 "Organization not found."), Scenario.db).
Proof.
  destruct (subscribe_to_notifications_effect "dan@example.org" 1 Scenario.db)
    as (_ & Hdup & _).
  destruct (subscribe_to_notifications_effect "dan@example.org" 9 Scenario.db)
    as (Hnone & _).
  split.
  - apply Hdup; by eexists.
  - apply Hnone. reflexivity.
Defined.
End subscriptions.

(** ** Slugs *)

Section slugs.
Import Organizations OrganizationsAdmin Slugs.

Lemma is_slug_char_lower c : is_slug_char c = true → lower c = c.
Proof.
  unfold is_slug_char, lower. intros H.
  destruct ((65 <=? nat_of_ascii c)%nat && (nat_of_ascii c <=? 90)%nat) eqn:Hup; [|done].
  exfalso. apply andb_true_iff in Hup as [H1%Nat.leb_le H2%Nat.leb_le].
  apply orb_true_iff in H as [H|H];
    apply andb_true_iff in H as [H3%Nat.leb_le H4%Nat.leb_le]; lia.
Qed.

Lemma clean_weaken b s : clean b s = true → clean false s = true.
Proof.
  destruct s as [|c s]; simpl; [done|].
  destruct (is_slug_char c); [done|].
  intros [[Hc _]%andb_true_iff Hs]%andb_true_iff. by rewrite Hc, Hs.
Qed.

Lemma clean_str_lower b s : clean b s = true → str_lower s = s.
Proof.
  revert b. induction s as [|c s IH]; intros b; simpl; [done|].
  destruct (is_slug_char c) eqn:Hc.
  - intros Hs. by rewrite (is_slug_char_lower c Hc), (IH false Hs).
  - intros [[->%bool_decide_eq_true _]%andb_true_iff Hs]%andb_true_iff.
    by rewrite (IH true Hs).
Qed.

Lemma clean_sub_runs b s : clean b s = true → sub_runs b s = s.
Proof.
  revert b. induction s as [|c s IH]; intros b; simpl; [done|].
  destruct (is_slug_char c) eqn:Hc.
  - intros Hs. by rewrite (IH false Hs).
  - intros [[->%bool_decide_eq_true ->%negb_true_iff]%andb_true_iff Hs]%andb_true_iff.
    by rewrite (IH true Hs).
Qed.

Lemma sub_runs_clean b s : clean b (sub_runs b s) = true.
Proof.
  revert b. induction s as [|c s IH]; intros b; simpl; [done|].
  destruct (is_slug_char c) eqn:Hc.
  - simpl. by rewrite Hc.
  - destruct b; [apply IH|]. simpl.
    by rewrite IH.
Qed.

Lemma lstrip_dash_clean b s : clean b s = true → clean false (lstrip_dash s) = true.
Proof.
  revert b. induction s as [|c s IH]; intros b Hs; [done|].
  destruct (decide (c = "-"%char)) as [->|Hne].
  - simpl in *. apply andb_true_iff in Hs as [_ Hs]. by apply (IH true).
  - assert (lstrip_dash (String c s) = String c s) as ->; [|by eapply clean_weaken].
    simpl. destruct c as [[] [] [] [] [] [] [] []]; try done.
Qed.

Lemma lstrip_dash_idemp s : lstrip_dash (lstrip_dash s) = lstrip_dash s.
Proof.
  induction s as [|c s IH]; [done|].
  destruct (decide (c = "-"%char)) as [->|Hne]; [exact IH|].
  assert (lstrip_dash (String c s) = String c s) as Heq
    by (simpl; destruct c as [[] [] [] [] [] [] [] []]; done).
  by rewrite !Heq.
Qed.

Lemma rstrip_dash_clean b s : clean b s = true → clean b (rstrip_dash s) = true.
Proof.
  revert b. induction s as [|c s IH]; intros b; simpl; [done|].
  destruct (bool_decide (c = "-"%char) && bool_decide (rstrip_dash s = EmptyString));
    [done|]. simpl.
  destruct (is_slug_char c); [apply IH|].
  intros [Hc Hs]%andb_true_iff. rewrite Hc. simpl. by apply IH.
Qed.

Lemma rstrip_dash_idemp s : rstrip_dash (rstrip_dash s) = rstrip_dash s.
Proof.
  induction s as [|c s IH]; simpl; [done|].
  destruct (bool_decide (c = "-"%char) && bool_decide (rstrip_dash s = EmptyString))
    eqn:Hc; [done|]. simpl. by rewrite IH, Hc.
Qed.

(** Stripping the end leaves the beginning as it is. *)
Lemma lstrip_rstrip_dash s : lstrip_dash s = s → lstrip_dash (rstrip_dash s) = rstrip_dash s.
Proof.
  destruct s as [|c s]; [done|]. intros Hl. simpl rstrip_dash.
  destruct (bool_decide (c = "-"%char) && bool_decide (rstrip_dash s = EmptyString));
    [done|].
  destruct (decide (c = "-"%char)) as [->|Hne].
  - exfalso. simpl in Hl.
    assert (∀ t, String.length (lstrip_dash t) ≤ String.length t)%nat as Hlen.
    { induction t as [|c' t IHt]; simpl; [lia|].
      destruct c' as [[] [] [] [] [] [] [] []]; simpl; lia. }
    specialize (Hlen s). rewrite Hl in Hlen. simpl in Hlen. lia.
  - simpl. destruct c as [[] [] [] [] [] [] [] []]; done.
Qed.

(** X29. What [slugify] returns is made of lower-case letters, digits and
    single dashes, and neither starts nor ends with a dash; on such a string
    [slugify] changes nothing, so that the slug of a slug is the slug. *)
Theorem slugify_idempotent name :
  slug_shaped (slugify name) ∧ slugify (slugify name) = slugify name.
Proof.
  assert (slug_shaped (slugify name)) as Hshaped.
  { unfold slug_shaped, slugify. split_and!.
    - apply rstrip_dash_clean, (lstrip_dash_clean false), sub_runs_clean.
    - apply lstrip_rstrip_dash, lstrip_dash_idemp.
    - apply rstrip_dash_idemp. }
  split; [done|]. destruct Hshaped as (Hclean & Hl & Hr).
  set (s := slugify name) in *. unfold slugify at 1.
  by rewrite (clean_str_lower false), (clean_sub_runs false), Hl, Hr.
Qed.

Lemma slug_loop_Some fuel base_slug k orgs s :
  slug_loop fuel base_slug (slug_candidate base_slug k) (S k) orgs = Some s →
  ∃ j, (k ≤ j)%nat ∧ s = slug_candidate base_slug j
       ∧ (s ∉ slug <$> orgs)
       ∧ ∀ i, (k ≤ i < j)%nat → slug_candidate base_slug i ∈ slug <$> orgs.
Proof.
  revert k. induction fuel as [|fuel IH]; intros k; simpl.
  - destruct (slug_taken _ orgs) eqn:Htaken; [done|]. intros [= <-].
    exists k. split_and!; [lia|done| |intros; lia].
    intros Hin%slug_taken_spec. congruence.
  - destruct (slug_taken _ orgs) eqn:Htaken.
    + intros (j & Hj & -> & Hfree & Hbefore)%(IH (S k)).
      exists j. split_and!; [lia|done|done|].
      intros i Hi. destruct (decide (i = k)) as [->|Hne].
      * by apply slug_taken_spec.
      * apply Hbefore. lia.
    + intros [= <-]. exists k. split_and!; [lia|done| |intros; lia].
      intros Hin%slug_taken_spec. congruence.
Qed.

(** X30. The slug of a new organization is the first of the candidates [base],
    [base-1], [base-2], ... that no organization has, where [base] is the slug
    of its name: the loop of [create_organization] ends, and the slugs of the
    organizations stay distinct. *)
Theorem create_organization_slug valid_user utcnow org_in payload db org db' :
  create_organization valid_user utcnow org_in payload db = (Ok org, db') →
  first_free_candidate (slugify (oc_name org_in)) (organizations db) (slug org)
  ∧ organizations db' = organizations db ++ [org].
Proof.
  intros Hcall.
  destruct (create_organization_Ok_inv _ _ _ _ _ _ _ Hcall) as (Hsub & Hemail & Hvalid).
  destruct (create_organization_effect valid_user utcnow org_in payload db
              Hsub Hemail Hvalid)
    as (db1 & u & _ & _ & _ & Heff).
  simpl in Heff. rewrite Heff in Hcall. injection Hcall as <- <-.
  split; [|done]. simpl. unfold unique_slug.
  destruct (slug_loop_fuel (slugify (oc_name org_in)) (organizations db)) as [s Hs].
  rewrite Hs. simpl.
  apply (slug_loop_Some _ _ 0) in Hs as (j & _ & -> & Hfree & Hbefore).
  exists j. split_and!; [done..|]. intros i Hi. apply Hbefore. lia.
Qed.

Lemma create_organization_slug_witness :
  ∃ org db',
    create_organization true 5 {| oc_name := "ACME!"; oc_logo_url := None |}
      (Scenario.token Scenario.bob) Scenario.db = (Ok org, db')
    ∧ slug org = "acme-1"
    ∧ first_free_candidate "acme" (organizations Scenario.db) (slug org).
Proof.
  destruct (create_organization true 5 {| oc_name := "ACME!"; oc_logo_url := None |}
              (Scenario.token Scenario.bob) Scenario.db) as [[org|e] db'] eqn:Hcall;
    [|by vm_compute in Hcall].
  destruct (create_organization_slug true 5 {| oc_name := "ACME!"; oc_logo_url := None |}
              (Scenario.token Scenario.bob) Scenario.db org db' Hcall) as [Hslug _].
  exists org, db'. split_and!; [done| |exact Hslug].
  vm_compute in Hcall. by injection Hcall as <- _.
Defined.
End slugs.
